(** * Streaming digest engines of crypto/md5 and crypto/sha256

  A shallow embedding of [src/crypto/md5/md5.go] and
  [src/crypto/sha256/sha256.go]: the block buffer and accumulator
  ([Write]), padding and finalization ([checkSum], [Sum]) and the
  checkpoint format ([MarshalBinary], [UnmarshalBinary]).

  Conventions.
  - A Go [uint32]/[uint64] is a [Z]; every place where the source
    relies on wrap-around applies [uint32]/[uint64] explicitly.
  - A Go [int] (lengths, indices, [d.nx]) is a [Z]; the values that
    occur are bounded by slice lengths, so no wrap-around is involved.
  - A [[]byte] and a [[n]byte] are [list byte]; the array length is
    carried by the well-formedness predicate of each package.
  - A run-time panic (slice bounds, index out of range, the explicit
    [panic] of [checkSum]) is the [Panic] outcome. *)

From Stdlib Require Import String ZArith List Lia Bool Arith.
From coqutil Require Import Byte Z.bitblast.
Import ListNotations.

Local Open Scope Z_scope.

(* ================================================================== *)
(** ** Go run-time: outcomes, slices, [copy] *)

Module GoRt.

Inductive outcome (A : Type) : Type :=
| Done (a : A)
| Panic (msg : string).
Arguments Done {A} a.
Arguments Panic {A} msg.

Definition bind {A B} (c : outcome A) (k : A -> outcome B) : outcome B :=
  match c with
  | Done a => k a
  | Panic m => Panic m
  end.

(** [error] values are built by [errors.New] only; they are modelled by
    their message, [None] being Go's [nil]. *)
Definition error := string.

Definition lenZ {A} (l : list A) : Z := Z.of_nat (length l).

Definition uint32 (z : Z) : Z := z mod 2 ^ 32.
Definition uint64 (z : Z) : Z := z mod 2 ^ 64.

(** [l[lo:]] *)
Definition slice_from {A} (l : list A) (lo : Z) : outcome (list A) :=
  if (0 <=? lo) && (lo <=? lenZ l)
  then Done (skipn (Z.to_nat lo) l)
  else Panic "slice bounds out of range".

(** [l[:hi]] *)
Definition slice_to {A} (l : list A) (hi : Z) : outcome (list A) :=
  if (0 <=? hi) && (hi <=? lenZ l)
  then Done (firstn (Z.to_nat hi) l)
  else Panic "slice bounds out of range".

(** [copy(dst, src)]: the updated destination and the number of bytes
    copied, [min(len(dst), len(src))]. *)
Definition copy (dst src : list byte) : list byte * Z :=
  let n := Nat.min (length dst) (length src) in
  (firstn n src ++ skipn n dst, Z.of_nat n).

(** Overwrite [b[off : off+len(bs)]] with [bs]; the store panics when the
    window does not fit. *)
Definition store (b : list byte) (off : Z) (bs : list byte)
  : outcome (list byte) :=
  if (0 <=? off) && (off + lenZ bs <=? lenZ b)
  then Done (firstn (Z.to_nat off) b ++ bs
               ++ skipn (Z.to_nat off + length bs) b)
  else Panic "index out of range".

Fixpoint bytes_eqb (a b : list byte) : bool :=
  match a, b with
  | [], [] => true
  | c :: a', e :: b' => Byte.eqb c e && bytes_eqb a' b'
  | _, _ => false
  end.

Definition zeros (n : nat) : list byte := repeat Byte.x00 n.

End GoRt.
Export GoRt.

Declare Scope outcome_scope.
Delimit Scope outcome_scope with outcome.
Notation "x <- c ;; k" := (bind c (fun x => k))
(at level 61, c at next level, right associativity) : outcome_scope.
Notation "' pat <- c ;; k" := (bind c (fun x => match x with pat => k end))
(at level 61, pat pattern, c at next level, right associativity) : outcome_scope.
Local Open Scope outcome_scope.

(* ================================================================== *)
(** ** encoding/binary *)

Module Binary.

(** [encoding/binary] is not among the sources; the spec fixes the byte
    orders it is used for: "each state-vector word (big-endian 32-bit)",
    "[total_len] as a big-endian 8-byte integer", "MD5 encodes this length
    field little-endian; SHA-224/256 encodes it big-endian", "MD5 emits
    each 32-bit word little-endian; SHA-224/256 emits each 32-bit word
    big-endian".  [byte.of_Z] is the conversion [byte(v)], which keeps the
    low 8 bits. *)

(** Modelled from the spec: the 4 bytes [binary.BigEndian.PutUint32]
    stores for [v], most significant byte first. *)
Definition be32 (v : Z) : list byte :=
  [byte.of_Z (Z.shiftr v 24); byte.of_Z (Z.shiftr v 16);
   byte.of_Z (Z.shiftr v 8); byte.of_Z v].

(** Modelled from the spec: the 4 bytes [binary.LittleEndian.PutUint32]
    stores for [v], least significant byte first. *)
Definition le32 (v : Z) : list byte :=
  [byte.of_Z v; byte.of_Z (Z.shiftr v 8);
   byte.of_Z (Z.shiftr v 16); byte.of_Z (Z.shiftr v 24)].

(** Modelled from the spec: the 8 bytes [binary.BigEndian.PutUint64]
    stores for [v], most significant byte first. *)
Definition be64 (v : Z) : list byte :=
  [byte.of_Z (Z.shiftr v 56); byte.of_Z (Z.shiftr v 48);
   byte.of_Z (Z.shiftr v 40); byte.of_Z (Z.shiftr v 32);
   byte.of_Z (Z.shiftr v 24); byte.of_Z (Z.shiftr v 16);
   byte.of_Z (Z.shiftr v 8); byte.of_Z v].

(** Modelled from the spec: the 8 bytes [binary.LittleEndian.PutUint64]
    stores for [v], least significant byte first. *)
Definition le64 (v : Z) : list byte :=
  [byte.of_Z v; byte.of_Z (Z.shiftr v 8);
   byte.of_Z (Z.shiftr v 16); byte.of_Z (Z.shiftr v 24);
   byte.of_Z (Z.shiftr v 32); byte.of_Z (Z.shiftr v 40);
   byte.of_Z (Z.shiftr v 48); byte.of_Z (Z.shiftr v 56)].

(** Modelled from the spec: [binary.BigEndian.PutUint32(b[off:], v)]
    overwrites 4 bytes of [b] from index [off]. *)
Definition BigEndian_PutUint32 (b : list byte) (off v : Z)
  : outcome (list byte) := store b off (be32 v).

(** Modelled from the spec: [binary.BigEndian.PutUint64(b[off:], v)]. *)
Definition BigEndian_PutUint64 (b : list byte) (off v : Z)
  : outcome (list byte) := store b off (be64 v).

(** Modelled from the spec: [binary.LittleEndian.PutUint32(b[off:], v)]. *)
Definition LittleEndian_PutUint32 (b : list byte) (off v : Z)
  : outcome (list byte) := store b off (le32 v).

(** Modelled from the spec: [binary.LittleEndian.PutUint64(b[off:], v)]. *)
Definition LittleEndian_PutUint64 (b : list byte) (off v : Z)
  : outcome (list byte) := store b off (le64 v).

(** Modelled from the spec: [binary.BigEndian.Uint32(b)], the big-endian
    reading of [b[0..3]], written the way [consumeUint32] of sha256.go
    writes it:
    [uint32(b[3]) | uint32(b[2])<<8 | uint32(b[1])<<16 | uint32(b[0])<<24]
    after the bounds check [_ = b[3]]. *)
Definition BigEndian_Uint32 (b : list byte) : outcome Z :=
  match b with
  | b0 :: b1 :: b2 :: b3 :: _ =>
      Done (Z.lor (Z.lor (Z.lor (byte.unsigned b3)
                                (Z.shiftl (byte.unsigned b2) 8))
                         (Z.shiftl (byte.unsigned b1) 16))
                  (Z.shiftl (byte.unsigned b0) 24))
  | _ => Panic "index out of range"
  end.

(** Modelled from the spec: [binary.BigEndian.Uint64(b)], the big-endian
    reading of [b[0..7]], written the way [consumeUint64] of sha256.go
    writes it. *)
Definition BigEndian_Uint64 (b : list byte) : outcome Z :=
  match b with
  | b0 :: b1 :: b2 :: b3 :: b4 :: b5 :: b6 :: b7 :: _ =>
      Done (Z.lor (Z.lor (Z.lor (Z.lor (Z.lor (Z.lor (Z.lor
              (byte.unsigned b7)
              (Z.shiftl (byte.unsigned b6) 8))
              (Z.shiftl (byte.unsigned b5) 16))
              (Z.shiftl (byte.unsigned b4) 24))
              (Z.shiftl (byte.unsigned b3) 32))
              (Z.shiftl (byte.unsigned b2) 40))
              (Z.shiftl (byte.unsigned b1) 48))
              (Z.shiftl (byte.unsigned b0) 56))
  | _ => Panic "index out of range"
  end.

(** The number a byte string denotes when read most significant byte
    first: the meaning of "big-endian", against which the encoders above
    are checked. *)
Definition be_value (l : list byte) : Z :=
  fold_left (fun acc b => 256 * acc + byte.unsigned b) l 0.

(** The number a byte string denotes when read least significant byte
    first: the meaning of "little-endian". *)
Definition le_value (l : list byte) : Z := be_value (rev l).

End Binary.
Export Binary.

(* ================================================================== *)
(** ** The compression loop *)

Module Compression.
Section Blocks.

Variable V : Type.
(** One application of the algorithm's compression function to a state
    vector and one 64-byte block. *)
Variable compress : V -> list byte -> V.

(** Modelled from the spec: [block]/[blockGeneric] live in
    [md5block.go] and [sha256block.go], which are not among the sources.
    The spec gives their contract: a "pure function: (state vector,
    64-byte block) -> new state vector", applied by the accumulator to
    "every complete block".  The loop consumes [p] one 64-byte block at
    a time while a complete block remains; a trailing partial block is
    left alone.  [fuel] bounds the number of iterations. *)
Fixpoint block_loop (fuel : nat) (v : V) (p : list byte) : V :=
  match fuel with
  | O => v
  | S fuel' =>
      if (64 <=? length p)%nat
      then block_loop fuel' (compress v (firstn 64 p)) (skipn 64 p)
      else v
  end.

(** Modelled from the spec: the block loop run to completion; [length p]
    iterations always suffice (see [BlockFacts.blocks_step]). *)
Definition blocks (v : V) (p : list byte) : V := block_loop (length p) v p.

End Blocks.
Arguments block_loop {V} compress fuel v p.
Arguments blocks {V} compress v p.

(** What is left of [l] once its complete 64-byte blocks are taken off the
    front. *)
Definition rest (l : list byte) : list byte :=
  skipn (64 * (length l / 64)) l.

End Compression.
Export Compression.


(* ================================================================== *)
(** ** crypto/md5 *)

Module Md5.

(** The size of an MD5 checksum in bytes. *)
Definition Size : Z := 16.

(** The blocksize of MD5 in bytes. *)
Definition BlockSize : Z := 64.

Definition init0 : Z := 0x67452301.
Definition init1 : Z := 0xEFCDAB89.
Definition init2 : Z := 0x98BADCFE.
Definition init3 : Z := 0x10325476.

(** [[4]uint32] *)
Definition words : Type := (Z * Z * Z * Z)%type.

(** [digest] represents the partial evaluation of a checksum. *)
Record digest : Type := mkDigest {
  s : words;        (* s   [4]uint32       *)
  x : list byte;    (* x   [BlockSize]byte *)
  nx : Z;           (* nx  int             *)
  len : Z           (* len uint64          *)
}.

Definition Reset (d : digest) : digest :=
  mkDigest (init0, init1, init2, init3) (x d) 0 0.

(** ["md5\x01"] *)
Definition magic : list byte := [Byte.x6d; Byte.x64; Byte.x35; Byte.x01].
Definition marshaledSize : Z := lenZ magic + 4 * 4 + BlockSize + 8.

Definition appendUint64 (b : list byte) (v : Z) : outcome (list byte) :=
  a <- BigEndian_PutUint64 (zeros 8) 0 v;;
  Done (b ++ a).

Definition appendUint32 (b : list byte) (v : Z) : outcome (list byte) :=
  a <- BigEndian_PutUint32 (zeros 4) 0 v;;
  Done (b ++ a).

(** [b = b[:n]] on the slice made by [make([]byte, 0, cap)]: the length
    may grow up to the capacity, and the bytes that become visible are
    those of the fresh backing array, "already zero". *)
Definition reslice_fresh (b : list byte) (cap n : Z) : outcome (list byte) :=
  if (0 <=? n) && (n <=? cap)
  then Done (firstn (Z.to_nat n) b ++ zeros (Z.to_nat n - length b))
  else Panic "slice bounds out of range".

Definition MarshalBinary (d : digest) : outcome (list byte * option error) :=
  let b := [] in
  let b := b ++ magic in
  let '(w0, w1, w2, w3) := s d in
  b <- appendUint32 b w0;;
  b <- appendUint32 b w1;;
  b <- appendUint32 b w2;;
  b <- appendUint32 b w3;;
  t <- slice_to (x d) (nx d);;
  let b := b ++ t in
  b <- reslice_fresh b marshaledSize (lenZ b + lenZ (x d) - nx d);;
  b <- appendUint64 b (len d);;
  Done (b, None).

Definition consumeUint64 (b : list byte) : outcome (list byte * Z) :=
  r <- slice_from b 8;;
  h <- slice_to b 8;;
  v <- BigEndian_Uint64 h;;
  Done (r, v).

Definition consumeUint32 (b : list byte) : outcome (list byte * Z) :=
  r <- slice_from b 4;;
  h <- slice_to b 4;;
  v <- BigEndian_Uint32 h;;
  Done (r, v).

Definition errIdentifier : error := "crypto/md5: invalid hash state identifier"%string.
Definition errSize : error := "crypto/md5: invalid hash state size"%string.

(** The result pairs the receiver after the call with the returned error.
    The first test is [len(b) < len(magic) || string(b[:len(magic)]) != magic];
    [||] evaluates the slice expression only when the length test fails. *)
Definition UnmarshalBinary (d : digest) (b : list byte)
  : outcome (digest * option error) :=
  bad <- (if lenZ b <? lenZ magic then Done true
          else t <- slice_to b (lenZ magic);;
               Done (negb (bytes_eqb t magic)));;
  if bad : bool then Done (d, Some errIdentifier)
  else if negb (lenZ b =? marshaledSize) then Done (d, Some errSize)
  else
    b <- slice_from b (lenZ magic);;
    '(b, w0) <- consumeUint32 b;;
    '(b, w1) <- consumeUint32 b;;
    '(b, w2) <- consumeUint32 b;;
    '(b, w3) <- consumeUint32 b;;
    let '(x', n) := copy (x d) b in
    b <- slice_from b n;;
    '(b, l) <- consumeUint64 b;;
    Done (mkDigest (w0, w1, w2, w3) x' (l mod BlockSize) l, None).

Definition New : digest := Reset (mkDigest (0, 0, 0, 0) (zeros 64) 0 0).

(** The method [func (d *digest) Size() int { return Size }]; the name
    [Size] is taken by the constant. *)
Definition digest_Size (d : digest) : Z := Size.

(** The method [func (d *digest) BlockSize() int { return BlockSize }]. *)
Definition digest_BlockSize (d : digest) : Z := BlockSize.

Section WithBlock.

(** The compression function of RFC 1321, and the build's choice between
    the assembly and the Go implementation of the block loop. *)
Variable compress : words -> list byte -> words.
Variable haveAsm : bool.

(** Modelled from the spec: [blockGeneric] (in [md5block.go], not among
    the sources) updates the state vector [d.s] by the compression
    function for every complete block of [p] and touches nothing else. *)
Definition blockGeneric (d : digest) (p : list byte) : digest :=
  mkDigest (blocks compress (s d) p) (x d) (nx d) (len d).

(** Modelled from the spec: the assembly [block] is "an interchangeable,
    behavior-identical substitute" of the generic transform. *)
Definition block (d : digest) (p : list byte) : digest := blockGeneric d p.

(** First statement group of [Write]:
    [if d.nx > 0 { n := copy(d.x[d.nx:], p); d.nx += n;
       if d.nx == BlockSize { block(d, d.x[:]); d.nx = 0 }; p = p[n:] }] *)
Definition Write_fill (d : digest) (p : list byte)
  : outcome (digest * list byte) :=
  if 0 <? nx d then
    dst <- slice_from (x d) (nx d);;
    let '(dst', n) := copy dst p in
    let d := mkDigest (s d) (firstn (Z.to_nat (nx d)) (x d) ++ dst')
                      (nx d + n) (len d) in
    let d := if nx d =? BlockSize
             then let d := if haveAsm then block d (x d)
                           else blockGeneric d (x d) in
                  mkDigest (s d) (x d) 0 (len d)
             else d in
    p <- slice_from p n;;
    Done (d, p)
  else Done (d, p).

(** Second group:
    [if len(p) >= BlockSize { n := len(p) &^ (BlockSize - 1);
       block(d, p[:n]); p = p[n:] }] *)
Definition Write_blocks (d : digest) (p : list byte)
  : outcome (digest * list byte) :=
  if BlockSize <=? lenZ p then
    let n := Z.ldiff (lenZ p) (BlockSize - 1) in
    q <- slice_to p n;;
    let d := if haveAsm then block d q else blockGeneric d q in
    p <- slice_from p n;;
    Done (d, p)
  else Done (d, p).

(** The second group with the block count computed the way the comment
    in [Write] gives as equivalent:
    [n := (len(p) / BlockSize) * BlockSize]. *)
Definition Write_blocks_by_division (d : digest) (p : list byte)
  : outcome (digest * list byte) :=
  if BlockSize <=? lenZ p then
    let n := (lenZ p / BlockSize) * BlockSize in
    q <- slice_to p n;;
    let d := if haveAsm then block d q else blockGeneric d q in
    p <- slice_from p n;;
    Done (d, p)
  else Done (d, p).

(** Third group: [if len(p) > 0 { d.nx = copy(d.x[:], p) }] *)
Definition Write_rest (d : digest) (p : list byte) : digest :=
  if 0 <? lenZ p then
    let '(x', n) := copy (x d) p in
    mkDigest (s d) x' n (len d)
  else d.

(** The result is the receiver after the call and the pair [(nn, err)]. *)
Definition Write (d : digest) (p : list byte)
  : outcome (digest * (Z * option error)) :=
  let nn := lenZ p in
  let d := mkDigest (s d) (x d) (nx d) (uint64 (len d + nn)) in
  '(d, p) <- Write_fill d p;;
  '(d, p) <- Write_blocks d p;;
  let d := Write_rest d p in
  Done (d, (nn, None)).

(** The bytes [tmp[:1+pad+8]] that [checkSum] hands to [Write]. *)
Definition checkSum_padding (d : digest) : outcome (list byte) :=
  let tmp := Byte.x80 :: zeros (63 + 8) in
  let pad := uint64 (55 - len d) mod 64 in
  tmp <- LittleEndian_PutUint64 tmp (1 + pad) (uint64 (Z.shiftl (len d) 3));;
  slice_to tmp (1 + pad + 8).

(** The result is the receiver after the call and the [[Size]byte] value. *)
Definition checkSum (d : digest) : outcome (digest * list byte) :=
  w <- checkSum_padding d;;
  '(d, _) <- Write d w;;
  if negb (nx d =? 0) then Panic "d.nx != 0"
  else
    let digest := zeros 16 in
    let '(w0, w1, w2, w3) := s d in
    digest <- LittleEndian_PutUint32 digest 0 w0;;
    digest <- LittleEndian_PutUint32 digest 4 w1;;
    digest <- LittleEndian_PutUint32 digest 8 w2;;
    digest <- LittleEndian_PutUint32 digest 12 w3;;
    Done (d, digest).

(** [Sum] finalizes the copy [d0 := *d]; the result is the receiver after
    the call and the returned slice. *)
Definition Sum (d : digest) (in_ : list byte) : outcome (digest * list byte) :=
  let d0 := d in
  '(_, hash) <- checkSum d0;;
  Done (d, in_ ++ hash).

(** The package-level [func Sum(data []byte) [Size]byte]. *)
Definition SumData (data : list byte) : outcome (list byte) :=
  let d := Reset (mkDigest (0, 0, 0, 0) (zeros 64) 0 0) in
  '(d, _) <- Write d data;;
  '(_, h) <- checkSum d;;
  Done h.

(** *** Sequences of calls on one instance *)

Inductive call : Type :=
| CallWrite (p : list byte)
| CallReset
| CallSum (in_ : list byte)
| CallMarshal
| CallUnmarshal (b : list byte).

(** The instance after one call; return values are dropped. *)
Definition exec (d : digest) (c : call) : outcome digest :=
  match c with
  | CallWrite p => '(d', _) <- Write d p;; Done d'
  | CallReset => Done (Reset d)
  | CallSum i => '(d', _) <- Sum d i;; Done d'
  | CallMarshal => _ <- MarshalBinary d;; Done d
  | CallUnmarshal b => '(d', _) <- UnmarshalBinary d b;; Done d'
  end.

Fixpoint run (d : digest) (cs : list call) : outcome digest :=
  match cs with
  | [] => Done d
  | c :: cs' => d' <- exec d c;; run d' cs'
  end.

(** Write the chunks in order, then finalize with [Sum(nil)]. *)
Definition digest_of_writes (d : digest) (chunks : list (list byte))
  : outcome (list byte) :=
  d' <- run d (map CallWrite chunks);;
  '(_, h) <- Sum d' [];;
  Done h.

End WithBlock.

(** *** Vocabulary of the statements *)

(** The buffered tail [d.x[:d.nx]], the spec's "used" part of the buffer. *)
Definition pending (d : digest) : list byte := firstn (Z.to_nat (nx d)) (x d).

(** The array [x] has its 64 bytes and the fill count is a valid index
    strictly below the block size. *)
Definition wf (d : digest) : Prop :=
  length (x d) = 64%nat /\ 0 <= nx d < BlockSize.

(** The spec's invariant [fill_len == total_len mod block_size]. *)
Definition consistent (d : digest) : Prop :=
  wf d /\ nx d = len d mod BlockSize /\ 0 <= len d < 2 ^ 64.

Definition is_u32 (z : Z) : Prop := 0 <= z < 2 ^ 32.

Definition u32_words (w : words) : Prop :=
  let '(w0, w1, w2, w3) := w in
  is_u32 w0 /\ is_u32 w1 /\ is_u32 w2 /\ is_u32 w3.

(** The padding of a message of [len] bytes in closed form: terminator,
    zero run, bit length in 8 little-endian bytes. *)
Definition padding (len : Z) : list byte :=
  Byte.x80 :: zeros (Z.to_nat ((55 - len) mod 64)) ++ le64 (uint64 (len * 8)).

(** The state vector as it is laid out in a checkpoint: each word
    big-endian. *)
Definition state_bytes (w : words) : list byte :=
  let '(w0, w1, w2, w3) := w in be32 w0 ++ be32 w1 ++ be32 w2 ++ be32 w3.

(** The checksum bytes of a state vector: each word little-endian. *)
Definition output (w : words) : list byte :=
  let '(w0, w1, w2, w3) := w in le32 w0 ++ le32 w1 ++ le32 w2 ++ le32 w3.

(** A stand-in compression function for closed instances of the
    statements: it rotates the words and mixes in the block's first byte
    and its length. *)
Definition sample_compress (w : words) (b : list byte) : words :=
  let '(w0, w1, w2, w3) := w in
  (w1, w2, w3,
   uint32 (w0 * 31 + byte.unsigned (hd Byte.x00 b) + lenZ b)).

End Md5.


(* ================================================================== *)
(** ** crypto/sha256 *)

Module Sha256.

(** The size of a SHA256 checksum in bytes. *)
Definition Size : Z := 32.

(** The size of a SHA224 checksum in bytes. *)
Definition Size224 : Z := 28.

(** The blocksize of SHA256 and SHA224 in bytes. *)
Definition BlockSize : Z := 64.

Definition chunk : Z := 64.
Definition init0 : Z := 0x6A09E667.
Definition init1 : Z := 0xBB67AE85.
Definition init2 : Z := 0x3C6EF372.
Definition init3 : Z := 0xA54FF53A.
Definition init4 : Z := 0x510E527F.
Definition init5 : Z := 0x9B05688C.
Definition init6 : Z := 0x1F83D9AB.
Definition init7 : Z := 0x5BE0CD19.
Definition init0_224 : Z := 0xC1059ED8.
Definition init1_224 : Z := 0x367CD507.
Definition init2_224 : Z := 0x3070DD17.
Definition init3_224 : Z := 0xF70E5939.
Definition init4_224 : Z := 0xFFC00B31.
Definition init5_224 : Z := 0x68581511.
Definition init6_224 : Z := 0x64F98FA7.
Definition init7_224 : Z := 0xBEFA4FA4.

(** [[8]uint32] *)
Definition words : Type := (Z * Z * Z * Z * Z * Z * Z * Z)%type.

(** [digest] represents the partial evaluation of a checksum. *)
Record digest : Type := mkDigest {
  h : words;        (* h     [8]uint32   *)
  x : list byte;    (* x     [chunk]byte *)
  nx : Z;           (* nx    int         *)
  len : Z;          (* len   uint64      *)
  is224 : bool      (* mark if this digest is SHA-224 *)
}.

(** ["sha\x02"] and ["sha\x03"] *)
Definition magic224 : list byte := [Byte.x73; Byte.x68; Byte.x61; Byte.x02].
Definition magic256 : list byte := [Byte.x73; Byte.x68; Byte.x61; Byte.x03].
Definition marshaledSize : Z := lenZ magic256 + 8 * 4 + chunk + 8.

Definition appendUint64 (b : list byte) (v : Z) : outcome (list byte) :=
  a <- BigEndian_PutUint64 (zeros 8) 0 v;;
  Done (b ++ a).

Definition appendUint32 (b : list byte) (v : Z) : outcome (list byte) :=
  a <- BigEndian_PutUint32 (zeros 4) 0 v;;
  Done (b ++ a).

(** [b = b[:n]] on the slice made by [make([]byte, 0, cap)]; the bytes that
    become visible are "already zero". *)
Definition reslice_fresh (b : list byte) (cap n : Z) : outcome (list byte) :=
  if (0 <=? n) && (n <=? cap)
  then Done (firstn (Z.to_nat n) b ++ zeros (Z.to_nat n - length b))
  else Panic "slice bounds out of range".

Definition MarshalBinary (d : digest) : outcome (list byte * option error) :=
  let b := [] in
  let b := if is224 d then b ++ magic224 else b ++ magic256 in
  let '(h0, h1, h2, h3, h4, h5, h6, h7) := h d in
  b <- appendUint32 b h0;;
  b <- appendUint32 b h1;;
  b <- appendUint32 b h2;;
  b <- appendUint32 b h3;;
  b <- appendUint32 b h4;;
  b <- appendUint32 b h5;;
  b <- appendUint32 b h6;;
  b <- appendUint32 b h7;;
  t <- slice_to (x d) (nx d);;
  let b := b ++ t in
  b <- reslice_fresh b marshaledSize (lenZ b + lenZ (x d) - nx d);;
  b <- appendUint64 b (len d);;
  Done (b, None).

(** [_ = b[7]; x := uint64(b[7]) | uint64(b[6])<<8 | ... | uint64(b[0])<<56;
    return b[8:], x] *)
Definition consumeUint64 (b : list byte) : outcome (list byte * Z) :=
  match b with
  | b0 :: b1 :: b2 :: b3 :: b4 :: b5 :: b6 :: b7 :: _ =>
      let v := Z.lor (Z.lor (Z.lor (Z.lor (Z.lor (Z.lor (Z.lor
                 (byte.unsigned b7)
                 (Z.shiftl (byte.unsigned b6) 8))
                 (Z.shiftl (byte.unsigned b5) 16))
                 (Z.shiftl (byte.unsigned b4) 24))
                 (Z.shiftl (byte.unsigned b3) 32))
                 (Z.shiftl (byte.unsigned b2) 40))
                 (Z.shiftl (byte.unsigned b1) 48))
                 (Z.shiftl (byte.unsigned b0) 56) in
      r <- slice_from b 8;;
      Done (r, v)
  | _ => Panic "index out of range"
  end.

(** [_ = b[3]; x := uint32(b[3]) | uint32(b[2])<<8 | uint32(b[1])<<16 |
    uint32(b[0])<<24; return b[4:], x] *)
Definition consumeUint32 (b : list byte) : outcome (list byte * Z) :=
  match b with
  | b0 :: b1 :: b2 :: b3 :: _ =>
      let v := Z.lor (Z.lor (Z.lor (byte.unsigned b3)
                                   (Z.shiftl (byte.unsigned b2) 8))
                            (Z.shiftl (byte.unsigned b1) 16))
                     (Z.shiftl (byte.unsigned b0) 24) in
      r <- slice_from b 4;;
      Done (r, v)
  | _ => Panic "index out of range"
  end.

Definition errIdentifier : error := "crypto/sha256: invalid hash state identifier"%string.
Definition errSize : error := "crypto/sha256: invalid hash state size"%string.

(** The result pairs the receiver after the call with the returned error.
    The first test is
    [len(b) < len(magic224) || (d.is224 && string(b[:len(magic224)]) != magic224)
       || (!d.is224 && string(b[:len(magic256)]) != magic256)];
    [||] and [&&] evaluate a slice expression only when reached. *)
Definition UnmarshalBinary (d : digest) (b : list byte)
  : outcome (digest * option error) :=
  bad <- (if lenZ b <? lenZ magic224 then Done true
          else
            c1 <- (if is224 d
                   then t <- slice_to b (lenZ magic224);;
                        Done (negb (bytes_eqb t magic224))
                   else Done false);;
            if c1 : bool then Done true
            else if negb (is224 d)
                 then t <- slice_to b (lenZ magic256);;
                      Done (negb (bytes_eqb t magic256))
                 else Done false);;
  if bad : bool then Done (d, Some errIdentifier)
  else if negb (lenZ b =? marshaledSize) then Done (d, Some errSize)
  else
    b <- slice_from b (lenZ magic224);;
    '(b, h0) <- consumeUint32 b;;
    '(b, h1) <- consumeUint32 b;;
    '(b, h2) <- consumeUint32 b;;
    '(b, h3) <- consumeUint32 b;;
    '(b, h4) <- consumeUint32 b;;
    '(b, h5) <- consumeUint32 b;;
    '(b, h6) <- consumeUint32 b;;
    '(b, h7) <- consumeUint32 b;;
    let '(x', n) := copy (x d) b in
    b <- slice_from b n;;
    '(b, l) <- consumeUint64 b;;
    Done (mkDigest (h0, h1, h2, h3, h4, h5, h6, h7) x' (l mod chunk) l
                   (is224 d), None).

Definition Reset (d : digest) : digest :=
  if negb (is224 d)
  then mkDigest (init0, init1, init2, init3, init4, init5, init6, init7)
                (x d) 0 0 (is224 d)
  else mkDigest (init0_224, init1_224, init2_224, init3_224,
                 init4_224, init5_224, init6_224, init7_224)
                (x d) 0 0 (is224 d).

(** [new(digest)]: the zero value. *)
Definition zero_digest : digest :=
  mkDigest (0, 0, 0, 0, 0, 0, 0, 0) (zeros 64) 0 0 false.

Definition New : digest := Reset zero_digest.

Definition New224 : digest :=
  let d := zero_digest in
  Reset (mkDigest (h d) (x d) (nx d) (len d) true).

(** The method [Size]: [if !d.is224 { return Size }; return Size224]; the
    name [Size] is taken by the constant. *)
Definition digest_Size (d : digest) : Z :=
  if negb (is224 d) then Size else Size224.

(** The method [func (d *digest) BlockSize() int { return BlockSize }]. *)
Definition digest_BlockSize (d : digest) : Z := BlockSize.

Section WithBlock.

(** The compression function of FIPS 180-4. *)
Variable compress : words -> list byte -> words.

(** Modelled from the spec: [block] (in [sha256block.go], not among the
    sources) runs the compression function over every complete block of
    [p], whichever implementation the platform selects. *)
Definition block (d : digest) (p : list byte) : digest :=
  mkDigest (blocks compress (h d) p) (x d) (nx d) (len d) (is224 d).

(** First statement group of [Write]:
    [if d.nx > 0 { n := copy(d.x[d.nx:], p); d.nx += n;
       if d.nx == chunk { block(d, d.x[:]); d.nx = 0 }; p = p[n:] }] *)
Definition Write_fill (d : digest) (p : list byte)
  : outcome (digest * list byte) :=
  if 0 <? nx d then
    dst <- slice_from (x d) (nx d);;
    let '(dst', n) := copy dst p in
    let d := mkDigest (h d) (firstn (Z.to_nat (nx d)) (x d) ++ dst')
                      (nx d + n) (len d) (is224 d) in
    let d := if nx d =? chunk
             then let d := block d (x d) in
                  mkDigest (h d) (x d) 0 (len d) (is224 d)
             else d in
    p <- slice_from p n;;
    Done (d, p)
  else Done (d, p).

(** Second group:
    [if len(p) >= chunk { n := len(p) &^ (chunk - 1);
       block(d, p[:n]); p = p[n:] }] *)
Definition Write_blocks (d : digest) (p : list byte)
  : outcome (digest * list byte) :=
  if chunk <=? lenZ p then
    let n := Z.ldiff (lenZ p) (chunk - 1) in
    q <- slice_to p n;;
    let d := block d q in
    p <- slice_from p n;;
    Done (d, p)
  else Done (d, p).

(** The second group with the block count computed the way the comment
    in [Write] derives it: [n = len(p) ^ (len(p) % chunk)]. *)
Definition Write_blocks_by_xor (d : digest) (p : list byte)
  : outcome (digest * list byte) :=
  if chunk <=? lenZ p then
    let n := Z.lxor (lenZ p) (lenZ p mod chunk) in
    q <- slice_to p n;;
    let d := block d q in
    p <- slice_from p n;;
    Done (d, p)
  else Done (d, p).

(** Third group: [if len(p) > 0 { d.nx = copy(d.x[:], p) }] *)
Definition Write_rest (d : digest) (p : list byte) : digest :=
  if 0 <? lenZ p then
    let '(x', n) := copy (x d) p in
    mkDigest (h d) x' n (len d) (is224 d)
  else d.

(** The result is the receiver after the call and the pair [(nn, err)]. *)
Definition Write (d : digest) (p : list byte)
  : outcome (digest * (Z * option error)) :=
  let nn := lenZ p in
  let d := mkDigest (h d) (x d) (nx d) (uint64 (len d + nn)) (is224 d) in
  '(d, p) <- Write_fill d p;;
  '(d, p) <- Write_blocks d p;;
  let d := Write_rest d p in
  Done (d, (nn, None)).

(** [tmp] at the first [Write] of [checkSum]: [var tmp [64]byte; tmp[0] = 0x80]. *)
Definition checkSum_tmp : list byte := Byte.x80 :: zeros 63.

(** The argument of the first [Write] of [checkSum]. *)
Definition checkSum_padding (len : Z) : outcome (list byte) :=
  if len mod 64 <? 56
  then slice_to checkSum_tmp (56 - len mod 64)
  else slice_to checkSum_tmp (64 + 56 - len mod 64).

(** The argument of the second [Write]: [len <<= 3;
    binary.BigEndian.PutUint64(tmp[:], len); tmp[0:8]]. *)
Definition checkSum_length (len : Z) : outcome (list byte) :=
  let len := uint64 (Z.shiftl len 3) in
  tmp <- BigEndian_PutUint64 checkSum_tmp 0 len;;
  slice_to tmp 8.

(** The result is the receiver after the call and the [[Size]byte] value.
    [len := d.len] is read before the first [Write]. *)
Definition checkSum (d : digest) : outcome (digest * list byte) :=
  let len := len d in
  w1 <- checkSum_padding len;;
  '(d, _) <- Write d w1;;
  w2 <- checkSum_length len;;
  '(d, _) <- Write d w2;;
  if negb (nx d =? 0) then Panic "d.nx != 0"
  else
    let digest := zeros 32 in
    let '(h0, h1, h2, h3, h4, h5, h6, h7) := h d in
    digest <- BigEndian_PutUint32 digest 0 h0;;
    digest <- BigEndian_PutUint32 digest 4 h1;;
    digest <- BigEndian_PutUint32 digest 8 h2;;
    digest <- BigEndian_PutUint32 digest 12 h3;;
    digest <- BigEndian_PutUint32 digest 16 h4;;
    digest <- BigEndian_PutUint32 digest 20 h5;;
    digest <- BigEndian_PutUint32 digest 24 h6;;
    digest <- (if negb (is224 d) then BigEndian_PutUint32 digest 28 h7
               else Done digest);;
    Done (d, digest).

(** [Sum] finalizes the copy [d0 := *d]; the result is the receiver after
    the call and the returned slice. *)
Definition Sum (d : digest) (in_ : list byte) : outcome (digest * list byte) :=
  let d0 := d in
  '(d0, hash) <- checkSum d0;;
  if is224 d0
  then t <- slice_to hash Size224;; Done (d, in_ ++ t)
  else Done (d, in_ ++ hash).

(** [Sum256] returns the SHA256 checksum of the data. *)
Definition Sum256 (data : list byte) : outcome (list byte) :=
  let d := Reset zero_digest in
  '(d, _) <- Write d data;;
  '(_, sum) <- checkSum d;;
  Done sum.

(** [Sum224] returns the SHA224 checksum of the data. *)
Definition Sum224 (data : list byte) : outcome (list byte) :=
  let d := zero_digest in
  let d := Reset (mkDigest (h d) (x d) (nx d) (len d) true) in
  '(d, _) <- Write d data;;
  '(_, sum) <- checkSum d;;
  t <- slice_to sum Size224;;
  Done (fst (copy (zeros 28) t)).

(** *** Sequences of calls on one instance *)

Inductive call : Type :=
| CallWrite (p : list byte)
| CallReset
| CallSum (in_ : list byte)
| CallMarshal
| CallUnmarshal (b : list byte).

(** The instance after one call; return values are dropped. *)
Definition exec (d : digest) (c : call) : outcome digest :=
  match c with
  | CallWrite p => '(d', _) <- Write d p;; Done d'
  | CallReset => Done (Reset d)
  | CallSum i => '(d', _) <- Sum d i;; Done d'
  | CallMarshal => _ <- MarshalBinary d;; Done d
  | CallUnmarshal b => '(d', _) <- UnmarshalBinary d b;; Done d'
  end.

Fixpoint run (d : digest) (cs : list call) : outcome digest :=
  match cs with
  | [] => Done d
  | c :: cs' => d' <- exec d c;; run d' cs'
  end.

(** Write the chunks in order, then finalize with [Sum(nil)]. *)
Definition digest_of_writes (d : digest) (chunks : list (list byte))
  : outcome (list byte) :=
  d' <- run d (map CallWrite chunks);;
  '(_, hd) <- Sum d' [];;
  Done hd.

End WithBlock.

(** *** Vocabulary of the statements *)

(** The buffered tail [d.x[:d.nx]], the spec's "used" part of the buffer. *)
Definition pending (d : digest) : list byte := firstn (Z.to_nat (nx d)) (x d).

(** The array [x] has its 64 bytes and the fill count is a valid index
    strictly below the block size. *)
Definition wf (d : digest) : Prop :=
  length (x d) = 64%nat /\ 0 <= nx d < chunk.

(** The spec's invariant [fill_len == total_len mod block_size]. *)
Definition consistent (d : digest) : Prop :=
  wf d /\ nx d = len d mod chunk /\ 0 <= len d < 2 ^ 64.

Definition is_u32 (z : Z) : Prop := 0 <= z < 2 ^ 32.

Definition u32_words (w : words) : Prop :=
  let '(h0, h1, h2, h3, h4, h5, h6, h7) := w in
  is_u32 h0 /\ is_u32 h1 /\ is_u32 h2 /\ is_u32 h3 /\
  is_u32 h4 /\ is_u32 h5 /\ is_u32 h6 /\ is_u32 h7.

(** The magic tag of the receiver's variant. *)
Definition magic_of (d : digest) : list byte :=
  if is224 d then magic224 else magic256.

(** The padding of a message of [len] bytes in closed form: terminator,
    zero run, bit length in 8 big-endian bytes. *)
Definition padding (len : Z) : list byte :=
  Byte.x80 :: zeros (Z.to_nat ((55 - len) mod 64)) ++ be64 (uint64 (len * 8)).

(** The state vector as it is laid out in a checkpoint: each word
    big-endian. *)
Definition state_bytes (w : words) : list byte :=
  let '(h0, h1, h2, h3, h4, h5, h6, h7) := w in
  be32 h0 ++ be32 h1 ++ be32 h2 ++ be32 h3
    ++ be32 h4 ++ be32 h5 ++ be32 h6 ++ be32 h7.

(** The checksum bytes of a state vector: each word big-endian, the
    eighth word left out for SHA-224. *)
Definition output (v224 : bool) (w : words) : list byte :=
  let '(h0, h1, h2, h3, h4, h5, h6, h7) := w in
  be32 h0 ++ be32 h1 ++ be32 h2 ++ be32 h3 ++ be32 h4 ++ be32 h5 ++ be32 h6
    ++ (if v224 then [] else be32 h7).

(** A stand-in compression function for closed instances of the
    statements: it rotates the words and mixes in the block's first byte
    and its length. *)
Definition sample_compress (w : words) (b : list byte) : words :=
  let '(h0, h1, h2, h3, h4, h5, h6, h7) := w in
  (h1, h2, h3, h4, h5, h6, h7,
   uint32 (h0 * 31 + byte.unsigned (hd Byte.x00 b) + lenZ b)).

End Sha256.


(* ================================================================== *)
(** * Properties *)

(** ** Concrete runs *)

Module Examples.

(** The branch boundaries of the padding: total lengths 55, 56 and 63. *)
Example md5_padding_55 :
  Md5.checkSum_padding (Md5.mkDigest (0, 0, 0, 0) (zeros 64) 55 55)
  = Done (Byte.x80 :: le64 440).
Proof. vm_compute. reflexivity. Qed.

Example md5_padding_56 :
  Md5.checkSum_padding (Md5.mkDigest (0, 0, 0, 0) (zeros 64) 56 56)
  = Done (Byte.x80 :: zeros 63 ++ le64 448).
Proof. vm_compute. reflexivity. Qed.

Example md5_padding_63 :
  Md5.checkSum_padding (Md5.mkDigest (0, 0, 0, 0) (zeros 64) 63 63)
  = Done (Byte.x80 :: zeros 56 ++ le64 504).
Proof. vm_compute. reflexivity. Qed.

Example sha_padding_55 :
  Sha256.checkSum_padding 55 = Done [Byte.x80]
  /\ Sha256.checkSum_length 55 = Done (be64 440).
Proof. split; vm_compute; reflexivity. Qed.

Example sha_padding_56 :
  Sha256.checkSum_padding 56 = Done (Byte.x80 :: zeros 63)
  /\ Sha256.checkSum_length 56 = Done (be64 448).
Proof. split; vm_compute; reflexivity. Qed.

Example sha_padding_63 :
  Sha256.checkSum_padding 63 = Done (Byte.x80 :: zeros 56).
Proof. vm_compute. reflexivity. Qed.

(** A 70-byte message written at once and in pieces of 3, 64 and 3
    bytes. *)
Example md5_split_70 :
  Md5.digest_of_writes Md5.sample_compress false Md5.New
    [repeat Byte.x61 3; repeat Byte.x61 64; repeat Byte.x61 3]
  = Md5.digest_of_writes Md5.sample_compress false Md5.New
      [repeat Byte.x61 70].
Proof. vm_compute. reflexivity. Qed.

Example sha224_split_70 :
  Sha256.digest_of_writes Sha256.sample_compress Sha256.New224
    [repeat Byte.x61 3; repeat Byte.x61 64; repeat Byte.x61 3]
  = Sha256.digest_of_writes Sha256.sample_compress Sha256.New224
      [repeat Byte.x61 70].
Proof. vm_compute. reflexivity. Qed.

(** Checksum lengths: 16, 32 and 28 bytes. *)
Example checksum_lengths :
  (exists sum, Md5.digest_of_writes Md5.sample_compress true Md5.New []
               = Done sum /\ lenZ sum = Md5.Size)
  /\ (exists sum, Sha256.digest_of_writes Sha256.sample_compress Sha256.New []
                  = Done sum /\ lenZ sum = Sha256.Size)
  /\ (exists sum, Sha256.digest_of_writes Sha256.sample_compress
                    Sha256.New224 [] = Done sum /\ lenZ sum = Sha256.Size224).
Proof.
  repeat split; eexists; (split; [vm_compute; reflexivity | reflexivity]).
Qed.

(** Imports of an empty blob, of a bare tag and of a blob of the other
    SHA variant. *)
Example md5_import_empty :
  Md5.UnmarshalBinary Md5.New [] = Done (Md5.New, Some Md5.errIdentifier).
Proof. reflexivity. Qed.

Example md5_import_bare_tag :
  Md5.UnmarshalBinary Md5.New Md5.magic = Done (Md5.New, Some Md5.errSize).
Proof. reflexivity. Qed.

Example sha_import_other_variant :
  (blob <- Sha256.MarshalBinary Sha256.New224;;
   Sha256.UnmarshalBinary Sha256.New (fst blob))
  = Done (Sha256.New, Some Sha256.errIdentifier).
Proof. vm_compute. reflexivity. Qed.

End Examples.

(** ** Slices and [copy] *)

Module RtFacts.

Lemma bytes_eqb_eq (a b : list byte) : bytes_eqb a b = true <-> a = b.
Proof.
  revert b; induction a as [|c a IH]; intros [|e b]; simpl; split; intro H;
    try reflexivity; try discriminate.
  - apply andb_true_iff in H as [H1 H2]. apply Byte.byte_dec_bl in H1.
    apply IH in H2. congruence.
  - inversion H; subst. apply andb_true_iff; split.
    + apply Byte.byte_dec_lb; reflexivity.
    + apply IH; reflexivity.
Qed.

Lemma slice_from_ok {A} (l : list A) (lo : Z) :
  0 <= lo <= lenZ l -> slice_from l lo = Done (skipn (Z.to_nat lo) l).
Proof.
  intros H. unfold slice_from.
  replace ((0 <=? lo) && (lo <=? lenZ l)) with true; [reflexivity|].
  symmetry; apply andb_true_iff; split; apply Z.leb_le; lia.
Qed.

Lemma slice_to_ok {A} (l : list A) (hi : Z) :
  0 <= hi <= lenZ l -> slice_to l hi = Done (firstn (Z.to_nat hi) l).
Proof.
  intros H. unfold slice_to.
  replace ((0 <=? hi) && (hi <=? lenZ l)) with true; [reflexivity|].
  symmetry; apply andb_true_iff; split; apply Z.leb_le; lia.
Qed.

Lemma store_ok (b : list byte) (off : Z) (bs : list byte) :
  0 <= off -> off + lenZ bs <= lenZ b ->
  store b off bs =
    Done (firstn (Z.to_nat off) b ++ bs ++ skipn (Z.to_nat off + length bs) b).
Proof.
  intros H1 H2. unfold store.
  replace ((0 <=? off) && (off + lenZ bs <=? lenZ b)) with true; [reflexivity|].
  symmetry; apply andb_true_iff; split; apply Z.leb_le; lia.
Qed.

Lemma length_zeros n : length (zeros n) = n.
Proof. apply repeat_length. Qed.

Lemma ldiff_63 (n : Z) : 0 <= n -> Z.ldiff n 63 = 64 * (n / 64).
Proof.
  intros Hn. change 63 with (Z.ones 6).
  rewrite Z.ldiff_ones_r by lia.
  rewrite Z.shiftr_div_pow2, Z.shiftl_mul_pow2 by lia.
  change (2 ^ 6) with 64. lia.
Qed.

Lemma store_at (a old c new : list byte) :
  length old = length new ->
  store (a ++ old ++ c) (lenZ a) new = Done (a ++ new ++ c).
Proof.
  intros Hl. unfold lenZ. rewrite store_ok.
  - rewrite Nat2Z.id. rewrite firstn_app, firstn_all, Nat.sub_diag, firstn_O, app_nil_r.
    replace (skipn (length a + length new) (a ++ old ++ c)) with c; [reflexivity|].
    rewrite <- Hl, <- length_app, app_assoc.
    rewrite skipn_app, skipn_all, Nat.sub_diag. reflexivity.
  - lia.
  - unfold lenZ. rewrite !length_app. lia.
Qed.

Lemma firstn_zeros (k n : nat) : (k <= n)%nat -> firstn k (zeros n) = zeros k.
Proof.
  revert n; induction k as [|k IH]; intros [|n] H; try reflexivity; try lia.
  cbn [zeros repeat firstn]. f_equal. apply IH. lia.
Qed.

Lemma uint64_mod64 (z : Z) : uint64 z mod 64 = z mod 64.
Proof.
  unfold uint64. apply Z.mod_mod_divide. exists (2 ^ 58). reflexivity.
Qed.

Lemma uint64_range (z : Z) : 0 <= uint64 z < 2 ^ 64.
Proof. apply Z.mod_pos_bound. lia. Qed.

Lemma shiftl3 (z : Z) : Z.shiftl z 3 = z * 8.
Proof. rewrite Z.shiftl_mul_pow2 by lia. reflexivity. Qed.

Lemma uint32_small (z : Z) : 0 <= z < 2 ^ 32 -> uint32 z = z.
Proof. intros H. apply Z.mod_small, H. Qed.

Lemma uint64_small (z : Z) : 0 <= z < 2 ^ 64 -> uint64 z = z.
Proof. intros H. apply Z.mod_small, H. Qed.

Lemma Done_inj {A} (a b : A) : Done a = Done b -> a = b.
Proof. intros H. congruence. Qed.

Lemma to_nat_full (L : nat) :
  Z.to_nat (64 * (Z.of_nat L / 64)) = (64 * (L / 64))%nat.
Proof.
  change 64 with (Z.of_nat 64).
  rewrite <- Nat2Z.inj_div, <- Nat2Z.inj_mul. apply Nat2Z.id.
Qed.

Lemma firstn_app_exact {A} (n : nat) (a b : list A) :
  length a = n -> firstn n (a ++ b) = a.
Proof.
  intros <-. rewrite firstn_app, firstn_all, Nat.sub_diag, firstn_O.
  apply app_nil_r.
Qed.

Lemma skipn_app_exact {A} (n : nat) (a b : list A) :
  length a = n -> skipn n (a ++ b) = b.
Proof.
  intros <-. rewrite skipn_app, skipn_all, Nat.sub_diag. reflexivity.
Qed.

Lemma pad_reaches_56 (l : Z) : (l + 1 + (55 - l) mod 64) mod 64 = 56.
Proof.
  replace (l + 1 + (55 - l) mod 64) with ((55 - l) mod 64 + (l + 1)) by lia.
  rewrite Zplus_mod_idemp_l.
  replace (55 - l + (l + 1)) with 56 by lia. reflexivity.
Qed.

Lemma uint64_idem (z : Z) : uint64 (uint64 z) = uint64 z.
Proof. unfold uint64. apply Z.mod_mod. lia. Qed.

Lemma uint64_low61 (l : Z) : uint64 (l * 8) = 8 * (l mod 2 ^ 61).
Proof.
  unfold uint64. change (2 ^ 64) with (2 ^ 61 * 8).
  rewrite Zmult_mod_distr_r. lia.
Qed.

End RtFacts.

(** ** Byte orders *)

Module BinaryFacts.

Lemma byte_of_Z_mod (v : Z) : byte.unsigned (byte.of_Z v) = v mod 256.
Proof. rewrite byte.unsigned_of_Z. reflexivity. Qed.

Lemma split_low_byte (v k : Z) : 0 <= k ->
  v mod 2 ^ (k + 8) = 256 * (Z.shiftr v 8 mod 2 ^ k) + v mod 256.
Proof.
  intros Hk. rewrite Z.shiftr_div_pow2 by lia. change (2 ^ 8) with 256.
  rewrite Z.pow_add_r by lia. change (2 ^ 8) with 256.
  rewrite (Z.mul_comm (2 ^ k) 256).
  rewrite Z.rem_mul_r by lia. lia.
Qed.

Lemma lor_shiftl_add (acc b k : Z) : 0 <= k -> 0 <= acc < 2 ^ k ->
  Z.lor acc (Z.shiftl b k) = acc + b * 2 ^ k.
Proof.
  intros Hk Hacc.
  assert (E : Z.land acc (Z.shiftl b k) = 0).
  { apply Z.bits_inj'. intros n Hn. rewrite Z.land_spec, Z.bits_0.
    destruct (Z.lt_ge_cases n k) as [Hlt|Hge].
    - rewrite Z.shiftl_spec_low by lia. apply andb_false_r.
    - rewrite <- (Z.mod_small acc (2 ^ k)) by lia.
      rewrite Z.mod_pow2_bits_high by lia. reflexivity. }
  rewrite <- Z.lxor_lor by exact E.
  rewrite <- Z.add_nocarry_lxor by exact E.
  rewrite Z.shiftl_mul_pow2 by lia. reflexivity.
Qed.

Lemma be_value_be32 (v : Z) : be_value (be32 v) = uint32 v.
Proof.
  unfold be_value, be32, uint32; cbn [fold_left].
  rewrite !byte_of_Z_mod.
  change (2 ^ 32) with (2 ^ (24 + 8)). rewrite split_low_byte by lia.
  change (2 ^ 24) with (2 ^ (16 + 8)). rewrite split_low_byte by lia.
  change (2 ^ 16) with (2 ^ (8 + 8)). rewrite split_low_byte by lia.
  rewrite !Z.shiftr_shiftr by lia. change (2 ^ 8) with 256.
  reflexivity.
Qed.

Lemma be_value_be64 (v : Z) : be_value (be64 v) = uint64 v.
Proof.
  unfold be_value, be64, uint64; cbn [fold_left].
  rewrite !byte_of_Z_mod.
  change (2 ^ 64) with (2 ^ (56 + 8)). rewrite split_low_byte by lia.
  change (2 ^ 56) with (2 ^ (48 + 8)). rewrite split_low_byte by lia.
  change (2 ^ 48) with (2 ^ (40 + 8)). rewrite split_low_byte by lia.
  change (2 ^ 40) with (2 ^ (32 + 8)). rewrite split_low_byte by lia.
  change (2 ^ 32) with (2 ^ (24 + 8)). rewrite split_low_byte by lia.
  change (2 ^ 24) with (2 ^ (16 + 8)). rewrite split_low_byte by lia.
  change (2 ^ 16) with (2 ^ (8 + 8)). rewrite split_low_byte by lia.
  rewrite !Z.shiftr_shiftr by lia. change (2 ^ 8) with 256.
  reflexivity.
Qed.

Lemma le_value_le32 (v : Z) : le_value (le32 v) = uint32 v.
Proof. exact (be_value_be32 v). Qed.

Lemma le_value_le64 (v : Z) : le_value (le64 v) = uint64 v.
Proof. exact (be_value_be64 v). Qed.

(** Powers of two that occur as byte positions, as numerals for [lia]. *)
Ltac byte_powers :=
  change (2 ^ 8) with 256 in *; change (2 ^ 16) with 65536 in *;
  change (2 ^ 24) with 16777216 in *; change (2 ^ 32) with 4294967296 in *;
  change (2 ^ 40) with 1099511627776 in *;
  change (2 ^ 48) with 281474976710656 in *;
  change (2 ^ 56) with 72057594037927936 in *;
  change (2 ^ 64) with 18446744073709551616 in *.

Lemma Uint32_be_value (b0 b1 b2 b3 : byte) (r : list byte) :
  BigEndian_Uint32 (b0 :: b1 :: b2 :: b3 :: r) = Done (be_value [b0; b1; b2; b3]).
Proof.
  unfold BigEndian_Uint32, be_value; cbn [fold_left]. f_equal.
  pose proof (byte.unsigned_range b0). pose proof (byte.unsigned_range b1).
  pose proof (byte.unsigned_range b2). pose proof (byte.unsigned_range b3).
  rewrite (lor_shiftl_add _ _ 8) by (byte_powers; lia).
  rewrite (lor_shiftl_add _ _ 16) by (byte_powers; lia).
  rewrite (lor_shiftl_add _ _ 24) by (byte_powers; lia).
  byte_powers. lia.
Qed.

Lemma be_value_range4 (a b c e : byte) :
  0 <= be_value [a; b; c; e] < 2 ^ 32.
Proof.
  unfold be_value; cbn [fold_left].
  pose proof (byte.unsigned_range a). pose proof (byte.unsigned_range b).
  pose proof (byte.unsigned_range c). pose proof (byte.unsigned_range e).
  byte_powers. lia.
Qed.

Lemma be_value_range8 (a b c e f g i j : byte) :
  0 <= be_value [a; b; c; e; f; g; i; j] < 2 ^ 64.
Proof.
  unfold be_value; cbn [fold_left].
  pose proof (byte.unsigned_range a). pose proof (byte.unsigned_range b).
  pose proof (byte.unsigned_range c). pose proof (byte.unsigned_range e).
  pose proof (byte.unsigned_range f). pose proof (byte.unsigned_range g).
  pose proof (byte.unsigned_range i). pose proof (byte.unsigned_range j).
  byte_powers. lia.
Qed.

Lemma Uint64_be_value (b0 b1 b2 b3 b4 b5 b6 b7 : byte) (r : list byte) :
  BigEndian_Uint64 (b0 :: b1 :: b2 :: b3 :: b4 :: b5 :: b6 :: b7 :: r)
  = Done (be_value [b0; b1; b2; b3; b4; b5; b6; b7]).
Proof.
  unfold BigEndian_Uint64, be_value; cbn [fold_left]. f_equal.
  pose proof (byte.unsigned_range b0). pose proof (byte.unsigned_range b1).
  pose proof (byte.unsigned_range b2). pose proof (byte.unsigned_range b3).
  pose proof (byte.unsigned_range b4). pose proof (byte.unsigned_range b5).
  pose proof (byte.unsigned_range b6). pose proof (byte.unsigned_range b7).
  rewrite (lor_shiftl_add _ _ 8) by (byte_powers; lia).
  rewrite (lor_shiftl_add _ _ 16) by (byte_powers; lia).
  rewrite (lor_shiftl_add _ _ 24) by (byte_powers; lia).
  rewrite (lor_shiftl_add _ _ 32) by (byte_powers; lia).
  rewrite (lor_shiftl_add _ _ 40) by (byte_powers; lia).
  rewrite (lor_shiftl_add _ _ 48) by (byte_powers; lia).
  rewrite (lor_shiftl_add _ _ 56) by (byte_powers; lia).
  byte_powers. lia.
Qed.

End BinaryFacts.

(** ** The compression loop over whole blocks *)

Module BlockFacts.
Section Facts.

Context {V : Type} (compress : V -> list byte -> V).

Lemma block_loop_fuel (f1 f2 : nat) : forall (v : V) (p : list byte),
  (length p <= f1)%nat -> (length p <= f2)%nat ->
  block_loop compress f1 v p = block_loop compress f2 v p.
Proof.
  revert f2; induction f1 as [|f1 IH]; intros [|f2] v p H1 H2; cbn [block_loop];
    try reflexivity.
  - destruct (Nat.leb_spec 64 (length p)); [lia | reflexivity].
  - destruct (Nat.leb_spec 64 (length p)); [lia | reflexivity].
  - destruct (Nat.leb_spec 64 (length p)); [| reflexivity].
    apply IH; rewrite length_skipn; lia.
Qed.

Lemma blocks_short (v : V) (p : list byte) :
  (length p < 64)%nat -> blocks compress v p = v.
Proof.
  intros H. unfold blocks. destruct (length p) eqn:E; cbn [block_loop]; [reflexivity|].
  rewrite E. destruct (Nat.leb_spec 64 (S n)); [lia | reflexivity].
Qed.

Lemma blocks_step (v : V) (p : list byte) :
  (64 <= length p)%nat ->
  blocks compress v p = blocks compress (compress v (firstn 64 p)) (skipn 64 p).
Proof.
  intros H. unfold blocks. destruct (length p) eqn:E; [lia|].
  cbn [block_loop]. rewrite E.
  destruct (Nat.leb_spec 64 (S n)); [| lia].
  apply block_loop_fuel; rewrite length_skipn; lia.
Qed.

Lemma blocks_app (k : nat) : forall (a b : list byte) (v : V),
  length a = (64 * k)%nat ->
  blocks compress v (a ++ b) = blocks compress (blocks compress v a) b.
Proof.
  induction k as [|k IH]; intros a b v Ha.
  - destruct a; [| cbn [length] in Ha; lia]. cbn [app]. rewrite (blocks_short v []) by (cbn [length]; lia).
    reflexivity.
  - rewrite (blocks_step v (a ++ b)) by (rewrite length_app; lia).
    rewrite (blocks_step v a) by lia.
    rewrite firstn_app, skipn_app.
    replace (64 - length a)%nat with 0%nat by lia.
    rewrite firstn_O, skipn_O, app_nil_r.
    apply IH. rewrite length_skipn. lia.
Qed.

Lemma rest_length (l : list byte) : length (rest l) = (length l mod 64)%nat.
Proof.
  unfold rest. rewrite length_skipn.
  pose proof (Nat.div_mod_eq (length l) 64). lia.
Qed.

Lemma rest_short (l : list byte) : (length l < 64)%nat -> rest l = l.
Proof.
  intros H. unfold rest. rewrite Nat.div_small by lia. reflexivity.
Qed.

Lemma rest_lt (l : list byte) : (length (rest l) < 64)%nat.
Proof. rewrite rest_length. apply Nat.mod_upper_bound. lia. Qed.

Lemma full_rest (l : list byte) :
  l = firstn (64 * (length l / 64)) l ++ rest l.
Proof. unfold rest. symmetry. apply firstn_skipn. Qed.

Lemma length_full (l : list byte) :
  length (firstn (64 * (length l / 64)) l) = (64 * (length l / 64))%nat.
Proof.
  rewrite length_firstn. pose proof (Nat.div_mod_eq (length l) 64). lia.
Qed.

Lemma rest_app_full (k : nat) (a m : list byte) :
  length a = (64 * k)%nat -> rest (a ++ m) = rest m.
Proof.
  intros Ha. unfold rest. rewrite length_app, Ha.
  replace (64 * k + length m)%nat with (length m + k * 64)%nat by lia.
  rewrite Nat.div_add by lia.
  rewrite skipn_app.
  replace (64 * (length m / 64 + k) - length a)%nat
    with (64 * (length m / 64))%nat by lia.
  rewrite skipn_all2 by lia. reflexivity.
Qed.

Lemma blocks_full (v : V) (l : list byte) :
  blocks compress v (firstn (64 * (length l / 64)) l) = blocks compress v l.
Proof.
  transitivity (blocks compress v (firstn (64 * (length l / 64)) l ++ rest l));
    [| rewrite <- full_rest; reflexivity].
  rewrite (blocks_app (length l / 64)) by apply length_full.
  rewrite (blocks_short _ (rest l)) by apply rest_lt. reflexivity.
Qed.

Lemma rest_app (a b : list byte) : rest (rest a ++ b) = rest (a ++ b).
Proof.
  replace (a ++ b) with (firstn (64 * (length a / 64)) a ++ (rest a ++ b))
    by (rewrite app_assoc, <- full_rest; reflexivity).
  symmetry. apply (rest_app_full (length a / 64)), length_full.
Qed.

Lemma blocks_rest (v : V) (a b : list byte) :
  blocks compress (blocks compress v a) (rest a ++ b) = blocks compress v (a ++ b).
Proof.
  replace (a ++ b) with (firstn (64 * (length a / 64)) a ++ (rest a ++ b))
    by (rewrite app_assoc, <- full_rest; reflexivity).
  rewrite (blocks_app (length a / 64) (firstn (64 * (length a / 64)) a))
    by apply length_full.
  rewrite blocks_full. reflexivity.
Qed.

Lemma blocks_preserves (P : V -> Prop) :
  (forall v b, P v -> P (compress v b)) ->
  forall p v, P v -> P (blocks compress v p).
Proof.
  intros Hc p. unfold blocks. generalize (length p) as fuel.
  intros fuel; revert p; induction fuel as [|fuel IH]; intros p v Hv;
    cbn [block_loop]; [exact Hv|].
  destruct (64 <=? length p)%nat; [| exact Hv].
  apply IH, Hc, Hv.
Qed.

End Facts.
End BlockFacts.

(** ** crypto/md5: the engine *)

Ltac splits := repeat match goal with |- _ /\ _ => split end.

Module Md5Facts.
Import RtFacts BinaryFacts BlockFacts.
Import Md5.
Section Facts.

Variable compress : words -> list byte -> words.
Variable haveAsm : bool.

Lemma md5_pending_length (d : digest) : wf d -> length (pending d) = Z.to_nat (nx d).
Proof.
  intros [Hx Hn]. unfold pending, BlockSize in *. rewrite length_firstn. lia.
Qed.

Lemma md5_block_choice (d : digest) (q : list byte) :
  (if haveAsm then block compress d q else blockGeneric compress d q)
  = mkDigest (blocks compress (s d) q) (x d) (nx d) (len d).
Proof. destruct haveAsm; reflexivity. Qed.

(** The buffer is topped up: either the input is used up, or the buffer
    became a complete block, was compressed, and is empty again. *)
Lemma md5_Write_fill_spec (d : digest) (p : list byte) :
  wf d ->
  exists d1 p1,
    Write_fill compress haveAsm d p = Done (d1, p1) /\
    wf d1 /\ len d1 = len d /\
    (p1 = [] \/ nx d1 = 0) /\
    blocks compress (s d1) (pending d1 ++ p1)
      = blocks compress (s d) (pending d ++ p) /\
    rest (pending d1 ++ p1) = rest (pending d ++ p).
Proof.
  intros Hwf. pose proof Hwf as [Hx Hn]. unfold BlockSize in Hn.
  unfold Write_fill. destruct (Z.ltb_spec 0 (nx d)) as [Hpos|Hzero].
  2:{ exists d, p. splits; auto. right; lia. }
  rewrite slice_from_ok by (unfold lenZ; lia). cbn [bind].
  unfold copy. cbn [nx s x len].
  rewrite md5_block_choice. cbn [nx s x len].
  rewrite slice_from_ok by (unfold lenZ; lia). cbn [bind].
  rewrite Nat2Z.id.
  pose proof (md5_pending_length d Hwf) as HP.
  assert (HT : length (skipn (Z.to_nat (nx d)) (x d)) = (64 - Z.to_nat (nx d))%nat)
    by (rewrite length_skipn; lia).
  unfold pending in *.
  set (P := firstn (Z.to_nat (nx d)) (x d)) in *.
  set (T := skipn (Z.to_nat (nx d)) (x d)) in *.
  clearbody P T. rewrite HT.
  remember (Nat.min (64 - Z.to_nat (nx d)) (length p)) as n eqn:En.
  destruct (Z.eqb_spec (nx d + Z.of_nat n) BlockSize) as [Hfull|Hpart];
    unfold BlockSize in *.
  - (* the buffer is complete *)
    assert (Hn64 : n = (64 - length P)%nat) by lia.
    assert (Hbuf : P ++ firstn n p ++ skipn n T = firstn 64 (P ++ p)).
    { rewrite skipn_all2 by lia. rewrite app_nil_r.
      rewrite firstn_app, (firstn_all2 (n:=64) P) by lia. rewrite Hn64. reflexivity. }
    rewrite Hbuf.
    assert (Hskip : skipn n p = skipn 64 (P ++ p)).
    { rewrite skipn_app, (skipn_all2 (n:=64) P) by lia. rewrite Hn64. reflexivity. }
    rewrite Hskip.
    assert (Hl64 : length (firstn 64 (P ++ p)) = 64%nat).
    { rewrite length_firstn, length_app. lia. }
    eexists _, _. split; [reflexivity|]. unfold wf, BlockSize.
    cbn [nx s x len Z.to_nat]. rewrite ?firstn_O. cbn [app].
    splits.
    + exact Hl64.
    + lia.
    + lia.
    + reflexivity.
    + right; reflexivity.
    + rewrite <- (blocks_app compress 1) by exact Hl64.
      rewrite firstn_skipn. reflexivity.
    + rewrite <- (firstn_skipn 64 (P ++ p)) at 2.
      symmetry. apply (rest_app_full 1). exact Hl64.
  - (* the input is used up *)
    assert (Hn' : n = length p) by lia.
    eexists _, _. split; [reflexivity|]. unfold wf, BlockSize. cbn [nx s x len].
    assert (Hp : firstn (Z.to_nat (nx d + Z.of_nat n)) (P ++ firstn n p ++ skipn n T)
                 = P ++ p).
    { replace (Z.to_nat (nx d + Z.of_nat n)) with (length (P ++ p))
        by (rewrite length_app; lia).
      rewrite Hn', firstn_all, app_assoc.
      rewrite firstn_app, firstn_all, Nat.sub_diag, firstn_O. apply app_nil_r. }
    rewrite Hp, Hn', skipn_all, app_nil_r.
    splits.
    + rewrite !length_app, length_firstn, !length_skipn. lia.
    + lia.
    + lia.
    + reflexivity.
    + left. reflexivity.
    + reflexivity.
    + reflexivity.
Qed.

Lemma md5_Write_blocks_eq (d : digest) (p : list byte) :
  Write_blocks compress haveAsm d p
  = Done (mkDigest (blocks compress (s d) p) (x d) (nx d) (len d), rest p).
Proof.
  unfold Write_blocks, BlockSize, lenZ.
  destruct (Z.leb_spec 64 (Z.of_nat (length p))) as [Hge|Hlt].
  - change (64 - 1) with 63. rewrite ldiff_63 by lia.
    assert (Hb : 0 <= 64 * (Z.of_nat (length p) / 64) <= Z.of_nat (length p)).
    { pose proof (Z.mul_div_le (Z.of_nat (length p)) 64).
      pose proof (Z.div_pos (Z.of_nat (length p)) 64). lia. }
    rewrite slice_to_ok by exact Hb. cbn [bind].
    rewrite md5_block_choice.
    rewrite slice_from_ok by exact Hb. cbn [bind].
    rewrite to_nat_full, blocks_full. reflexivity.
  - rewrite blocks_short, rest_short by lia. destruct d; reflexivity.
Qed.

Lemma md5_Write_rest_spec (d : digest) (p : list byte) :
  length (x d) = 64%nat -> (length p < 64)%nat -> (p = [] \/ nx d = 0) ->
  let d' := Write_rest d p in
  s d' = s d /\ len d' = len d /\ length (x d') = 64%nat /\
  nx d' = nx d + lenZ p /\ pending d' = pending d ++ p.
Proof.
  intros Hx Hp Hor. unfold Write_rest, lenZ.
  destruct (Z.ltb_spec 0 (Z.of_nat (length p))) as [Hpos|Hnil].
  - destruct Hor as [-> | Hz]; [cbn [length] in Hpos; lia|].
    unfold copy. rewrite Hx, Nat.min_r by lia. rewrite firstn_all.
    unfold pending. cbn [s x nx len]. rewrite Hz. cbn [Z.to_nat]. rewrite firstn_O.
    cbn [app]. rewrite Nat2Z.id. splits; try reflexivity.
    + rewrite length_app, length_skipn. lia.
    + rewrite firstn_app, firstn_all, Nat.sub_diag, firstn_O. apply app_nil_r.
  - destruct p; [| cbn [length] in Hnil; lia].
    rewrite app_nil_r. cbn [length]. splits; auto. lia.
Qed.

(** [Write] as a transformer of the caller-visible content: the state
    vector absorbs every complete block of (buffered tail ++ input), the
    remainder is buffered, the length grows by the input's length. *)
Lemma md5_Write_spec (d : digest) (p : list byte) :
  wf d ->
  exists d',
    Write compress haveAsm d p = Done (d', (lenZ p, None)) /\
    wf d' /\
    s d' = blocks compress (s d) (pending d ++ p) /\
    pending d' = rest (pending d ++ p) /\
    len d' = uint64 (len d + lenZ p).
Proof.
  intros Hwf. unfold Write.
  set (d0 := mkDigest (s d) (x d) (nx d) (uint64 (len d + lenZ p))).
  assert (Hwf0 : wf d0) by exact Hwf.
  destruct (md5_Write_fill_spec d0 p Hwf0) as (d1 & p1 & E1 & Hwf1 & Hl1 & Hor & Hb & Hr).
  rewrite E1. cbn [bind]. rewrite md5_Write_blocks_eq. cbn [bind].
  set (d2 := mkDigest (blocks compress (s d1) p1) (x d1) (nx d1) (len d1)).
  destruct Hwf1 as [Hx1 Hn1]. unfold BlockSize in Hn1.
  assert (Hor2 : rest p1 = [] \/ nx d2 = 0).
  { destruct Hor as [-> | Hz]; [left; reflexivity | right; exact Hz]. }
  destruct (md5_Write_rest_spec d2 (rest p1) Hx1 (rest_lt p1) Hor2)
    as (Hs & Hl & Hx3 & Hnx & Hp).
  exists (Write_rest d2 (rest p1)). split; [reflexivity|].
  assert (Hpend1 : length (pending d1) = Z.to_nat (nx d1))
    by (apply md5_pending_length; split; [exact Hx1 | exact Hn1]).
  change (pending d0) with (pending d) in *. change (s d0) with (s d) in *.
  assert (Hfin : blocks compress (s d1) p1 = blocks compress (s d) (pending d ++ p)
                 /\ pending d1 ++ rest p1 = rest (pending d ++ p)).
  { rewrite <- Hb, <- Hr. destruct Hor as [-> | Hz].
    - change (rest (@nil byte)) with (@nil byte). rewrite !app_nil_r.
      rewrite (blocks_short compress (s d1) []) by (cbn [length]; lia).
      rewrite (blocks_short compress (s d1) (pending d1)) by lia.
      rewrite (rest_short (pending d1)) by lia.
      split; reflexivity.
    - unfold pending. rewrite Hz. cbn [Z.to_nat]. rewrite firstn_O. cbn [app].
      split; reflexivity. }
  destruct Hfin as [Hfs Hfp].
  unfold wf. splits.
  - exact Hx3.
  - rewrite Hnx. unfold lenZ. cbn [nx d2]. lia.
  - rewrite Hnx. unfold lenZ, BlockSize. cbn [nx d2].
    destruct Hor as [-> | Hz]; [cbn [rest length] | ].
    + change (rest []) with (@nil byte). cbn [length]. lia.
    + pose proof (rest_lt p1). lia.
  - rewrite Hs. exact Hfs.
  - rewrite Hp. exact Hfp.
  - rewrite Hl. cbn [len d2]. rewrite Hl1. reflexivity.
Qed.

Lemma md5_checkSum_padding_eq (d : digest) :
  checkSum_padding d = Done (padding (len d)).
Proof.
  unfold checkSum_padding, padding.
  rewrite uint64_mod64, shiftl3.
  set (v := uint64 (len d * 8)).
  pose proof (Z.mod_pos_bound (55 - len d) 64 ltac:(lia)) as Hpad.
  set (pad := (55 - len d) mod 64) in *.
  change (63 + 8)%nat with 71%nat.
  assert (Htmp : Byte.x80 :: zeros 71
                 = (Byte.x80 :: zeros (Z.to_nat pad)) ++ zeros 8
                     ++ zeros (63 - Z.to_nat pad)).
  { cbn [app]. f_equal. unfold zeros. rewrite <- !repeat_app. f_equal. lia. }
  rewrite Htmp.
  replace (1 + pad) with (lenZ (Byte.x80 :: zeros (Z.to_nat pad)))
    by (unfold lenZ; cbn [length]; rewrite length_zeros; lia).
  unfold LittleEndian_PutUint64. rewrite store_at by reflexivity. cbn [bind].
  rewrite slice_to_ok.
  - replace (Z.to_nat (lenZ (Byte.x80 :: zeros (Z.to_nat pad)) + 8))
      with (length ((Byte.x80 :: zeros (Z.to_nat pad)) ++ le64 v)).
    + rewrite app_assoc, firstn_app, firstn_all, Nat.sub_diag, firstn_O, app_nil_r.
      reflexivity.
    + unfold lenZ, le64. rewrite length_app. cbn [length]. lia.
  - unfold lenZ, le64. rewrite !length_app. cbn [length]. rewrite !length_zeros. lia.
Qed.

Lemma md5_padding_length (l : Z) :
  lenZ (padding l) = 1 + (55 - l) mod 64 + 8.
Proof.
  pose proof (Z.mod_pos_bound (55 - l) 64 ltac:(lia)).
  unfold padding, lenZ. cbn [length]. rewrite length_app, length_zeros.
  cbn [length le64]. lia.
Qed.

Lemma md5_padding_total (l : Z) : (l + lenZ (padding l)) mod 64 = 0.
Proof.
  rewrite md5_padding_length.
  replace (l + (1 + (55 - l) mod 64 + 8)) with ((55 - l) mod 64 + (l + 9)) by lia.
  rewrite Zplus_mod_idemp_l.
  replace (55 - l + (l + 9)) with (1 * 64) by lia. apply Z_mod_mult.
Qed.

Lemma md5_output_bind {A} (w : words) (k : list byte -> outcome A) :
  (let digest := zeros 16 in
   let '(w0, w1, w2, w3) := w in
   digest <- LittleEndian_PutUint32 digest 0 w0;;
   digest <- LittleEndian_PutUint32 digest 4 w1;;
   digest <- LittleEndian_PutUint32 digest 8 w2;;
   digest <- LittleEndian_PutUint32 digest 12 w3;;
   k digest) = k (output w).
Proof.
  destruct w as [[[w0 w1] w2] w3]. unfold LittleEndian_PutUint32, output.
  cbv zeta.
  change (zeros 16) with ([] ++ zeros 4 ++ zeros 12).
  change 0 with (lenZ (@nil byte)).
  rewrite store_at by reflexivity. cbn [bind].
  change ([] ++ le32 w0 ++ zeros 12) with (le32 w0 ++ zeros 4 ++ zeros 8).
  change 4 with (lenZ (le32 w0)).
  rewrite store_at by reflexivity. cbn [bind].
  change (le32 w0 ++ le32 w1 ++ zeros 8)
    with ((le32 w0 ++ le32 w1) ++ zeros 4 ++ zeros 4).
  change 8 with (lenZ (le32 w0 ++ le32 w1)).
  rewrite store_at by reflexivity. cbn [bind].
  change ((le32 w0 ++ le32 w1) ++ le32 w2 ++ zeros 4)
    with ((le32 w0 ++ le32 w1 ++ le32 w2) ++ zeros 4 ++ []).
  change 12 with (lenZ (le32 w0 ++ le32 w1 ++ le32 w2)).
  rewrite store_at by reflexivity. cbn [bind].
  rewrite app_nil_r, <- !app_assoc. reflexivity.
Qed.

Lemma md5_Write_consistent (d : digest) (p : list byte) :
  consistent d ->
  exists d',
    Write compress haveAsm d p = Done (d', (lenZ p, None)) /\
    consistent d' /\
    s d' = blocks compress (s d) (pending d ++ p) /\
    pending d' = rest (pending d ++ p) /\
    len d' = uint64 (len d + lenZ p).
Proof.
  intros (Hwf & Hnx & Hlen).
  destruct (md5_Write_spec d p Hwf) as (d' & E & Hwf' & Hs & Hp & Hl).
  exists d'. splits; auto.
  unfold consistent. splits; auto.
  - pose proof (md5_pending_length d' Hwf') as Hpl.
    rewrite Hp, rest_length, length_app, (md5_pending_length d Hwf) in Hpl.
    destruct Hwf as [_ Hn], Hwf' as [_ Hn']. unfold BlockSize in *.
    rewrite Hl, uint64_mod64.
    apply (f_equal Z.of_nat) in Hpl.
    rewrite Nat2Z.inj_mod, Nat2Z.inj_add, !Z2Nat.id in Hpl by lia.
    change (Z.of_nat 64) with 64 in Hpl. unfold lenZ.
    rewrite <- Hpl, Hnx, Zplus_mod_idemp_l. reflexivity.
  - rewrite Hl. apply uint64_range.
  - rewrite Hl. apply uint64_range.
Qed.

(** Finalization in closed form: the state vector after the padding push
    and the checksum bytes; the fatal check is passed. *)
Lemma md5_checkSum_closed (d : digest) :
  consistent d ->
  exists d',
    checkSum compress haveAsm d = Done (d', output (s d')) /\
    nx d' = 0 /\
    s d' = blocks compress (s d) (pending d ++ padding (len d)).
Proof.
  intros Hc. pose proof Hc as (Hwf & Hnx & Hlen).
  unfold checkSum. rewrite md5_checkSum_padding_eq. cbn [bind].
  destruct (md5_Write_spec d (padding (len d)) Hwf) as (d' & E & Hwf' & Hs & Hp & Hl).
  rewrite E. cbn [bind].
  assert (Hz : nx d' = 0).
  { pose proof (md5_pending_length d' Hwf') as Hpl.
    rewrite Hp, rest_length, length_app, (md5_pending_length d Hwf) in Hpl.
    destruct Hwf as [_ Hn], Hwf' as [_ Hn']. unfold BlockSize in *.
    apply (f_equal Z.of_nat) in Hpl.
    rewrite Nat2Z.inj_mod, Nat2Z.inj_add, !Z2Nat.id in Hpl by lia.
    change (Z.of_nat 64) with 64 in Hpl.
    fold (lenZ (padding (len d))) in Hpl.
    rewrite Hnx, Zplus_mod_idemp_l, md5_padding_total in Hpl. lia. }
  rewrite Hz. cbn [Z.eqb negb].
  exists d'. split; [| split; [exact Hz | exact Hs]].
  apply (md5_output_bind (s d') (fun digest => Done (d', digest))).
Qed.

Lemma md5_Sum_closed (d : digest) (i : list byte) :
  consistent d ->
  Sum compress haveAsm d i
  = Done (d, i ++ output (blocks compress (s d) (pending d ++ padding (len d)))).
Proof.
  intros Hc. destruct (md5_checkSum_closed d Hc) as (d' & E & _ & Hs).
  unfold Sum. rewrite E. cbn [bind]. rewrite Hs. reflexivity.
Qed.



(** *** Checkpoints *)

Lemma md5_appendUint32_eq (b : list byte) (v : Z) :
  appendUint32 b v = Done (b ++ be32 v).
Proof.
  unfold appendUint32, BigEndian_PutUint32.
  change (zeros 4) with ([] ++ zeros 4 ++ []). change 0 with (lenZ (@nil byte)).
  rewrite store_at by reflexivity. cbn [bind app]. rewrite app_nil_r. reflexivity.
Qed.

Lemma md5_appendUint64_eq (b : list byte) (v : Z) :
  appendUint64 b v = Done (b ++ be64 v).
Proof.
  unfold appendUint64, BigEndian_PutUint64.
  change (zeros 8) with ([] ++ zeros 8 ++ []). change 0 with (lenZ (@nil byte)).
  rewrite store_at by reflexivity. cbn [bind app]. rewrite app_nil_r. reflexivity.
Qed.

Lemma md5_state_bytes_length (w : words) : length (state_bytes w) = 16%nat.
Proof. destruct w as [[[w0 w1] w2] w3]. reflexivity. Qed.

(** The checkpoint in closed form. *)
Lemma md5_MarshalBinary_eq (d : digest) :
  length (x d) = 64%nat -> 0 <= nx d <= 64 ->
  MarshalBinary d
  = Done (magic ++ state_bytes (s d) ++ pending d
            ++ zeros (64 - Z.to_nat (nx d)) ++ be64 (len d), None).
Proof.
  intros Hx Hn. unfold MarshalBinary.
  pose proof (md5_state_bytes_length (s d)) as Hsb. unfold state_bytes in *.
  destruct (s d) as [[[w0 w1] w2] w3].
  repeat (rewrite md5_appendUint32_eq; cbn [bind]).
  rewrite slice_to_ok by (unfold lenZ; lia). cbn [bind]. fold (pending d).
  set (hd := (((([] ++ magic) ++ be32 w0) ++ be32 w1) ++ be32 w2) ++ be32 w3).
  assert (Hhd : hd = magic ++ be32 w0 ++ be32 w1 ++ be32 w2 ++ be32 w3)
    by (unfold hd; cbn [app]; rewrite <- !app_assoc; reflexivity).
  assert (Hpl : length (pending d) = Z.to_nat (nx d))
    by (unfold pending; rewrite length_firstn; lia).
  assert (Hl : length (hd ++ pending d) = (20 + Z.to_nat (nx d))%nat).
  { rewrite length_app, Hpl, Hhd, length_app, Hsb. reflexivity. }
  unfold reslice_fresh, marshaledSize, BlockSize, lenZ. rewrite Hl, Hx.
  replace ((0 <=? Z.of_nat (20 + Z.to_nat (nx d)) + Z.of_nat 64 - nx d)
           && (Z.of_nat (20 + Z.to_nat (nx d)) + Z.of_nat 64 - nx d
               <=? Z.of_nat (length magic) + 4 * 4 + 64 + 8)) with true.
  2:{ symmetry. apply andb_true_iff. cbn [length magic].
      split; apply Z.leb_le; lia. }
  cbn [bind]. rewrite firstn_all2 by lia.
  rewrite md5_appendUint64_eq. cbn [bind].
  replace (Z.to_nat (Z.of_nat (20 + Z.to_nat (nx d)) + Z.of_nat 64 - nx d)
           - (20 + Z.to_nat (nx d)))%nat
    with (64 - Z.to_nat (nx d))%nat by lia.
  rewrite Hhd, <- !app_assoc. reflexivity.
Qed.

Lemma md5_consumeUint32_eq (b : list byte) :
  (4 <= length b)%nat ->
  consumeUint32 b = Done (skipn 4 b, be_value (firstn 4 b)).
Proof.
  intros H. do 4 (destruct b as [|? b]; [cbn [length] in H; lia|]).
  unfold consumeUint32.
  rewrite slice_from_ok, slice_to_ok by (unfold lenZ; cbn [length]; lia).
  cbn [bind]. change (Z.to_nat 4) with 4%nat. cbn [firstn skipn].
  rewrite Uint32_be_value. reflexivity.
Qed.

Lemma md5_consumeUint64_eq (b : list byte) :
  (8 <= length b)%nat ->
  consumeUint64 b = Done (skipn 8 b, be_value (firstn 8 b)).
Proof.
  intros H. do 8 (destruct b as [|? b]; [cbn [length] in H; lia|]).
  unfold consumeUint64.
  rewrite slice_from_ok, slice_to_ok by (unfold lenZ; cbn [length]; lia).
  cbn [bind]. change (Z.to_nat 8) with 8%nat. cbn [firstn skipn].
  rewrite Uint64_be_value. reflexivity.
Qed.

Lemma md5_firstn4_range (b : list byte) :
  (4 <= length b)%nat -> is_u32 (be_value (firstn 4 b)).
Proof.
  intros H. do 4 (destruct b as [|? b]; [cbn [length] in H; lia|]).
  cbn [firstn]. apply be_value_range4.
Qed.

Lemma md5_firstn8_range (b : list byte) :
  (8 <= length b)%nat -> 0 <= be_value (firstn 8 b) < 2 ^ 64.
Proof.
  intros H. do 8 (destruct b as [|? b]; [cbn [length] in H; lia|]).
  cbn [firstn]. apply be_value_range8.
Qed.

(** The magic test of [UnmarshalBinary]. *)
Lemma md5_magic_test (b : list byte) :
  (if lenZ b <? lenZ magic then Done true
   else t <- slice_to b (lenZ magic);; Done (negb (bytes_eqb t magic)))
  = Done (negb (bytes_eqb (firstn 4 b) magic)).
Proof.
  change (lenZ magic) with 4. unfold lenZ.
  destruct (Z.ltb_spec (Z.of_nat (length b)) 4) as [Hlt|Hge].
  - f_equal. destruct (bytes_eqb (firstn 4 b) magic) eqn:E; [|reflexivity].
    apply bytes_eqb_eq in E. apply (f_equal (@length byte)) in E.
    rewrite length_firstn in E. cbn [length magic] in E. lia.
  - rewrite slice_to_ok by (unfold lenZ; lia). reflexivity.
Qed.

Lemma md5_UnmarshalBinary_identifier (d : digest) (b : list byte) :
  firstn 4 b <> magic ->
  UnmarshalBinary d b = Done (d, Some errIdentifier).
Proof.
  intros H. unfold UnmarshalBinary. rewrite md5_magic_test. cbn [bind].
  destruct (bytes_eqb (firstn 4 b) magic) eqn:E; [|reflexivity].
  apply bytes_eqb_eq in E. contradiction.
Qed.

Lemma md5_UnmarshalBinary_size (d : digest) (b : list byte) :
  firstn 4 b = magic -> lenZ b <> marshaledSize ->
  UnmarshalBinary d b = Done (d, Some errSize).
Proof.
  intros H Hl. unfold UnmarshalBinary. rewrite md5_magic_test. cbn [bind].
  apply bytes_eqb_eq in H. rewrite H. cbn [negb].
  destruct (Z.eqb_spec (lenZ b) marshaledSize); [contradiction | reflexivity].
Qed.

Lemma md5_UnmarshalBinary_ok (d : digest) (b : list byte) :
  length (x d) = 64%nat ->
  firstn 4 b = magic -> lenZ b = marshaledSize ->
  UnmarshalBinary d b
  = Done (mkDigest (be_value (firstn 4 (skipn 4 b)),
                    be_value (firstn 4 (skipn 8 b)),
                    be_value (firstn 4 (skipn 12 b)),
                    be_value (firstn 4 (skipn 16 b)))
                   (firstn 64 (skipn 20 b))
                   (be_value (firstn 8 (skipn 84 b)) mod 64)
                   (be_value (firstn 8 (skipn 84 b))), None).
Proof.
  intros Hx H Hl. unfold UnmarshalBinary. rewrite md5_magic_test. cbn [bind].
  apply bytes_eqb_eq in H. rewrite H. cbn [negb].
  destruct (Z.eqb_spec (lenZ b) marshaledSize) as [_|]; [|contradiction].
  cbn [negb]. change (lenZ magic) with 4.
  assert (Hlen : length b = 92%nat).
  { change marshaledSize with 92 in Hl. unfold lenZ in Hl. lia. }
  rewrite slice_from_ok by (unfold lenZ; lia). cbn [bind].
  change (Z.to_nat 4) with 4%nat.
  rewrite md5_consumeUint32_eq by (rewrite !length_skipn; lia). cbn [bind].
  rewrite md5_consumeUint32_eq by (rewrite !length_skipn; lia). cbn [bind].
  rewrite md5_consumeUint32_eq by (rewrite !length_skipn; lia). cbn [bind].
  rewrite md5_consumeUint32_eq by (rewrite !length_skipn; lia). cbn [bind].
  rewrite !skipn_skipn. cbn [Nat.add].
  unfold copy. rewrite Hx, length_skipn, Hlen.
  change (Nat.min 64 (92 - 20)) with 64%nat.
  rewrite slice_from_ok by (unfold lenZ; rewrite length_skipn; lia). cbn [bind].
  rewrite Nat2Z.id, skipn_skipn. cbn [Nat.add].
  rewrite md5_consumeUint64_eq by (rewrite !length_skipn; lia). cbn [bind].
  rewrite (skipn_all2 (n:=64) (x d)) by lia. rewrite app_nil_r.
  reflexivity.
Qed.


Lemma md5_New_consistent : consistent New.
Proof.
  unfold consistent, wf, New, Reset, BlockSize. cbn [x nx len].
  rewrite length_zeros. splits; try reflexivity; lia.
Qed.

Lemma md5_New_u32 : u32_words (s New).
Proof.
  unfold u32_words, is_u32, New, Reset, init0, init1, init2, init3; cbn [s].
  splits; lia.
Qed.

(** Export followed by import restores the caller-visible content. *)
Lemma md5_roundtrip (d d0 : digest) :
  consistent d -> u32_words (s d) -> length (x d0) = 64%nat ->
  exists blob d',
    MarshalBinary d = Done (blob, None) /\
    UnmarshalBinary d0 blob = Done (d', None) /\
    consistent d' /\ s d' = s d /\ pending d' = pending d /\ len d' = len d /\
    nx d' = len d mod 64.
Proof.
  intros (Hwf & Hnx & Hlen) Hu Hx0. pose proof Hwf as [Hx Hn].
  unfold BlockSize in *.
  pose proof (md5_pending_length d Hwf) as Hpl.
  pose proof (md5_MarshalBinary_eq d Hx ltac:(lia)) as EM.
  unfold state_bytes, u32_words, is_u32 in *.
  destruct (s d) as [[[w0 w1] w2] w3] eqn:Es. destruct Hu as (H0 & H1 & H2 & H3).
  set (blob := magic ++ (be32 w0 ++ be32 w1 ++ be32 w2 ++ be32 w3)
                 ++ pending d ++ zeros (64 - Z.to_nat (nx d)) ++ be64 (len d))
    in *.
  assert (Hbl : lenZ blob = marshaledSize).
  { unfold lenZ, blob. rewrite !length_app, Hpl, length_zeros.
    change marshaledSize with 92. cbn [length magic be32 be64]. lia. }
  assert (E20 : skipn 20 blob
                = (pending d ++ zeros (64 - Z.to_nat (nx d))) ++ be64 (len d))
    by (rewrite <- app_assoc; reflexivity).
  assert (E64 : firstn 64 (skipn 20 blob)
                = pending d ++ zeros (64 - Z.to_nat (nx d))).
  { rewrite E20, firstn_app, firstn_all2 by (rewrite length_app, length_zeros; lia).
    replace (64 - length (pending d ++ zeros (64 - Z.to_nat (nx d))))%nat
      with 0%nat by (rewrite length_app, length_zeros; lia).
    rewrite firstn_O. apply app_nil_r. }
  assert (E84 : firstn 8 (skipn 84 blob) = be64 (len d)).
  { change 84%nat with (64 + 20)%nat. rewrite <- skipn_skipn, E20.
    rewrite skipn_app, skipn_all2 by (rewrite length_app, length_zeros; lia).
    replace (64 - length (pending d ++ zeros (64 - Z.to_nat (nx d))))%nat
      with 0%nat by (rewrite length_app, length_zeros; lia).
    reflexivity. }
  exists blob,
    (mkDigest (w0, w1, w2, w3) (pending d ++ zeros (64 - Z.to_nat (nx d)))
              (len d mod 64) (len d)).
  split; [exact EM|]. split.
  { rewrite (md5_UnmarshalBinary_ok d0 blob Hx0 eq_refl Hbl).
    rewrite E64, E84.
    change (firstn 4 (skipn 4 blob)) with (be32 w0).
    change (firstn 4 (skipn 8 blob)) with (be32 w1).
    change (firstn 4 (skipn 12 blob)) with (be32 w2).
    change (firstn 4 (skipn 16 blob)) with (be32 w3).
    rewrite !be_value_be32, be_value_be64.
    rewrite !uint32_small, uint64_small by assumption. reflexivity. }
  assert (Hp' : firstn (Z.to_nat (len d mod 64))
                  (pending d ++ zeros (64 - Z.to_nat (nx d))) = pending d).
  { rewrite <- Hnx, <- Hpl.
    rewrite firstn_app, firstn_all, Nat.sub_diag, firstn_O. apply app_nil_r. }
  unfold consistent, wf, BlockSize. cbn [s x nx len].
  splits; try reflexivity; try lia.
  - rewrite length_app, length_zeros. lia.
  - exact Hp'.
Qed.

(** *** Sequences of writes *)

Lemma md5_run_writes (chunks : list (list byte)) : forall d : digest,
  consistent d ->
  exists d',
    run compress haveAsm d (map CallWrite chunks) = Done d' /\
    consistent d' /\
    s d' = blocks compress (s d) (pending d ++ concat chunks) /\
    pending d' = rest (pending d ++ concat chunks) /\
    len d' = uint64 (len d + lenZ (concat chunks)).
Proof.
  induction chunks as [|c cs IH]; intros d Hc.
  - exists d. pose proof Hc as (Hwf & Hnx & Hlen).
    pose proof (md5_pending_length d Hwf) as Hpl. destruct Hwf as [Hx Hn].
    unfold BlockSize in Hn.
    cbn [map run concat]. rewrite app_nil_r.
    rewrite blocks_short, rest_short by lia.
    change (lenZ (@nil byte)) with 0. rewrite Z.add_0_r, uint64_small by exact Hlen.
    splits; auto.
  - destruct (md5_Write_consistent d c Hc) as (d1 & E & Hc1 & Hs1 & Hp1 & Hl1).
    destruct (IH d1 Hc1) as (d' & E' & Hc' & Hs' & Hp' & Hl').
    exists d'. cbn [map run exec concat]. rewrite E. cbn [bind]. rewrite E'.
    splits; auto.
    + rewrite Hs', Hs1, Hp1, blocks_rest, app_assoc. reflexivity.
    + rewrite Hp', Hp1, rest_app, app_assoc. reflexivity.
    + rewrite Hl', Hl1. unfold uint64, lenZ. rewrite length_app, Nat2Z.inj_add.
      rewrite Zplus_mod_idemp_l. f_equal. lia.
Qed.

(** The checksum of a sequence of writes in closed form: it depends on
    the receiver's caller-visible content and on the concatenation of the
    chunks only. *)
Lemma md5_digest_of_writes_closed (d : digest) (chunks : list (list byte)) :
  consistent d ->
  digest_of_writes compress haveAsm d chunks
  = Done (output (blocks compress (s d)
            ((pending d ++ concat chunks)
               ++ padding (uint64 (len d + lenZ (concat chunks)))))).
Proof.
  intros Hc. unfold digest_of_writes.
  destruct (md5_run_writes chunks d Hc) as (d' & E & Hc' & Hs & Hp & Hl).
  rewrite E. cbn [bind]. rewrite (md5_Sum_closed d' [] Hc'). cbn [bind app].
  rewrite Hs, Hp, Hl, blocks_rest. reflexivity.
Qed.

(** The one-shot function agrees with a single write to a fresh instance
    followed by [Sum(nil)]. *)
Lemma md5_SumData_eq (data : list byte) :
  SumData compress haveAsm data
  = digest_of_writes compress haveAsm New [data].
Proof.
  unfold SumData, digest_of_writes. fold New. cbn [map run exec].
  destruct (md5_Write_consistent New data md5_New_consistent)
    as (d & E & Hc & _).
  rewrite E. cbn [bind].
  destruct (md5_checkSum_closed d Hc) as (d' & E' & _ & Hs).
  rewrite E'. cbn [bind]. rewrite (md5_Sum_closed d [] Hc).
  cbn [bind app]. rewrite Hs. reflexivity.
Qed.

(** *** Every sequence of calls *)

Lemma md5_UnmarshalBinary_cases (d : digest) (b : list byte) :
  length (x d) = 64%nat ->
  (firstn 4 b <> magic /\ UnmarshalBinary d b = Done (d, Some errIdentifier))
  \/ (firstn 4 b = magic /\ lenZ b <> marshaledSize
      /\ UnmarshalBinary d b = Done (d, Some errSize))
  \/ (firstn 4 b = magic /\ lenZ b = marshaledSize
      /\ exists d', UnmarshalBinary d b = Done (d', None)
                    /\ consistent d' /\ u32_words (s d')).
Proof.
  intros Hx.
  destruct (bytes_eqb (firstn 4 b) magic) eqn:E.
  - apply bytes_eqb_eq in E.
    destruct (Z.eq_dec (lenZ b) marshaledSize) as [Hl|Hl].
    + right; right. split; [exact E|]. split; [exact Hl|].
      eexists. split; [apply md5_UnmarshalBinary_ok; assumption|].
      assert (Hlen : length b = 92%nat)
        by (change marshaledSize with 92 in Hl; unfold lenZ in Hl; lia).
      pose proof (md5_firstn8_range (skipn 84 b)
                    ltac:(rewrite length_skipn; lia)) as Hr.
      unfold consistent, wf, u32_words, BlockSize. cbn [s x nx len].
      splits; try (apply md5_firstn4_range; rewrite length_skipn; lia);
        try reflexivity; try lia.
      * rewrite length_firstn, length_skipn. lia.
      * apply Z.mod_pos_bound. lia.
      * apply Z.mod_pos_bound. lia.
    + right; left. split; [exact E|]. split; [exact Hl|].
      apply md5_UnmarshalBinary_size; assumption.
  - left. assert (Hne : firstn 4 b <> magic).
    { intros H. apply bytes_eqb_eq in H. congruence. }
    split; [exact Hne|]. apply md5_UnmarshalBinary_identifier, Hne.
Qed.

Lemma md5_exec_consistent (d : digest) (c : call) :
  consistent d ->
  exists d', exec compress haveAsm d c = Done d' /\ consistent d'.
Proof.
  intros Hc. destruct c as [p | | i | | b]; cbn [exec].
  - destruct (md5_Write_consistent d p Hc) as (d' & E & Hc' & _).
    rewrite E. cbn [bind]. exists d'. auto.
  - exists (Reset d). split; [reflexivity|].
    destruct Hc as ((Hx & Hn) & _). unfold consistent, wf, Reset, BlockSize.
    cbn [s x nx len]. splits; auto; try reflexivity; try lia.
  - rewrite (md5_Sum_closed d i Hc). cbn [bind]. exists d. auto.
  - pose proof Hc as ((Hx & Hn) & Hr). unfold BlockSize in Hn.
    rewrite md5_MarshalBinary_eq by (auto; lia). cbn [bind].
    exists d. auto.
  - pose proof Hc as ((Hx & Hn) & Hr).
    destruct (md5_UnmarshalBinary_cases d b Hx)
      as [(_ & E) | [(_ & _ & E) | (_ & _ & d' & E & Hc' & Hu')]];
      rewrite E; cbn [bind].
    + exists d. auto.
    + exists d. auto.
    + exists d'. auto.
Qed.

(** Every sequence of calls on an instance runs to completion and keeps
    the instance consistent. *)
Lemma md5_run_consistent (cs : list call) : forall d : digest,
  consistent d ->
  exists d', run compress haveAsm d cs = Done d' /\ consistent d'.
Proof.
  induction cs as [|c cs IH]; intros d Hc.
  - exists d. auto.
  - destruct (md5_exec_consistent d c Hc) as (d1 & E & Hc1).
    cbn [run]. rewrite E. cbn [bind]. apply IH; assumption.
Qed.

Lemma md5_run_app (cs1 cs2 : list call) : forall d : digest,
  run compress haveAsm d (cs1 ++ cs2)
  = (d' <- run compress haveAsm d cs1;; run compress haveAsm d' cs2).
Proof.
  induction cs1 as [|c cs1 IH]; intros d; cbn [app run bind]; [reflexivity|].
  destruct (exec compress haveAsm d c) as [d1|m]; cbn [bind]; [apply IH|reflexivity].
Qed.

(** The state words stay 32-bit values when the compression function
    returns 32-bit values. *)
Hypothesis compress_u32 :
  forall w b, u32_words w -> u32_words (compress w b).

Lemma md5_exec_u32 (d d' : digest) (c : call) :
  consistent d -> u32_words (s d) ->
  exec compress haveAsm d c = Done d' -> u32_words (s d').
Proof.
  intros Hc Hu. destruct c as [p | | i | | b]; cbn [exec].
  - destruct (md5_Write_consistent d p Hc) as (d1 & E & _ & Hs & _).
    rewrite E. cbn [bind]. intros [= <-].
    rewrite Hs. apply blocks_preserves; assumption.
  - intros [= <-]. apply md5_New_u32.
  - rewrite (md5_Sum_closed d i Hc). cbn [bind]. intros [= <-]. exact Hu.
  - destruct (MarshalBinary d); cbn [bind]; [|discriminate].
    intros [= <-]. exact Hu.
  - pose proof Hc as ((Hx & Hn) & Hr).
    destruct (md5_UnmarshalBinary_cases d b Hx)
      as [(_ & E) | [(_ & _ & E) | (_ & _ & d1 & E & Hc' & Hu')]];
      rewrite E; cbn [bind]; intros [= <-]; assumption.
Qed.

Lemma md5_run_u32 (cs : list call) : forall d d' : digest,
  consistent d -> u32_words (s d) ->
  run compress haveAsm d cs = Done d' -> u32_words (s d').
Proof.
  induction cs as [|c cs IH]; intros d d' Hc Hu; cbn [run].
  - intros [= <-]. exact Hu.
  - destruct (md5_exec_consistent d c Hc) as (d1 & E & Hc1).
    rewrite E. cbn [bind]. apply IH; [exact Hc1|].
    apply (md5_exec_u32 d d1 c Hc Hu E).
Qed.

End Facts.
Lemma md5_sample_u32 (w : words) (b : list byte) :
  u32_words w -> u32_words (sample_compress w b).
Proof.
  destruct w as [[[w0 w1] w2] w3]. unfold u32_words, sample_compress, is_u32.
  intros (H0 & H1 & H2 & H3). splits; try lia; apply Z.mod_pos_bound; lia.
Qed.

Lemma md5_errors_distinct : errIdentifier <> errSize.
Proof. unfold errIdentifier, errSize. discriminate. Qed.

(** An import that reports an error reports one of the two documented
    errors and leaves the receiver as it was. *)
Lemma md5_UnmarshalBinary_error (d d' : digest) (b : list byte) (e : error) :
  UnmarshalBinary d b = Done (d', Some e) ->
  d' = d /\ (e = errIdentifier \/ e = errSize).
Proof.
  unfold UnmarshalBinary. rewrite md5_magic_test. cbn [bind].
  destruct (negb (bytes_eqb (firstn 4 b) magic)).
  { intros [= <- <-]. auto. }
  destruct (negb (lenZ b =? marshaledSize)).
  { intros [= <- <-]. auto. }
  intros H. exfalso.
  repeat match type of H with
         | bind ?c _ = _ => destruct c as [?|?]; cbn [bind] in H;
                            [| discriminate H]
         | (let '(_, _) := ?c in _) = _ => destruct c
         | match ?c with (_, _) => _ end = _ => destruct c
         end.
  discriminate H.
Qed.

(** The three outcomes of an import and their causes. *)
Lemma md5_taxonomy (d : digest) (b : list byte) :
  length (x d) = 64%nat ->
  (UnmarshalBinary d b = Done (d, Some errIdentifier)
     <-> firstn 4 b <> magic) /\
  (UnmarshalBinary d b = Done (d, Some errSize)
     <-> firstn 4 b = magic /\ lenZ b <> marshaledSize) /\
  ((exists d', UnmarshalBinary d b = Done (d', None))
     <-> firstn 4 b = magic /\ lenZ b = marshaledSize) /\
  (exists d' e, UnmarshalBinary d b = Done (d', e) /\
     (e = None \/ e = Some errIdentifier \/ e = Some errSize)).
Proof.
  intros Hx. pose proof md5_errors_distinct as Hne.
  destruct (md5_UnmarshalBinary_cases d b Hx)
    as [(Ht & E) | [(Ht & Hl & E) | (Ht & Hl & d' & E & _)]]; rewrite E.
  - (* the tag differs *)
    splits.
    + split; [intros _; exact Ht | reflexivity].
    + split; [intros [= H]; contradiction | intros [H _]; contradiction].
    + split; [intros [? H]; discriminate H | intros [H _]; contradiction].
    + exists d, (Some errIdentifier). auto.
  - (* the tag matches, the length differs *)
    splits.
    + split; [intros [= H]; congruence | intros H; contradiction].
    + split; [intros _; auto | reflexivity].
    + split; [intros [? H]; discriminate H | intros [_ H]; contradiction].
    + exists d, (Some errSize). auto.
  - (* tag and length match *)
    splits.
    + split; [intros H; discriminate H | intros H; contradiction].
    + split; [intros H; discriminate H | intros [_ H]; contradiction].
    + split; [intros _; auto | intros _; exists d'; reflexivity].
    + exists d', None. auto.
Qed.

End Md5Facts.

(** ** crypto/sha256: the engine *)

Module Sha256Facts.
Import RtFacts BinaryFacts BlockFacts.
Import Sha256.
Section Facts.

Variable compress : words -> list byte -> words.

Lemma sha_pending_length (d : digest) : wf d -> length (pending d) = Z.to_nat (nx d).
Proof.
  intros [Hx Hn]. unfold pending, chunk in *. rewrite length_firstn. lia.
Qed.

(** The buffer is topped up: either the input is used up, or the buffer
    became a complete block, was compressed, and is empty again. *)
Lemma sha_Write_fill_spec (d : digest) (p : list byte) :
  wf d ->
  exists d1 p1,
    Write_fill compress d p = Done (d1, p1) /\
    wf d1 /\ len d1 = len d /\ is224 d1 = is224 d /\
    (p1 = [] \/ nx d1 = 0) /\
    blocks compress (h d1) (pending d1 ++ p1)
      = blocks compress (h d) (pending d ++ p) /\
    rest (pending d1 ++ p1) = rest (pending d ++ p).
Proof.
  intros Hwf. pose proof Hwf as [Hx Hn]. unfold chunk in Hn.
  unfold Write_fill. destruct (Z.ltb_spec 0 (nx d)) as [Hpos|Hzero].
  2:{ exists d, p. splits; auto. right; lia. }
  rewrite slice_from_ok by (unfold lenZ; lia). cbn [bind].
  unfold copy, block. cbn [nx h x len is224].
  rewrite slice_from_ok by (unfold lenZ; lia). cbn [bind].
  rewrite Nat2Z.id.
  pose proof (sha_pending_length d Hwf) as HP.
  assert (HT : length (skipn (Z.to_nat (nx d)) (x d)) = (64 - Z.to_nat (nx d))%nat)
    by (rewrite length_skipn; lia).
  unfold pending in *.
  set (P := firstn (Z.to_nat (nx d)) (x d)) in *.
  set (T := skipn (Z.to_nat (nx d)) (x d)) in *.
  clearbody P T. rewrite HT.
  remember (Nat.min (64 - Z.to_nat (nx d)) (length p)) as n eqn:En.
  destruct (Z.eqb_spec (nx d + Z.of_nat n) chunk) as [Hfull|Hpart];
    unfold chunk in *.
  - (* the buffer is complete *)
    assert (Hn64 : n = (64 - length P)%nat) by lia.
    assert (Hbuf : P ++ firstn n p ++ skipn n T = firstn 64 (P ++ p)).
    { rewrite skipn_all2 by lia. rewrite app_nil_r.
      rewrite firstn_app, (firstn_all2 (n:=64) P) by lia.
      rewrite Hn64. reflexivity. }
    rewrite Hbuf.
    assert (Hskip : skipn n p = skipn 64 (P ++ p)).
    { rewrite skipn_app, (skipn_all2 (n:=64) P) by lia.
      rewrite Hn64. reflexivity. }
    rewrite Hskip.
    assert (Hl64 : length (firstn 64 (P ++ p)) = 64%nat).
    { rewrite length_firstn, length_app. lia. }
    eexists _, _. split; [reflexivity|]. unfold wf, chunk.
    cbn [nx h x len is224 Z.to_nat]. rewrite ?firstn_O. cbn [app].
    splits.
    + exact Hl64.
    + lia.
    + lia.
    + reflexivity.
    + reflexivity.
    + right; reflexivity.
    + rewrite <- (blocks_app compress 1) by exact Hl64.
      rewrite firstn_skipn. reflexivity.
    + rewrite <- (firstn_skipn 64 (P ++ p)) at 2.
      symmetry. apply (rest_app_full 1). exact Hl64.
  - (* the input is used up *)
    assert (Hn' : n = length p) by lia.
    eexists _, _. split; [reflexivity|]. unfold wf, chunk.
    cbn [nx h x len is224].
    assert (Hp : firstn (Z.to_nat (nx d + Z.of_nat n))
                   (P ++ firstn n p ++ skipn n T) = P ++ p).
    { replace (Z.to_nat (nx d + Z.of_nat n)) with (length (P ++ p))
        by (rewrite length_app; lia).
      rewrite Hn', firstn_all, app_assoc.
      rewrite firstn_app, firstn_all, Nat.sub_diag, firstn_O. apply app_nil_r. }
    rewrite Hp, Hn', skipn_all, app_nil_r.
    splits.
    + rewrite !length_app, length_firstn, !length_skipn. lia.
    + lia.
    + lia.
    + reflexivity.
    + reflexivity.
    + left. reflexivity.
    + reflexivity.
    + reflexivity.
Qed.

Lemma sha_Write_blocks_eq (d : digest) (p : list byte) :
  Write_blocks compress d p
  = Done (mkDigest (blocks compress (h d) p) (x d) (nx d) (len d) (is224 d),
          rest p).
Proof.
  unfold Write_blocks, chunk, lenZ.
  destruct (Z.leb_spec 64 (Z.of_nat (length p))) as [Hge|Hlt].
  - change (64 - 1) with 63. rewrite ldiff_63 by lia.
    assert (Hb : 0 <= 64 * (Z.of_nat (length p) / 64) <= Z.of_nat (length p)).
    { pose proof (Z.mul_div_le (Z.of_nat (length p)) 64).
      pose proof (Z.div_pos (Z.of_nat (length p)) 64). lia. }
    rewrite slice_to_ok by exact Hb. cbn [bind]. unfold block.
    rewrite slice_from_ok by exact Hb. cbn [bind].
    rewrite to_nat_full, blocks_full. reflexivity.
  - rewrite blocks_short, rest_short by lia. destruct d; reflexivity.
Qed.

Lemma sha_Write_rest_spec (d : digest) (p : list byte) :
  length (x d) = 64%nat -> (length p < 64)%nat -> (p = [] \/ nx d = 0) ->
  let d' := Write_rest d p in
  h d' = h d /\ len d' = len d /\ is224 d' = is224 d /\
  length (x d') = 64%nat /\
  nx d' = nx d + lenZ p /\ pending d' = pending d ++ p.
Proof.
  intros Hx Hp Hor. unfold Write_rest, lenZ.
  destruct (Z.ltb_spec 0 (Z.of_nat (length p))) as [Hpos|Hnil].
  - destruct Hor as [-> | Hz]; [cbn [length] in Hpos; lia|].
    unfold copy. rewrite Hx, Nat.min_r by lia. rewrite firstn_all.
    unfold pending. cbn [h x nx len is224]. rewrite Hz. cbn [Z.to_nat].
    rewrite firstn_O. cbn [app]. rewrite Nat2Z.id. splits; try reflexivity.
    + rewrite length_app, length_skipn. lia.
    + rewrite firstn_app, firstn_all, Nat.sub_diag, firstn_O. apply app_nil_r.
  - destruct p; [| cbn [length] in Hnil; lia].
    rewrite app_nil_r. cbn [length]. splits; auto. lia.
Qed.

(** [Write] as a transformer of the caller-visible content: the state
    vector absorbs every complete block of (buffered tail ++ input), the
    remainder is buffered, the length grows by the input's length. *)
Lemma sha_Write_spec (d : digest) (p : list byte) :
  wf d ->
  exists d',
    Write compress d p = Done (d', (lenZ p, None)) /\
    wf d' /\
    h d' = blocks compress (h d) (pending d ++ p) /\
    pending d' = rest (pending d ++ p) /\
    len d' = uint64 (len d + lenZ p) /\
    is224 d' = is224 d.
Proof.
  intros Hwf. unfold Write.
  set (d0 := mkDigest (h d) (x d) (nx d) (uint64 (len d + lenZ p)) (is224 d)).
  assert (Hwf0 : wf d0) by exact Hwf.
  destruct (sha_Write_fill_spec d0 p Hwf0)
    as (d1 & p1 & E1 & Hwf1 & Hl1 & Hv1 & Hor & Hb & Hr).
  rewrite E1. cbn [bind]. rewrite sha_Write_blocks_eq. cbn [bind].
  set (d2 := mkDigest (blocks compress (h d1) p1) (x d1) (nx d1) (len d1)
                      (is224 d1)).
  destruct Hwf1 as [Hx1 Hn1]. unfold chunk in Hn1.
  assert (Hor2 : rest p1 = [] \/ nx d2 = 0).
  { destruct Hor as [-> | Hz]; [left; reflexivity | right; exact Hz]. }
  destruct (sha_Write_rest_spec d2 (rest p1) Hx1 (rest_lt p1) Hor2)
    as (Hs & Hl & Hv & Hx3 & Hnx & Hp).
  exists (Write_rest d2 (rest p1)). split; [reflexivity|].
  assert (Hpend1 : length (pending d1) = Z.to_nat (nx d1))
    by (apply sha_pending_length; split; [exact Hx1 | exact Hn1]).
  change (pending d0) with (pending d) in *. change (h d0) with (h d) in *.
  assert (Hfin : blocks compress (h d1) p1 = blocks compress (h d) (pending d ++ p)
                 /\ pending d1 ++ rest p1 = rest (pending d ++ p)).
  { rewrite <- Hb, <- Hr. destruct Hor as [-> | Hz].
    - change (rest (@nil byte)) with (@nil byte). rewrite !app_nil_r.
      rewrite (blocks_short compress (h d1) []) by (cbn [length]; lia).
      rewrite (blocks_short compress (h d1) (pending d1)) by lia.
      rewrite (rest_short (pending d1)) by lia.
      split; reflexivity.
    - unfold pending. rewrite Hz. cbn [Z.to_nat]. rewrite firstn_O. cbn [app].
      split; reflexivity. }
  destruct Hfin as [Hfs Hfp].
  unfold wf. splits.
  - exact Hx3.
  - rewrite Hnx. unfold lenZ. cbn [nx d2]. lia.
  - rewrite Hnx. unfold lenZ, chunk. cbn [nx d2].
    destruct Hor as [-> | Hz]; [cbn [rest length] | ].
    + change (rest []) with (@nil byte). cbn [length]. lia.
    + pose proof (rest_lt p1). lia.
  - rewrite Hs. exact Hfs.
  - rewrite Hp. exact Hfp.
  - rewrite Hl. cbn [len d2]. rewrite Hl1. reflexivity.
  - rewrite Hv. cbn [is224 d2]. rewrite Hv1. reflexivity.
Qed.

Lemma sha_Write_consistent (d : digest) (p : list byte) :
  consistent d ->
  exists d',
    Write compress d p = Done (d', (lenZ p, None)) /\
    consistent d' /\
    h d' = blocks compress (h d) (pending d ++ p) /\
    pending d' = rest (pending d ++ p) /\
    len d' = uint64 (len d + lenZ p) /\
    is224 d' = is224 d.
Proof.
  intros (Hwf & Hnx & Hlen).
  destruct (sha_Write_spec d p Hwf) as (d' & E & Hwf' & Hs & Hp & Hl & Hv).
  exists d'. splits; auto.
  unfold consistent. splits; auto.
  - pose proof (sha_pending_length d' Hwf') as Hpl.
    rewrite Hp, rest_length, length_app, (sha_pending_length d Hwf) in Hpl.
    destruct Hwf as [_ Hn], Hwf' as [_ Hn']. unfold chunk in *.
    rewrite Hl, uint64_mod64.
    apply (f_equal Z.of_nat) in Hpl.
    rewrite Nat2Z.inj_mod, Nat2Z.inj_add, !Z2Nat.id in Hpl by lia.
    change (Z.of_nat 64) with 64 in Hpl. unfold lenZ.
    rewrite <- Hpl, Hnx, Zplus_mod_idemp_l. reflexivity.
  - rewrite Hl. apply uint64_range.
  - rewrite Hl. apply uint64_range.
Qed.


(** *** Finalization *)

Lemma sha_pad_count (l : Z) :
  (l mod 64 < 56 -> (55 - l) mod 64 = 55 - l mod 64) /\
  (56 <= l mod 64 -> (55 - l) mod 64 = 119 - l mod 64).
Proof.
  pose proof (Z.mod_pos_bound l 64 ltac:(lia)) as Hm.
  rewrite <- Zminus_mod_idemp_r. split; intros H.
  - apply Z.mod_small. lia.
  - rewrite <- (Z.mod_add _ 1 64) by lia.
    replace (55 - l mod 64 + 1 * 64) with (119 - l mod 64) by lia.
    apply Z.mod_small. lia.
Qed.

Lemma sha_checkSum_padding_eq (l : Z) :
  checkSum_padding l = Done (Byte.x80 :: zeros (Z.to_nat ((55 - l) mod 64))).
Proof.
  pose proof (Z.mod_pos_bound l 64 ltac:(lia)) as Hm.
  destruct (sha_pad_count l) as [Hlo Hhi].
  unfold checkSum_padding, checkSum_tmp.
  destruct (Z.ltb_spec (l mod 64) 56) as [Hlt|Hge].
  - rewrite slice_to_ok by (unfold lenZ; cbn [length]; rewrite length_zeros; lia).
    rewrite Hlo by exact Hlt.
    replace (Z.to_nat (56 - l mod 64)) with (S (Z.to_nat (55 - l mod 64))) by lia.
    cbn [firstn]. rewrite firstn_zeros by lia. reflexivity.
  - rewrite slice_to_ok by (unfold lenZ; cbn [length]; rewrite length_zeros; lia).
    rewrite Hhi by exact Hge.
    replace (Z.to_nat (64 + 56 - l mod 64)) with (S (Z.to_nat (119 - l mod 64)))
      by lia.
    cbn [firstn]. rewrite firstn_zeros by lia. reflexivity.
Qed.

Lemma sha_checkSum_length_eq (l : Z) :
  checkSum_length l = Done (be64 (uint64 (l * 8))).
Proof.
  unfold checkSum_length, checkSum_tmp, BigEndian_PutUint64. rewrite shiftl3.
  change (Byte.x80 :: zeros 63) with ([] ++ (Byte.x80 :: zeros 7) ++ zeros 56).
  change 0 with (lenZ (@nil byte)).
  rewrite store_at by reflexivity. cbn [bind].
  rewrite slice_to_ok by (unfold lenZ, be64; cbn [app length]; lia).
  reflexivity.
Qed.

Lemma sha_padding_split (l : Z) :
  padding l = (Byte.x80 :: zeros (Z.to_nat ((55 - l) mod 64)))
                ++ be64 (uint64 (l * 8)).
Proof. reflexivity. Qed.

Lemma sha_padding_length (l : Z) :
  lenZ (padding l) = 1 + (55 - l) mod 64 + 8.
Proof.
  pose proof (Z.mod_pos_bound (55 - l) 64 ltac:(lia)).
  unfold padding, lenZ. cbn [length]. rewrite length_app, length_zeros.
  cbn [length be64]. lia.
Qed.

Lemma sha_padding_total (l : Z) : (l + lenZ (padding l)) mod 64 = 0.
Proof.
  rewrite sha_padding_length.
  replace (l + (1 + (55 - l) mod 64 + 8)) with ((55 - l) mod 64 + (l + 9)) by lia.
  rewrite Zplus_mod_idemp_l.
  replace (55 - l + (l + 9)) with (1 * 64) by lia. apply Z_mod_mult.
Qed.

Lemma sha_output_bind {A} (v224 : bool) (w : words) (k : list byte -> outcome A) :
  (let digest := zeros 32 in
   let '(h0, h1, h2, h3, h4, h5, h6, h7) := w in
   digest <- BigEndian_PutUint32 digest 0 h0;;
   digest <- BigEndian_PutUint32 digest 4 h1;;
   digest <- BigEndian_PutUint32 digest 8 h2;;
   digest <- BigEndian_PutUint32 digest 12 h3;;
   digest <- BigEndian_PutUint32 digest 16 h4;;
   digest <- BigEndian_PutUint32 digest 20 h5;;
   digest <- BigEndian_PutUint32 digest 24 h6;;
   digest <- (if negb v224 then BigEndian_PutUint32 digest 28 h7
              else Done digest);;
   k digest)
  = k (output v224 w ++ (if v224 then zeros 4 else [])).
Proof.
  destruct w as [[[[[[[h0 h1] h2] h3] h4] h5] h6] h7].
  unfold BigEndian_PutUint32, output. cbv zeta.
  change (zeros 32) with ([] ++ zeros 4 ++ zeros 28).
  change 0 with (lenZ (@nil byte)).
  rewrite store_at by reflexivity. cbn [bind].
  change ([] ++ be32 h0 ++ zeros 28) with (be32 h0 ++ zeros 4 ++ zeros 24).
  change 4 with (lenZ (be32 h0)).
  rewrite store_at by reflexivity. cbn [bind].
  change (be32 h0 ++ be32 h1 ++ zeros 24)
    with ((be32 h0 ++ be32 h1) ++ zeros 4 ++ zeros 20).
  change 8 with (lenZ (be32 h0 ++ be32 h1)).
  rewrite store_at by reflexivity. cbn [bind].
  change ((be32 h0 ++ be32 h1) ++ be32 h2 ++ zeros 20)
    with ((be32 h0 ++ be32 h1 ++ be32 h2) ++ zeros 4 ++ zeros 16).
  change 12 with (lenZ (be32 h0 ++ be32 h1 ++ be32 h2)).
  rewrite store_at by reflexivity. cbn [bind].
  change ((be32 h0 ++ be32 h1 ++ be32 h2) ++ be32 h3 ++ zeros 16)
    with ((be32 h0 ++ be32 h1 ++ be32 h2 ++ be32 h3) ++ zeros 4 ++ zeros 12).
  change 16 with (lenZ (be32 h0 ++ be32 h1 ++ be32 h2 ++ be32 h3)).
  rewrite store_at by reflexivity. cbn [bind].
  change ((be32 h0 ++ be32 h1 ++ be32 h2 ++ be32 h3) ++ be32 h4 ++ zeros 12)
    with ((be32 h0 ++ be32 h1 ++ be32 h2 ++ be32 h3 ++ be32 h4)
            ++ zeros 4 ++ zeros 8).
  change 20 with (lenZ (be32 h0 ++ be32 h1 ++ be32 h2 ++ be32 h3 ++ be32 h4)).
  rewrite store_at by reflexivity. cbn [bind].
  change ((be32 h0 ++ be32 h1 ++ be32 h2 ++ be32 h3 ++ be32 h4)
            ++ be32 h5 ++ zeros 8)
    with ((be32 h0 ++ be32 h1 ++ be32 h2 ++ be32 h3 ++ be32 h4 ++ be32 h5)
            ++ zeros 4 ++ zeros 4).
  change 24
    with (lenZ (be32 h0 ++ be32 h1 ++ be32 h2 ++ be32 h3 ++ be32 h4 ++ be32 h5)).
  rewrite store_at by reflexivity. cbn [bind].
  destruct v224; cbn [negb bind].
  - rewrite <- !app_assoc. reflexivity.
  - change ((be32 h0 ++ be32 h1 ++ be32 h2 ++ be32 h3 ++ be32 h4 ++ be32 h5)
              ++ be32 h6 ++ zeros 4)
      with ((be32 h0 ++ be32 h1 ++ be32 h2 ++ be32 h3 ++ be32 h4 ++ be32 h5
               ++ be32 h6) ++ zeros 4 ++ []).
    change 28
      with (lenZ (be32 h0 ++ be32 h1 ++ be32 h2 ++ be32 h3 ++ be32 h4
                    ++ be32 h5 ++ be32 h6)).
    rewrite store_at by reflexivity. cbn [bind].
    rewrite !app_nil_r, <- !app_assoc. reflexivity.
Qed.

Lemma sha_output_length (v224 : bool) (w : words) :
  lenZ (output v224 w) = if v224 then Size224 else Size.
Proof.
  destruct w as [[[[[[[h0 h1] h2] h3] h4] h5] h6] h7]. destruct v224; reflexivity.
Qed.

(** Finalization in closed form: the state vector after the two padding
    pushes and the [[Size]byte] result; the fatal check is passed. *)
Lemma sha_checkSum_closed (d : digest) :
  consistent d ->
  exists d',
    checkSum compress d
      = Done (d', output (is224 d) (h d')
                    ++ (if is224 d then zeros 4 else [])) /\
    nx d' = 0 /\
    h d' = blocks compress (h d) (pending d ++ padding (len d)) /\
    is224 d' = is224 d.
Proof.
  intros Hc. pose proof Hc as (Hwf & Hnx & Hlen).
  unfold checkSum. cbv zeta. rewrite sha_checkSum_padding_eq. cbn [bind].
  set (w1 := Byte.x80 :: zeros (Z.to_nat ((55 - len d) mod 64))).
  destruct (sha_Write_spec d w1 Hwf) as (d1 & E1 & Hwf1 & Hs1 & Hp1 & Hl1 & Hv1).
  rewrite E1. cbn [bind]. rewrite sha_checkSum_length_eq. cbn [bind].
  set (w2 := be64 (uint64 (len d * 8))).
  destruct (sha_Write_spec d1 w2 Hwf1) as (d2 & E2 & Hwf2 & Hs2 & Hp2 & Hl2 & Hv2).
  rewrite E2. cbn [bind].
  assert (Hpad : (pending d ++ w1) ++ w2 = pending d ++ padding (len d))
    by (rewrite <- app_assoc; reflexivity).
  rewrite Hs1, Hp1, blocks_rest, Hpad in Hs2.
  rewrite Hp1, rest_app, Hpad in Hp2.
  assert (Hz : nx d2 = 0).
  { pose proof (sha_pending_length d2 Hwf2) as Hpl.
    rewrite Hp2, rest_length, length_app, (sha_pending_length d Hwf) in Hpl.
    destruct Hwf as [_ Hn], Hwf2 as [_ Hn']. unfold chunk in *.
    apply (f_equal Z.of_nat) in Hpl.
    rewrite Nat2Z.inj_mod, Nat2Z.inj_add, !Z2Nat.id in Hpl by lia.
    change (Z.of_nat 64) with 64 in Hpl.
    fold (lenZ (padding (len d))) in Hpl.
    rewrite Hnx, Zplus_mod_idemp_l, sha_padding_total in Hpl. lia. }
  rewrite Hz. cbn [Z.eqb negb].
  exists d2. split; [| split; [exact Hz | split; [exact Hs2 | congruence]]].
  replace (is224 d) with (is224 d2) by congruence.
  apply (sha_output_bind (is224 d2) (h d2) (fun digest => Done (d2, digest))).
Qed.

Lemma sha_Sum_closed (d : digest) (i : list byte) :
  consistent d ->
  Sum compress d i
  = Done (d, i ++ output (is224 d)
                    (blocks compress (h d) (pending d ++ padding (len d)))).
Proof.
  intros Hc. destruct (sha_checkSum_closed d Hc) as (d' & E & _ & Hs & Hv).
  unfold Sum. rewrite E. cbn [bind]. rewrite Hv, Hs.
  destruct (is224 d) eqn:E224.
  - pose proof (sha_output_length true
        (blocks compress (h d) (pending d ++ padding (len d)))) as Hol.
    cbv iota in Hol. unfold Size224, lenZ in Hol.
    rewrite slice_to_ok
      by (unfold lenZ, Size224; rewrite length_app, length_zeros; lia).
    cbn [bind]. unfold Size224.
    replace (Z.to_nat 28) with (length (output true
        (blocks compress (h d) (pending d ++ padding (len d))))) by lia.
    rewrite firstn_app, firstn_all, Nat.sub_diag, firstn_O, app_nil_r.
    reflexivity.
  - rewrite app_nil_r. reflexivity.
Qed.


(** *** Checkpoints *)

Lemma sha_appendUint32_eq (b : list byte) (v : Z) :
  appendUint32 b v = Done (b ++ be32 v).
Proof.
  unfold appendUint32, BigEndian_PutUint32.
  change (zeros 4) with ([] ++ zeros 4 ++ []). change 0 with (lenZ (@nil byte)).
  rewrite store_at by reflexivity. cbn [bind app]. rewrite app_nil_r. reflexivity.
Qed.

Lemma sha_appendUint64_eq (b : list byte) (v : Z) :
  appendUint64 b v = Done (b ++ be64 v).
Proof.
  unfold appendUint64, BigEndian_PutUint64.
  change (zeros 8) with ([] ++ zeros 8 ++ []). change 0 with (lenZ (@nil byte)).
  rewrite store_at by reflexivity. cbn [bind app]. rewrite app_nil_r. reflexivity.
Qed.

Lemma sha_state_bytes_length (w : words) : length (state_bytes w) = 32%nat.
Proof. destruct w as [[[[[[[h0 h1] h2] h3] h4] h5] h6] h7]. reflexivity. Qed.

Lemma sha_magic_of_length (d : digest) : length (magic_of d) = 4%nat.
Proof. unfold magic_of. destruct (is224 d); reflexivity. Qed.

(** The checkpoint in closed form. *)
Lemma sha_MarshalBinary_eq (d : digest) :
  length (x d) = 64%nat -> 0 <= nx d <= 64 ->
  MarshalBinary d
  = Done (magic_of d ++ state_bytes (h d) ++ pending d
            ++ zeros (64 - Z.to_nat (nx d)) ++ be64 (len d), None).
Proof.
  intros Hx Hn. unfold MarshalBinary.
  pose proof (sha_state_bytes_length (h d)) as Hsb. unfold state_bytes in *.
  destruct (h d) as [[[[[[[h0 h1] h2] h3] h4] h5] h6] h7].
  replace (if is224 d then [] ++ magic224 else [] ++ magic256) with (magic_of d)
    by (unfold magic_of; destruct (is224 d); reflexivity).
  repeat (rewrite sha_appendUint32_eq; cbn [bind]).
  rewrite slice_to_ok by (unfold lenZ; lia). cbn [bind]. fold (pending d).
  set (hd := (((((((magic_of d ++ be32 h0) ++ be32 h1) ++ be32 h2) ++ be32 h3)
                 ++ be32 h4) ++ be32 h5) ++ be32 h6) ++ be32 h7).
  assert (Hhd : hd = magic_of d ++ be32 h0 ++ be32 h1 ++ be32 h2 ++ be32 h3
                       ++ be32 h4 ++ be32 h5 ++ be32 h6 ++ be32 h7)
    by (unfold hd; rewrite <- !app_assoc; reflexivity).
  assert (Hpl : length (pending d) = Z.to_nat (nx d))
    by (unfold pending; rewrite length_firstn; lia).
  assert (Hl : length (hd ++ pending d) = (36 + Z.to_nat (nx d))%nat).
  { rewrite length_app, Hpl, Hhd, length_app, Hsb, sha_magic_of_length. reflexivity. }
  unfold reslice_fresh, marshaledSize, chunk, lenZ. rewrite Hl, Hx.
  replace ((0 <=? Z.of_nat (36 + Z.to_nat (nx d)) + Z.of_nat 64 - nx d)
           && (Z.of_nat (36 + Z.to_nat (nx d)) + Z.of_nat 64 - nx d
               <=? Z.of_nat (length magic256) + 8 * 4 + 64 + 8)) with true.
  2:{ symmetry. apply andb_true_iff. cbn [length magic256].
      split; apply Z.leb_le; lia. }
  cbn [bind]. rewrite firstn_all2 by lia.
  rewrite sha_appendUint64_eq. cbn [bind].
  replace (Z.to_nat (Z.of_nat (36 + Z.to_nat (nx d)) + Z.of_nat 64 - nx d)
           - (36 + Z.to_nat (nx d)))%nat
    with (64 - Z.to_nat (nx d))%nat by lia.
  rewrite Hhd, <- !app_assoc. reflexivity.
Qed.

Lemma sha_consumeUint32_eq (b : list byte) :
  (4 <= length b)%nat ->
  consumeUint32 b = Done (skipn 4 b, be_value (firstn 4 b)).
Proof.
  intros H. do 4 (destruct b as [|? b]; [cbn [length] in H; lia|]).
  unfold consumeUint32.
  rewrite slice_from_ok by (unfold lenZ; cbn [length]; lia).
  cbn [bind]. change (Z.to_nat 4) with 4%nat. cbn [firstn skipn].
  rewrite (Done_inj _ _ (Uint32_be_value b0 b1 b2 b3 [])). reflexivity.
Qed.

Lemma sha_consumeUint64_eq (b : list byte) :
  (8 <= length b)%nat ->
  consumeUint64 b = Done (skipn 8 b, be_value (firstn 8 b)).
Proof.
  intros H. do 8 (destruct b as [|? b]; [cbn [length] in H; lia|]).
  unfold consumeUint64.
  rewrite slice_from_ok by (unfold lenZ; cbn [length]; lia).
  cbn [bind]. change (Z.to_nat 8) with 8%nat. cbn [firstn skipn].
  rewrite (Done_inj _ _ (Uint64_be_value b0 b1 b2 b3 b4 b5 b6 b7 [])).
  reflexivity.
Qed.

Lemma sha_firstn4_range (b : list byte) :
  (4 <= length b)%nat -> is_u32 (be_value (firstn 4 b)).
Proof.
  intros H. do 4 (destruct b as [|? b]; [cbn [length] in H; lia|]).
  cbn [firstn]. apply be_value_range4.
Qed.

Lemma sha_firstn8_range (b : list byte) :
  (8 <= length b)%nat -> 0 <= be_value (firstn 8 b) < 2 ^ 64.
Proof.
  intros H. do 8 (destruct b as [|? b]; [cbn [length] in H; lia|]).
  cbn [firstn]. apply be_value_range8.
Qed.

Lemma sha_short_tag (b m : list byte) :
  length m = 4%nat -> (length b < 4)%nat -> bytes_eqb (firstn 4 b) m = false.
Proof.
  intros Hm Hb. destruct (bytes_eqb (firstn 4 b) m) eqn:E; [|reflexivity].
  apply bytes_eqb_eq in E. apply (f_equal (@length byte)) in E.
  rewrite length_firstn in E. lia.
Qed.

(** The magic test of [UnmarshalBinary]. *)
Lemma sha_magic_test (d : digest) (b : list byte) :
  (if lenZ b <? lenZ magic224 then Done true
   else
     c1 <- (if is224 d
            then t <- slice_to b (lenZ magic224);;
                 Done (negb (bytes_eqb t magic224))
            else Done false);;
     if c1 : bool then Done true
     else if negb (is224 d)
          then t <- slice_to b (lenZ magic256);;
               Done (negb (bytes_eqb t magic256))
          else Done false)
  = Done (negb (bytes_eqb (firstn 4 b) (magic_of d))).
Proof.
  change (lenZ magic224) with 4. change (lenZ magic256) with 4. unfold lenZ.
  destruct (Z.ltb_spec (Z.of_nat (length b)) 4) as [Hlt|Hge].
  - rewrite sha_short_tag by (try apply sha_magic_of_length; lia). reflexivity.
  - rewrite !slice_to_ok by (unfold lenZ; lia). change (Z.to_nat 4) with 4%nat.
    unfold magic_of. destruct (is224 d); cbn [bind negb].
    + destruct (bytes_eqb (firstn 4 b) magic224); reflexivity.
    + reflexivity.
Qed.

Lemma sha_UnmarshalBinary_identifier (d : digest) (b : list byte) :
  firstn 4 b <> magic_of d ->
  UnmarshalBinary d b = Done (d, Some errIdentifier).
Proof.
  intros H. unfold UnmarshalBinary. rewrite sha_magic_test. cbn [bind].
  destruct (bytes_eqb (firstn 4 b) (magic_of d)) eqn:E; [|reflexivity].
  apply bytes_eqb_eq in E. contradiction.
Qed.

Lemma sha_UnmarshalBinary_size (d : digest) (b : list byte) :
  firstn 4 b = magic_of d -> lenZ b <> marshaledSize ->
  UnmarshalBinary d b = Done (d, Some errSize).
Proof.
  intros H Hl. unfold UnmarshalBinary. rewrite sha_magic_test. cbn [bind].
  apply bytes_eqb_eq in H. rewrite H. cbn [negb].
  destruct (Z.eqb_spec (lenZ b) marshaledSize); [contradiction | reflexivity].
Qed.

Lemma sha_UnmarshalBinary_ok (d : digest) (b : list byte) :
  length (x d) = 64%nat ->
  firstn 4 b = magic_of d -> lenZ b = marshaledSize ->
  UnmarshalBinary d b
  = Done (mkDigest (be_value (firstn 4 (skipn 4 b)),
                    be_value (firstn 4 (skipn 8 b)),
                    be_value (firstn 4 (skipn 12 b)),
                    be_value (firstn 4 (skipn 16 b)),
                    be_value (firstn 4 (skipn 20 b)),
                    be_value (firstn 4 (skipn 24 b)),
                    be_value (firstn 4 (skipn 28 b)),
                    be_value (firstn 4 (skipn 32 b)))
                   (firstn 64 (skipn 36 b))
                   (be_value (firstn 8 (skipn 100 b)) mod 64)
                   (be_value (firstn 8 (skipn 100 b)))
                   (is224 d), None).
Proof.
  intros Hx H Hl. unfold UnmarshalBinary. rewrite sha_magic_test. cbn [bind].
  apply bytes_eqb_eq in H. rewrite H. cbn [negb].
  destruct (Z.eqb_spec (lenZ b) marshaledSize) as [_|]; [|contradiction].
  cbn [negb]. change (lenZ magic224) with 4.
  assert (Hlen : length b = 108%nat).
  { change marshaledSize with 108 in Hl. unfold lenZ in Hl. lia. }
  rewrite slice_from_ok by (unfold lenZ; lia). cbn [bind].
  change (Z.to_nat 4) with 4%nat.
  do 8 (rewrite sha_consumeUint32_eq by (rewrite !length_skipn; lia); cbn [bind]).
  rewrite !skipn_skipn. cbn [Nat.add].
  unfold copy. rewrite Hx, length_skipn, Hlen.
  change (Nat.min 64 (108 - 36)) with 64%nat.
  rewrite slice_from_ok by (unfold lenZ; rewrite length_skipn; lia). cbn [bind].
  rewrite Nat2Z.id, skipn_skipn. cbn [Nat.add].
  rewrite sha_consumeUint64_eq by (rewrite !length_skipn; lia). cbn [bind].
  rewrite (skipn_all2 (n:=64) (x d)) by lia. rewrite app_nil_r.
  reflexivity.
Qed.


Lemma sha_New_consistent : consistent New.
Proof.
  unfold consistent, wf, New, Reset, zero_digest, chunk. cbn [x nx len is224 negb].
  rewrite length_zeros. splits; try reflexivity; lia.
Qed.

Lemma sha_New224_consistent : consistent New224.
Proof.
  unfold consistent, wf, New224, Reset, zero_digest, chunk.
  cbn [x nx len is224 negb]. rewrite length_zeros.
  splits; try reflexivity; lia.
Qed.

Lemma sha_Reset_u32 (d : digest) : u32_words (h (Reset d)).
Proof.
  unfold Reset. destruct (is224 d); cbn [negb h];
    unfold u32_words, is_u32, init0, init1, init2, init3, init4, init5, init6,
      init7, init0_224, init1_224, init2_224, init3_224, init4_224, init5_224,
      init6_224, init7_224; splits; lia.
Qed.

(** Export followed by import into an instance of the same variant
    restores the caller-visible content. *)
Lemma sha_roundtrip (d d0 : digest) :
  consistent d -> u32_words (h d) ->
  length (x d0) = 64%nat -> is224 d0 = is224 d ->
  exists blob d',
    MarshalBinary d = Done (blob, None) /\
    UnmarshalBinary d0 blob = Done (d', None) /\
    consistent d' /\ h d' = h d /\ pending d' = pending d /\ len d' = len d /\
    nx d' = len d mod 64 /\ is224 d' = is224 d.
Proof.
  intros (Hwf & Hnx & Hlen) Hu Hx0 Hv0. pose proof Hwf as [Hx Hn].
  unfold chunk in *.
  pose proof (sha_pending_length d Hwf) as Hpl.
  pose proof (sha_MarshalBinary_eq d Hx ltac:(lia)) as EM.
  unfold state_bytes, u32_words, is_u32 in *.
  destruct (h d) as [[[[[[[h0 h1] h2] h3] h4] h5] h6] h7] eqn:Es.
  destruct Hu as (H0 & H1 & H2 & H3 & H4 & H5 & H6 & H7).
  pose proof (sha_magic_of_length d) as Hml.
  assert (Hm0 : magic_of d0 = magic_of d) by (unfold magic_of; rewrite Hv0; reflexivity).
  destruct (magic_of d) as [|m0 [|m1 [|m2 [|m3 [|? ?]]]]] eqn:Em;
    try discriminate Hml.
  set (blob := [m0; m1; m2; m3]
                 ++ (be32 h0 ++ be32 h1 ++ be32 h2 ++ be32 h3
                       ++ be32 h4 ++ be32 h5 ++ be32 h6 ++ be32 h7)
                 ++ pending d ++ zeros (64 - Z.to_nat (nx d)) ++ be64 (len d))
    in *.
  assert (Hbl : lenZ blob = marshaledSize).
  { unfold lenZ, blob. rewrite !length_app, Hpl, length_zeros.
    change marshaledSize with 108. cbn [length be32 be64]. lia. }
  assert (E36 : skipn 36 blob
                = (pending d ++ zeros (64 - Z.to_nat (nx d))) ++ be64 (len d))
    by (rewrite <- app_assoc; reflexivity).
  assert (E64 : firstn 64 (skipn 36 blob)
                = pending d ++ zeros (64 - Z.to_nat (nx d))).
  { rewrite E36, firstn_app, firstn_all2 by (rewrite length_app, length_zeros; lia).
    replace (64 - length (pending d ++ zeros (64 - Z.to_nat (nx d))))%nat
      with 0%nat by (rewrite length_app, length_zeros; lia).
    rewrite firstn_O. apply app_nil_r. }
  assert (E100 : firstn 8 (skipn 100 blob) = be64 (len d)).
  { change 100%nat with (64 + 36)%nat. rewrite <- skipn_skipn, E36.
    rewrite skipn_app, skipn_all2 by (rewrite length_app, length_zeros; lia).
    replace (64 - length (pending d ++ zeros (64 - Z.to_nat (nx d))))%nat
      with 0%nat by (rewrite length_app, length_zeros; lia).
    reflexivity. }
  exists blob,
    (mkDigest (h0, h1, h2, h3, h4, h5, h6, h7)
              (pending d ++ zeros (64 - Z.to_nat (nx d)))
              (len d mod 64) (len d) (is224 d)).
  split; [exact EM|]. split.
  { assert (Ht : firstn 4 blob = magic_of d0) by (rewrite Hm0; reflexivity).
    rewrite (sha_UnmarshalBinary_ok d0 blob Hx0 Ht Hbl).
    rewrite E64, E100, Hv0.
    change (firstn 4 (skipn 4 blob)) with (be32 h0).
    change (firstn 4 (skipn 8 blob)) with (be32 h1).
    change (firstn 4 (skipn 12 blob)) with (be32 h2).
    change (firstn 4 (skipn 16 blob)) with (be32 h3).
    change (firstn 4 (skipn 20 blob)) with (be32 h4).
    change (firstn 4 (skipn 24 blob)) with (be32 h5).
    change (firstn 4 (skipn 28 blob)) with (be32 h6).
    change (firstn 4 (skipn 32 blob)) with (be32 h7).
    rewrite !be_value_be32, be_value_be64.
    rewrite !uint32_small, uint64_small by assumption. reflexivity. }
  assert (Hp' : firstn (Z.to_nat (len d mod 64))
                  (pending d ++ zeros (64 - Z.to_nat (nx d))) = pending d).
  { rewrite <- Hnx, <- Hpl.
    rewrite firstn_app, firstn_all, Nat.sub_diag, firstn_O. apply app_nil_r. }
  unfold consistent, wf, chunk. cbn [h x nx len is224].
  splits; try reflexivity; try lia.
  - rewrite length_app, length_zeros. lia.
  - exact Hp'.
Qed.

(** *** Sequences of writes *)

Lemma sha_run_writes (chunks : list (list byte)) : forall d : digest,
  consistent d ->
  exists d',
    run compress d (map CallWrite chunks) = Done d' /\
    consistent d' /\
    h d' = blocks compress (h d) (pending d ++ concat chunks) /\
    pending d' = rest (pending d ++ concat chunks) /\
    len d' = uint64 (len d + lenZ (concat chunks)) /\
    is224 d' = is224 d.
Proof.
  induction chunks as [|c cs IH]; intros d Hc.
  - exists d. pose proof Hc as (Hwf & Hnx & Hlen).
    pose proof (sha_pending_length d Hwf) as Hpl. destruct Hwf as [Hx Hn].
    unfold chunk in Hn.
    cbn [map run concat]. rewrite app_nil_r.
    rewrite blocks_short, rest_short by lia.
    change (lenZ (@nil byte)) with 0. rewrite Z.add_0_r, uint64_small by exact Hlen.
    splits; auto.
  - destruct (sha_Write_consistent d c Hc) as (d1 & E & Hc1 & Hs1 & Hp1 & Hl1 & Hv1).
    destruct (IH d1 Hc1) as (d' & E' & Hc' & Hs' & Hp' & Hl' & Hv').
    exists d'. cbn [map run exec concat]. rewrite E. cbn [bind]. rewrite E'.
    splits; auto.
    + rewrite Hs', Hs1, Hp1, blocks_rest, app_assoc. reflexivity.
    + rewrite Hp', Hp1, rest_app, app_assoc. reflexivity.
    + rewrite Hl', Hl1. unfold uint64, lenZ. rewrite length_app, Nat2Z.inj_add.
      rewrite Zplus_mod_idemp_l. f_equal. lia.
    + congruence.
Qed.

(** The checksum of a sequence of writes in closed form: it depends on
    the receiver's caller-visible content and on the concatenation of the
    chunks only. *)
Lemma sha_digest_of_writes_closed (d : digest) (chunks : list (list byte)) :
  consistent d ->
  digest_of_writes compress d chunks
  = Done (output (is224 d) (blocks compress (h d)
            ((pending d ++ concat chunks)
               ++ padding (uint64 (len d + lenZ (concat chunks)))))).
Proof.
  intros Hc. unfold digest_of_writes.
  destruct (sha_run_writes chunks d Hc) as (d' & E & Hc' & Hs & Hp & Hl & Hv).
  rewrite E. cbn [bind]. rewrite (sha_Sum_closed d' [] Hc'). cbn [bind app].
  rewrite Hs, Hp, Hl, Hv, blocks_rest. reflexivity.
Qed.

(** The one-shot functions agree with a single write to a fresh instance
    followed by [Sum(nil)]. *)
Lemma sha_Sum256_eq (data : list byte) :
  Sum256 compress data = digest_of_writes compress New [data].
Proof.
  unfold Sum256, digest_of_writes. fold New. cbn [map run exec].
  destruct (sha_Write_consistent New data sha_New_consistent)
    as (d & E & Hc & _ & _ & _ & Hv).
  rewrite E. cbn [bind].
  destruct (sha_checkSum_closed d Hc) as (d' & E' & _ & Hs & _).
  rewrite E'. cbn [bind]. rewrite (sha_Sum_closed d [] Hc).
  cbn [bind app]. rewrite Hs, Hv. cbn [is224 New Reset zero_digest negb].
  rewrite app_nil_r. reflexivity.
Qed.

Lemma sha_Sum224_eq (data : list byte) :
  Sum224 compress data = digest_of_writes compress New224 [data].
Proof.
  unfold Sum224, digest_of_writes. cbv zeta. fold New224. cbn [map run exec].
  destruct (sha_Write_consistent New224 data sha_New224_consistent)
    as (d & E & Hc & _ & _ & _ & Hv).
  rewrite E. cbn [bind].
  destruct (sha_checkSum_closed d Hc) as (d' & E' & _ & Hs & _).
  rewrite E'. cbn [bind]. rewrite (sha_Sum_closed d [] Hc).
  cbn [bind app]. rewrite Hs, Hv.
  change (is224 New224) with true. cbv iota.
  set (w := blocks compress (h d) (pending d ++ padding (len d))).
  pose proof (sha_output_length true w) as Hl. cbv iota in Hl.
  unfold Size224, lenZ in *.
  rewrite slice_to_ok by (unfold lenZ; rewrite length_app, length_zeros; lia).
  cbn [bind]. rewrite firstn_app_exact by lia.
  unfold copy. rewrite length_zeros.
  replace (Nat.min 28 (length (output true w))) with (length (output true w))
    by lia.
  rewrite firstn_all, skipn_all2 by (rewrite length_zeros; lia).
  cbn [fst]. rewrite app_nil_r. reflexivity.
Qed.

(** *** Every sequence of calls *)

Lemma sha_UnmarshalBinary_cases (d : digest) (b : list byte) :
  length (x d) = 64%nat ->
  (firstn 4 b <> magic_of d
   /\ UnmarshalBinary d b = Done (d, Some errIdentifier))
  \/ (firstn 4 b = magic_of d /\ lenZ b <> marshaledSize
      /\ UnmarshalBinary d b = Done (d, Some errSize))
  \/ (firstn 4 b = magic_of d /\ lenZ b = marshaledSize
      /\ exists d', UnmarshalBinary d b = Done (d', None)
                    /\ consistent d' /\ u32_words (h d')
                    /\ is224 d' = is224 d).
Proof.
  intros Hx.
  destruct (bytes_eqb (firstn 4 b) (magic_of d)) eqn:E.
  - apply bytes_eqb_eq in E.
    destruct (Z.eq_dec (lenZ b) marshaledSize) as [Hl|Hl].
    + right; right. split; [exact E|]. split; [exact Hl|].
      eexists. split; [apply sha_UnmarshalBinary_ok; assumption|].
      assert (Hlen : length b = 108%nat)
        by (change marshaledSize with 108 in Hl; unfold lenZ in Hl; lia).
      pose proof (sha_firstn8_range (skipn 100 b)
                    ltac:(rewrite length_skipn; lia)) as Hr.
      unfold consistent, wf, u32_words, chunk. cbn [h x nx len is224].
      splits; try (apply sha_firstn4_range; rewrite length_skipn; lia);
        try reflexivity; try lia.
      * rewrite length_firstn, length_skipn. lia.
      * apply Z.mod_pos_bound. lia.
      * apply Z.mod_pos_bound. lia.
    + right; left. split; [exact E|]. split; [exact Hl|].
      apply sha_UnmarshalBinary_size; assumption.
  - left. assert (Hne : firstn 4 b <> magic_of d).
    { intros H. apply bytes_eqb_eq in H. congruence. }
    split; [exact Hne|]. apply sha_UnmarshalBinary_identifier, Hne.
Qed.

Lemma sha_exec_consistent (d : digest) (c : call) :
  consistent d ->
  exists d', exec compress d c = Done d'
             /\ consistent d' /\ is224 d' = is224 d.
Proof.
  intros Hc. destruct c as [p | | i | | b]; cbn [exec].
  - destruct (sha_Write_consistent d p Hc) as (d' & E & Hc' & _ & _ & _ & Hv).
    rewrite E. cbn [bind]. exists d'. auto.
  - exists (Reset d). split; [reflexivity|]. split.
    + destruct Hc as ((Hx & Hn) & _). unfold consistent, wf, Reset, chunk.
      destruct (is224 d); cbn [negb h x nx len];
        splits; auto; try reflexivity; try lia.
    + unfold Reset. destruct (is224 d); reflexivity.
  - rewrite (sha_Sum_closed d i Hc). cbn [bind]. exists d. auto.
  - pose proof Hc as ((Hx & Hn) & Hr). unfold chunk in Hn.
    rewrite sha_MarshalBinary_eq by (auto; lia). cbn [bind].
    exists d. auto.
  - pose proof Hc as ((Hx & Hn) & Hr).
    destruct (sha_UnmarshalBinary_cases d b Hx)
      as [(_ & E) | [(_ & _ & E) | (_ & _ & d' & E & Hc' & Hu' & Hv')]];
      rewrite E; cbn [bind].
    + exists d. auto.
    + exists d. auto.
    + exists d'. auto.
Qed.

(** Every sequence of calls on an instance runs to completion, keeps the
    instance consistent and keeps its variant. *)
Lemma sha_run_consistent (cs : list call) : forall d : digest,
  consistent d ->
  exists d', run compress d cs = Done d'
             /\ consistent d' /\ is224 d' = is224 d.
Proof.
  induction cs as [|c cs IH]; intros d Hc.
  - exists d. auto.
  - destruct (sha_exec_consistent d c Hc) as (d1 & E & Hc1 & Hv1).
    cbn [run]. rewrite E. cbn [bind].
    destruct (IH d1 Hc1) as (d' & E' & Hc' & Hv').
    exists d'. splits; auto. congruence.
Qed.

Lemma sha_run_app (cs1 cs2 : list call) : forall d : digest,
  run compress d (cs1 ++ cs2)
  = (d' <- run compress d cs1;; run compress d' cs2).
Proof.
  induction cs1 as [|c cs1 IH]; intros d; cbn [app run bind]; [reflexivity|].
  destruct (exec compress d c) as [d1|m]; cbn [bind]; [apply IH|reflexivity].
Qed.

(** The state words stay 32-bit values when the compression function
    returns 32-bit values. *)
Hypothesis compress_u32 :
  forall w b, u32_words w -> u32_words (compress w b).

Lemma sha_exec_u32 (d d' : digest) (c : call) :
  consistent d -> u32_words (h d) ->
  exec compress d c = Done d' -> u32_words (h d').
Proof.
  intros Hc Hu. destruct c as [p | | i | | b]; cbn [exec].
  - destruct (sha_Write_consistent d p Hc) as (d1 & E & _ & Hs & _).
    rewrite E. cbn [bind]. intros [= <-].
    rewrite Hs. apply blocks_preserves; assumption.
  - intros [= <-]. apply sha_Reset_u32.
  - rewrite (sha_Sum_closed d i Hc). cbn [bind]. intros [= <-]. exact Hu.
  - destruct (MarshalBinary d); cbn [bind]; [|discriminate].
    intros [= <-]. exact Hu.
  - pose proof Hc as ((Hx & Hn) & Hr).
    destruct (sha_UnmarshalBinary_cases d b Hx)
      as [(_ & E) | [(_ & _ & E) | (_ & _ & d1 & E & Hc' & Hu' & Hv')]];
      rewrite E; cbn [bind]; intros [= <-]; assumption.
Qed.

Lemma sha_run_u32 (cs : list call) : forall d d' : digest,
  consistent d -> u32_words (h d) ->
  run compress d cs = Done d' -> u32_words (h d').
Proof.
  induction cs as [|c cs IH]; intros d d' Hc Hu; cbn [run].
  - intros [= <-]. exact Hu.
  - destruct (sha_exec_consistent d c Hc) as (d1 & E & Hc1 & _).
    rewrite E. cbn [bind]. apply IH; [exact Hc1|].
    apply (sha_exec_u32 d d1 c Hc Hu E).
Qed.

End Facts.
Lemma sha_sample_u32 (w : words) (b : list byte) :
  u32_words w -> u32_words (sample_compress w b).
Proof.
  destruct w as [[[[[[[h0 h1] h2] h3] h4] h5] h6] h7].
  unfold u32_words, sample_compress, is_u32.
  intros (H0 & H1 & H2 & H3 & H4 & H5 & H6 & H7).
  splits; try lia; apply Z.mod_pos_bound; lia.
Qed.

Lemma sha_errors_distinct : errIdentifier <> errSize.
Proof. unfold errIdentifier, errSize. discriminate. Qed.

Lemma sha_UnmarshalBinary_error (d d' : digest) (b : list byte) (e : error) :
  UnmarshalBinary d b = Done (d', Some e) ->
  d' = d /\ (e = errIdentifier \/ e = errSize).
Proof.
  unfold UnmarshalBinary. rewrite sha_magic_test. cbn [bind].
  destruct (negb (bytes_eqb (firstn 4 b) (magic_of d))).
  { intros [= <- <-]. auto. }
  destruct (negb (lenZ b =? marshaledSize)).
  { intros [= <- <-]. auto. }
  intros H. exfalso.
  repeat match type of H with
         | bind ?c _ = _ => destruct c as [?|?]; cbn [bind] in H;
                            [| discriminate H]
         | (let '(_, _) := ?c in _) = _ => destruct c
         | match ?c with (_, _) => _ end = _ => destruct c
         end.
  discriminate H.
Qed.

(** The instance a constructor returns, by variant. *)
Lemma sha_fresh_consistent (v224 : bool) :
  consistent (if v224 then New224 else New) /\
  is224 (if v224 then New224 else New) = v224 /\
  u32_words (h (if v224 then New224 else New)).
Proof.
  destruct v224.
  - split; [apply sha_New224_consistent|]. split; [reflexivity|]. apply sha_Reset_u32.
  - split; [apply sha_New_consistent|]. split; [reflexivity|]. apply sha_Reset_u32.
Qed.

(** The three outcomes of an import and their causes. *)
Lemma sha_taxonomy (d : digest) (b : list byte) :
  length (x d) = 64%nat ->
  (UnmarshalBinary d b = Done (d, Some errIdentifier)
     <-> firstn 4 b <> magic_of d) /\
  (UnmarshalBinary d b = Done (d, Some errSize)
     <-> firstn 4 b = magic_of d /\ lenZ b <> marshaledSize) /\
  ((exists d', UnmarshalBinary d b = Done (d', None))
     <-> firstn 4 b = magic_of d /\ lenZ b = marshaledSize) /\
  (exists d' e, UnmarshalBinary d b = Done (d', e) /\
     (e = None \/ e = Some errIdentifier \/ e = Some errSize)).
Proof.
  intros Hx. pose proof sha_errors_distinct as Hne.
  destruct (sha_UnmarshalBinary_cases d b Hx)
    as [(Ht & E) | [(Ht & Hl & E) | (Ht & Hl & d' & E & _)]]; rewrite E.
  - (* the tag differs *)
    splits.
    + split; [intros _; exact Ht | reflexivity].
    + split; [intros [= H]; contradiction | intros [H _]; contradiction].
    + split; [intros [? H]; discriminate H | intros [H _]; contradiction].
    + exists d, (Some errIdentifier). auto.
  - (* the tag matches, the length differs *)
    splits.
    + split; [intros [= H]; congruence | intros H; contradiction].
    + split; [intros _; auto | reflexivity].
    + split; [intros [? H]; discriminate H | intros [_ H]; contradiction].
    + exists d, (Some errSize). auto.
  - (* tag and length match *)
    splits.
    + split; [intros H; discriminate H | intros H; contradiction].
    + split; [intros H; discriminate H | intros [_ H]; contradiction].
    + split; [intros _; auto | intros _; exists d'; reflexivity].
    + exists d', None. auto.
Qed.

End Sha256Facts.

(** ** Further facts on byte orders and block counts *)

Module CodecFacts.
Import RtFacts BinaryFacts BlockFacts.

Lemma byte_of_low (hi : Z) (b : byte) :
  byte.of_Z (256 * hi + byte.unsigned b) = b.
Proof.
  apply byte.unsigned_inj. rewrite byte.unsigned_of_Z. unfold byte.wrap.
  pose proof (byte.unsigned_range b) as Hb. change (2 ^ 8) with 256 in *.
  rewrite Z.add_comm, Z.mul_comm, Z.mod_add by lia. apply Z.mod_small. lia.
Qed.

Lemma shiftr8_step (hi : Z) (b : byte) :
  Z.shiftr (256 * hi + byte.unsigned b) 8 = hi.
Proof.
  pose proof (byte.unsigned_range b) as Hb. change (2 ^ 8) with 256 in *.
  rewrite Z.shiftr_div_pow2 by lia. change (2 ^ 8) with 256.
  rewrite Z.add_comm, Z.mul_comm, Z.div_add by lia.
  rewrite Z.div_small by lia. reflexivity.
Qed.

(** Encoding the number read from four bytes gives the four bytes back. *)
Lemma be32_be_value (a b c e : byte) : be32 (be_value [a; b; c; e]) = [a; b; c; e].
Proof.
  unfold be32, be_value; cbn [fold_left].
  change 24 with (8 + (8 + 8)). change 16 with (8 + 8).
  rewrite <- !Z.shiftr_shiftr by lia.
  rewrite !shiftr8_step, !byte_of_low. reflexivity.
Qed.

Lemma be64_be_value (a b c e f g i j : byte) :
  be64 (be_value [a; b; c; e; f; g; i; j]) = [a; b; c; e; f; g; i; j].
Proof.
  unfold be64, be_value; cbn [fold_left].
  change 56 with (8 + (8 + (8 + (8 + (8 + (8 + 8)))))).
  change 48 with (8 + (8 + (8 + (8 + (8 + 8))))).
  change 40 with (8 + (8 + (8 + (8 + 8)))).
  change 32 with (8 + (8 + (8 + 8))).
  change 24 with (8 + (8 + 8)). change 16 with (8 + 8).
  rewrite <- !Z.shiftr_shiftr by lia.
  rewrite !shiftr8_step, !byte_of_low. reflexivity.
Qed.

Lemma firstn_plus {A} (a c : nat) (l : list A) :
  firstn (a + c) l = firstn a l ++ firstn c (skipn a l).
Proof.
  revert l; induction a as [|a IH]; intros l; [reflexivity|].
  destruct l as [|y l]; cbn [Nat.add firstn skipn app].
  - rewrite firstn_nil. reflexivity.
  - rewrite IH. reflexivity.
Qed.

(** The two ways the comments of [Write] give for the length of the
    complete blocks agree with the bit operation of the code. *)
Lemma ldiff_as_division (n : Z) : 0 <= n -> Z.ldiff n 63 = n / 64 * 64.
Proof. intros H. rewrite ldiff_63 by exact H. lia. Qed.

Lemma ldiff_as_xor (n : Z) : 0 <= n -> Z.ldiff n 63 = Z.lxor n (n mod 64).
Proof.
  intros H. rewrite ldiff_63 by exact H.
  pose proof (Z.mod_pos_bound n 64 ltac:(lia)) as Hm.
  assert (E : Z.land (n mod 64) (Z.shiftl (n / 64) 6) = 0).
  { apply Z.bits_inj'. intros k Hk. rewrite Z.land_spec, Z.bits_0.
    destruct (Z.lt_ge_cases k 6) as [Hlt|Hge].
    - rewrite Z.shiftl_spec_low by lia. apply andb_false_r.
    - change 64 with (2 ^ 6). rewrite Z.mod_pow2_bits_high by lia. reflexivity. }
  assert (En : n = Z.lxor (n mod 64) (Z.shiftl (n / 64) 6)).
  { rewrite <- Z.add_nocarry_lxor by exact E.
    rewrite Z.shiftl_mul_pow2 by lia. change (2 ^ 6) with 64.
    pose proof (Z.div_mod n 64 ltac:(lia)). lia. }
  replace (Z.lxor n (n mod 64))
    with (Z.lxor (Z.lxor (Z.shiftl (n / 64) 6) (n mod 64)) (n mod 64))
    by (rewrite (Z.lxor_comm (Z.shiftl (n / 64) 6)), <- En; reflexivity).
  rewrite Z.lxor_assoc, Z.lxor_nilpotent, Z.lxor_0_r.
  rewrite Z.shiftl_mul_pow2 by lia. change (2 ^ 6) with 64. lia.
Qed.

End CodecFacts.

(** ** crypto/md5: further facts *)

Module Md5Extra.
Import RtFacts BinaryFacts BlockFacts.
Import CodecFacts.
Import Md5 Md5Facts.
Section Facts.

Variable compress : words -> list byte -> words.
Variable haveAsm : bool.

Lemma md5_Write_nil (d : digest) :
  consistent d -> Write compress haveAsm d [] = Done (d, (0, None)).
Proof.
  intros ((Hx & Hn) & _ & Hl). unfold BlockSize in Hn.
  unfold Write. change (lenZ (@nil byte)) with 0.
  rewrite Z.add_0_r, uint64_small by exact Hl.
  unfold Write_fill. cbn [nx x s len].
  destruct (Z.ltb_spec 0 (nx d)) as [Hpos|Hz].
  - rewrite slice_from_ok by (unfold lenZ; lia). cbn [bind].
    unfold copy. cbn [length]. rewrite Nat.min_0_r.
    cbn [firstn skipn app nx x s len]. rewrite firstn_skipn.
    change (Z.of_nat 0) with 0. rewrite Z.add_0_r.
    destruct (Z.eqb_spec (nx d) BlockSize) as [E|_];
      [unfold BlockSize in E; lia|].
    rewrite slice_from_ok by (unfold lenZ; cbn [length]; lia). cbn [bind].
    destruct d; reflexivity.
  - cbn [bind]. destruct d; reflexivity.
Qed.

Lemma md5_Write_whole_blocks (d : digest) (p : list byte) (k : nat) :
  wf d -> nx d = 0 -> length p = (64 * k)%nat ->
  Write compress haveAsm d p
  = Done (mkDigest (blocks compress (s d) p) (x d) 0
                   (uint64 (len d + lenZ p)), (lenZ p, None)).
Proof.
  intros Hwf Hz Hp. unfold Write, Write_fill. cbn [nx]. rewrite Hz.
  cbn [Z.ltb Z.compare bind]. rewrite md5_Write_blocks_eq. cbn [bind s x nx len].
  assert (Hr : rest p = []).
  { apply length_zero_iff_nil. rewrite rest_length, Hp, Nat.mul_comm.
    apply Nat.Div0.mod_mul. }
  rewrite Hr. unfold Write_rest. cbn [lenZ length Z.of_nat Z.ltb Z.compare].
  reflexivity.
Qed.

Lemma md5_Write_blocks_division (d : digest) (p : list byte) :
  Write_blocks_by_division compress haveAsm d p
  = Write_blocks compress haveAsm d p.
Proof.
  unfold Write_blocks_by_division, Write_blocks, BlockSize.
  change (64 - 1) with 63.
  rewrite ldiff_as_division by (unfold lenZ; lia). reflexivity.
Qed.

Lemma md5_Reset_consistent (d : digest) :
  length (x d) = 64%nat -> consistent (Reset d).
Proof.
  intros Hx. unfold consistent, wf, Reset, BlockSize. cbn [x nx len].
  splits; auto; try reflexivity; lia.
Qed.

Lemma md5_output_length (w : words) : lenZ (output w) = Size.
Proof. destruct w as [[[w0 w1] w2] w3]. reflexivity. Qed.

(** The blob of a consistent instance is determined by its state words,
    buffered tail and length. *)
Lemma md5_MarshalBinary_view (d1 d2 : digest) :
  consistent d1 -> consistent d2 ->
  s d1 = s d2 -> pending d1 = pending d2 -> len d1 = len d2 ->
  MarshalBinary d1 = MarshalBinary d2.
Proof.
  intros ((Hx1 & Hn1) & Hm1 & _) ((Hx2 & Hn2) & Hm2 & _) Hs Hp Hl.
  unfold BlockSize in *.
  rewrite !md5_MarshalBinary_eq by (auto; lia).
  rewrite Hs, Hp, Hl, Hm1, Hm2, Hl. reflexivity.
Qed.

Lemma md5_consumeUint32_short (b : list byte) :
  (length b < 4)%nat -> exists m, consumeUint32 b = Panic m.
Proof.
  intros H. unfold consumeUint32, slice_from.
  destruct (Z.leb_spec 4 (lenZ b)) as [Hl|Hl]; [unfold lenZ in Hl; lia|].
  cbn [Z.leb Z.compare andb bind]. eexists. reflexivity.
Qed.

Lemma md5_consumeUint64_short (b : list byte) :
  (length b < 8)%nat -> exists m, consumeUint64 b = Panic m.
Proof.
  intros H. unfold consumeUint64, slice_from.
  destruct (Z.leb_spec 8 (lenZ b)) as [Hl|Hl]; [unfold lenZ in Hl; lia|].
  cbn [Z.leb Z.compare andb bind]. eexists. reflexivity.
Qed.

Lemma md5_firstn4_encode (b : list byte) :
  (4 <= length b)%nat -> be32 (be_value (firstn 4 b)) = firstn 4 b.
Proof.
  intros H. do 4 (destruct b as [|? b]; [cbn [length] in H; lia|]).
  cbn [firstn]. apply be32_be_value.
Qed.

Lemma md5_firstn8_encode (b : list byte) :
  (8 <= length b)%nat -> be64 (be_value (firstn 8 b)) = firstn 8 b.
Proof.
  intros H. do 8 (destruct b as [|? b]; [cbn [length] in H; lia|]).
  cbn [firstn]. apply be64_be_value.
Qed.

(** Export after a successful import: the blob read, with the buffer
    bytes past the fill count replaced by zeros. *)
Lemma md5_import_export (d d' : digest) (b : list byte) :
  length (x d) = 64%nat ->
  UnmarshalBinary d b = Done (d', None) ->
  MarshalBinary d'
  = Done (firstn 20 b
            ++ firstn (Z.to_nat (be_value (skipn 84 b) mod 64)) (skipn 20 b)
            ++ zeros (64 - Z.to_nat (be_value (skipn 84 b) mod 64))
            ++ skipn 84 b, None).
Proof.
  intros Hx HU.
  destruct (md5_UnmarshalBinary_cases d b Hx)
    as [(_ & E) | [(_ & _ & E) | (Ht & Hl & _)]];
    [rewrite E in HU; discriminate HU | rewrite E in HU; discriminate HU |].
  rewrite (md5_UnmarshalBinary_ok d b Hx Ht Hl) in HU.
  apply Done_inj in HU. apply (f_equal fst) in HU. cbn [fst] in HU. subst d'.
  assert (Hlen : length b = 92%nat)
    by (change marshaledSize with 92 in Hl; unfold lenZ in Hl; lia).
  assert (HL : firstn 8 (skipn 84 b) = skipn 84 b)
    by (apply firstn_all2; rewrite length_skipn; lia).
  rewrite HL.
  pose proof (Z.mod_pos_bound (be_value (skipn 84 b)) 64 ltac:(lia)) as Hn.
  rewrite md5_MarshalBinary_eq; cbn [s x nx len].
  2:{ rewrite length_firstn, length_skipn. lia. }
  2:{ lia. }
  unfold state_bytes, pending. cbn [x nx].
  rewrite !md5_firstn4_encode by (rewrite length_skipn; lia).
  rewrite <- HL at 3. rewrite md5_firstn8_encode by (rewrite length_skipn; lia).
  rewrite HL, firstn_firstn, Nat.min_l by lia.
  assert (H20 : firstn 20 b
                = firstn 4 b ++ firstn 4 (skipn 4 b) ++ firstn 4 (skipn 8 b)
                    ++ firstn 4 (skipn 12 b) ++ firstn 4 (skipn 16 b)).
  { change 20%nat with (4 + (4 + (4 + (4 + 4))))%nat.
    rewrite !firstn_plus, !skipn_skipn. reflexivity. }
  rewrite H20, Ht, <- !app_assoc. reflexivity.
Qed.

End Facts.
End Md5Extra.

(** ** crypto/sha256: further facts *)

Module Sha256Extra.
Import RtFacts BinaryFacts BlockFacts.
Import CodecFacts.
Import Sha256 Sha256Facts.
Section Facts.

Variable compress : words -> list byte -> words.

Lemma sha_Write_nil (d : digest) :
  consistent d -> Write compress d [] = Done (d, (0, None)).
Proof.
  intros ((Hx & Hn) & _ & Hl). unfold chunk in Hn.
  unfold Write. change (lenZ (@nil byte)) with 0.
  rewrite Z.add_0_r, uint64_small by exact Hl.
  unfold Write_fill. cbn [nx x h len is224].
  destruct (Z.ltb_spec 0 (nx d)) as [Hpos|Hz].
  - rewrite slice_from_ok by (unfold lenZ; lia). cbn [bind].
    unfold copy. cbn [length]. rewrite Nat.min_0_r.
    cbn [firstn skipn app nx x h len is224]. rewrite firstn_skipn.
    change (Z.of_nat 0) with 0. rewrite Z.add_0_r.
    destruct (Z.eqb_spec (nx d) chunk) as [E|_];
      [unfold chunk in E; lia|].
    rewrite slice_from_ok by (unfold lenZ; cbn [length]; lia). cbn [bind].
    destruct d; reflexivity.
  - cbn [bind]. destruct d; reflexivity.
Qed.

Lemma sha_Write_whole_blocks (d : digest) (p : list byte) (k : nat) :
  wf d -> nx d = 0 -> length p = (64 * k)%nat ->
  Write compress d p
  = Done (mkDigest (blocks compress (h d) p) (x d) 0
                   (uint64 (len d + lenZ p)) (is224 d), (lenZ p, None)).
Proof.
  intros Hwf Hz Hp. unfold Write, Write_fill. cbn [nx]. rewrite Hz.
  cbn [Z.ltb Z.compare bind]. rewrite sha_Write_blocks_eq.
  cbn [bind h x nx len is224].
  assert (Hr : rest p = []).
  { apply length_zero_iff_nil. rewrite rest_length, Hp, Nat.mul_comm.
    apply Nat.Div0.mod_mul. }
  rewrite Hr. unfold Write_rest. cbn [lenZ length Z.of_nat Z.ltb Z.compare].
  reflexivity.
Qed.

Lemma sha_Write_blocks_xor (d : digest) (p : list byte) :
  Write_blocks_by_xor compress d p = Write_blocks compress d p.
Proof.
  unfold Write_blocks_by_xor, Write_blocks, chunk.
  change (64 - 1) with 63.
  rewrite ldiff_as_xor by (unfold lenZ; lia). reflexivity.
Qed.

Lemma sha_Reset_consistent (d : digest) :
  length (x d) = 64%nat -> consistent (Reset d).
Proof.
  intros Hx. unfold consistent, wf, Reset, chunk.
  destruct (is224 d); cbn [negb x nx len];
    splits; auto; try reflexivity; lia.
Qed.

Lemma sha_Reset_variant (d : digest) :
  h (Reset d) = h (if is224 d then New224 else New)
  /\ is224 (Reset d) = is224 d.
Proof. unfold Reset. destruct (is224 d); split; reflexivity. Qed.

(** The blob of a consistent instance is determined by its variant, state
    words, buffered tail and length. *)
Lemma sha_MarshalBinary_view (d1 d2 : digest) :
  consistent d1 -> consistent d2 ->
  h d1 = h d2 -> pending d1 = pending d2 -> len d1 = len d2 ->
  is224 d1 = is224 d2 ->
  MarshalBinary d1 = MarshalBinary d2.
Proof.
  intros ((Hx1 & Hn1) & Hm1 & _) ((Hx2 & Hn2) & Hm2 & _) Hs Hp Hl Hv.
  unfold chunk in *.
  rewrite !sha_MarshalBinary_eq by (auto; lia).
  unfold magic_of. rewrite Hs, Hp, Hl, Hm1, Hm2, Hl, Hv. reflexivity.
Qed.

Lemma sha_consumeUint32_short (b : list byte) :
  (length b < 4)%nat -> exists m, consumeUint32 b = Panic m.
Proof.
  intros H. unfold consumeUint32.
  do 4 (destruct b as [|? b]; [eexists; reflexivity|]).
  cbn [length] in H. lia.
Qed.

Lemma sha_consumeUint64_short (b : list byte) :
  (length b < 8)%nat -> exists m, consumeUint64 b = Panic m.
Proof.
  intros H. unfold consumeUint64.
  do 8 (destruct b as [|? b]; [eexists; reflexivity|]).
  cbn [length] in H. lia.
Qed.

Lemma sha_firstn4_encode (b : list byte) :
  (4 <= length b)%nat -> be32 (be_value (firstn 4 b)) = firstn 4 b.
Proof.
  intros H. do 4 (destruct b as [|? b]; [cbn [length] in H; lia|]).
  cbn [firstn]. apply be32_be_value.
Qed.

Lemma sha_firstn8_encode (b : list byte) :
  (8 <= length b)%nat -> be64 (be_value (firstn 8 b)) = firstn 8 b.
Proof.
  intros H. do 8 (destruct b as [|? b]; [cbn [length] in H; lia|]).
  cbn [firstn]. apply be64_be_value.
Qed.

(** Export after a successful import: the blob read, with the buffer
    bytes past the fill count replaced by zeros. *)
Lemma sha_import_export (d d' : digest) (b : list byte) :
  length (x d) = 64%nat ->
  UnmarshalBinary d b = Done (d', None) ->
  MarshalBinary d'
  = Done (firstn 36 b
            ++ firstn (Z.to_nat (be_value (skipn 100 b) mod 64)) (skipn 36 b)
            ++ zeros (64 - Z.to_nat (be_value (skipn 100 b) mod 64))
            ++ skipn 100 b, None).
Proof.
  intros Hx HU.
  destruct (sha_UnmarshalBinary_cases d b Hx)
    as [(_ & E) | [(_ & _ & E) | (Ht & Hl & _)]];
    [rewrite E in HU; discriminate HU | rewrite E in HU; discriminate HU |].
  rewrite (sha_UnmarshalBinary_ok d b Hx Ht Hl) in HU.
  apply Done_inj in HU. apply (f_equal fst) in HU. cbn [fst] in HU. subst d'.
  assert (Hlen : length b = 108%nat)
    by (change marshaledSize with 108 in Hl; unfold lenZ in Hl; lia).
  assert (HL : firstn 8 (skipn 100 b) = skipn 100 b)
    by (apply firstn_all2; rewrite length_skipn; lia).
  rewrite HL.
  pose proof (Z.mod_pos_bound (be_value (skipn 100 b)) 64 ltac:(lia)) as Hn.
  rewrite sha_MarshalBinary_eq; cbn [h x nx len is224].
  2:{ rewrite length_firstn, length_skipn. lia. }
  2:{ lia. }
  unfold state_bytes, pending, magic_of. cbn [x nx is224].
  fold (magic_of d).
  rewrite !sha_firstn4_encode by (rewrite length_skipn; lia).
  rewrite <- HL at 3. rewrite sha_firstn8_encode by (rewrite length_skipn; lia).
  rewrite HL, firstn_firstn, Nat.min_l by lia.
  assert (H36 : firstn 36 b
                = firstn 4 b ++ firstn 4 (skipn 4 b) ++ firstn 4 (skipn 8 b)
                    ++ firstn 4 (skipn 12 b) ++ firstn 4 (skipn 16 b)
                    ++ firstn 4 (skipn 20 b) ++ firstn 4 (skipn 24 b)
                    ++ firstn 4 (skipn 28 b) ++ firstn 4 (skipn 32 b)).
  { change 36%nat with (4 + (4 + (4 + (4 + (4 + (4 + (4 + (4 + 4))))))))%nat.
    rewrite !firstn_plus, !skipn_skipn. reflexivity. }
  rewrite H36, Ht, <- !app_assoc. reflexivity.
Qed.

End Facts.
End Sha256Extra.

(* ================================================================== *)
(** * The properties of the specification *)

Import RtFacts BinaryFacts BlockFacts.

Section SpecProperties.

Variable c4 : Md5.words -> list byte -> Md5.words.
Variable asm : bool.
Variable c8 : Sha256.words -> list byte -> Sha256.words.

(** C1 -- chunking invariance.  For MD5, SHA-256 and SHA-224: writing
    the input to a fresh instance split into any number of writes of any
    sizes, then finalizing, yields a checksum, and it is the checksum
    obtained by writing the whole input in one call and finalizing, which
    is also what the one-shot function returns for the whole input. *)
Theorem chunking_invariance (chunks : list (list byte)) :
  (exists sum,
      Md5.digest_of_writes c4 asm Md5.New chunks = Done sum /\
      Md5.digest_of_writes c4 asm Md5.New [concat chunks] = Done sum /\
      Md5.SumData c4 asm (concat chunks) = Done sum)
  /\ (exists sum,
      Sha256.digest_of_writes c8 Sha256.New chunks = Done sum /\
      Sha256.digest_of_writes c8 Sha256.New [concat chunks] = Done sum /\
      Sha256.Sum256 c8 (concat chunks) = Done sum)
  /\ (exists sum,
      Sha256.digest_of_writes c8 Sha256.New224 chunks = Done sum /\
      Sha256.digest_of_writes c8 Sha256.New224 [concat chunks] = Done sum /\
      Sha256.Sum224 c8 (concat chunks) = Done sum).
Proof.
  assert (E4 : Md5.digest_of_writes c4 asm Md5.New [concat chunks]
               = Md5.digest_of_writes c4 asm Md5.New chunks).
  { rewrite !Md5Facts.md5_digest_of_writes_closed
      by apply Md5Facts.md5_New_consistent.
    cbn [concat]. rewrite app_nil_r. reflexivity. }
  assert (E8 : Sha256.digest_of_writes c8 Sha256.New [concat chunks]
               = Sha256.digest_of_writes c8 Sha256.New chunks).
  { rewrite !(Sha256Facts.sha_digest_of_writes_closed c8 Sha256.New)
      by apply Sha256Facts.sha_New_consistent.
    cbn [concat]. rewrite app_nil_r. reflexivity. }
  assert (E7 : Sha256.digest_of_writes c8 Sha256.New224 [concat chunks]
               = Sha256.digest_of_writes c8 Sha256.New224 chunks).
  { rewrite !(Sha256Facts.sha_digest_of_writes_closed c8 Sha256.New224)
      by apply Sha256Facts.sha_New224_consistent.
    cbn [concat]. rewrite app_nil_r. reflexivity. }
  rewrite Md5Facts.md5_SumData_eq, Sha256Facts.sha_Sum256_eq,
    Sha256Facts.sha_Sum224_eq, E4, E8, E7.
  rewrite Md5Facts.md5_digest_of_writes_closed
    by apply Md5Facts.md5_New_consistent.
  rewrite (Sha256Facts.sha_digest_of_writes_closed c8 Sha256.New)
    by apply Sha256Facts.sha_New_consistent.
  rewrite (Sha256Facts.sha_digest_of_writes_closed c8 Sha256.New224)
    by apply Sha256Facts.sha_New224_consistent.
  splits; eexists; splits; reflexivity.
Qed.

(** The two-write form of chunking invariance. *)
Lemma two_writes (a b : list byte) :
  Md5.digest_of_writes c4 asm Md5.New [a; b]
    = Md5.digest_of_writes c4 asm Md5.New [a ++ b]
  /\ Sha256.digest_of_writes c8 Sha256.New [a; b]
    = Sha256.digest_of_writes c8 Sha256.New [a ++ b]
  /\ Sha256.digest_of_writes c8 Sha256.New224 [a; b]
    = Sha256.digest_of_writes c8 Sha256.New224 [a ++ b].
Proof.
  rewrite !Md5Facts.md5_digest_of_writes_closed by apply Md5Facts.md5_New_consistent.
  rewrite !(Sha256Facts.sha_digest_of_writes_closed c8 Sha256.New)
    by apply Sha256Facts.sha_New_consistent.
  rewrite !(Sha256Facts.sha_digest_of_writes_closed c8 Sha256.New224)
    by apply Sha256Facts.sha_New224_consistent.
  cbn [concat]. rewrite !app_nil_r. auto.
Qed.

(** C2 -- non-destructive finalize.  After any sequence of prior writes
    on a fresh instance, [Sum] returns the very instance it was called on
    (state vector, buffer, fill count and total length unchanged), and the
    checksum obtained after further writes is the checksum of all the
    bytes of both phases, as if [Sum] had not been called in between. *)
Theorem sum_non_destructive
    (v224 : bool) (before : list (list byte)) (i : list byte)
    (more : list (list byte)) :
  (exists d out sum,
      Md5.run c4 asm Md5.New (map Md5.CallWrite before) = Done d /\
      Md5.Sum c4 asm d i = Done (d, out) /\
      (d1 <- Md5.run c4 asm Md5.New
               (map Md5.CallWrite before
                  ++ Md5.CallSum i :: map Md5.CallWrite more);;
       '(_, o) <- Md5.Sum c4 asm d1 [];; Done o) = Done sum /\
      Md5.digest_of_writes c4 asm Md5.New (before ++ more) = Done sum)
  /\ (let fresh := if v224 then Sha256.New224 else Sha256.New in
      exists d out sum,
      Sha256.run c8 fresh (map Sha256.CallWrite before) = Done d /\
      Sha256.Sum c8 d i = Done (d, out) /\
      (d1 <- Sha256.run c8 fresh
               (map Sha256.CallWrite before
                  ++ Sha256.CallSum i :: map Sha256.CallWrite more);;
       '(_, o) <- Sha256.Sum c8 d1 [];; Done o) = Done sum /\
      Sha256.digest_of_writes c8 fresh (before ++ more) = Done sum).
Proof.
  split.
  - destruct (Md5Facts.md5_run_writes c4 asm before Md5.New Md5Facts.md5_New_consistent)
      as (d & E & Hc & _).
    destruct (Md5Facts.md5_run_writes c4 asm more d Hc) as (d1 & E1 & Hc1 & _).
    exists d. eexists. eexists. split; [exact E|].
    split; [apply Md5Facts.md5_Sum_closed, Hc|].
    unfold Md5.digest_of_writes.
    rewrite map_app, !Md5Facts.md5_run_app, E. cbn [bind Md5.run Md5.exec].
    rewrite (Md5Facts.md5_Sum_closed c4 asm d i Hc). cbn [bind].
    rewrite E1. cbn [bind].
    rewrite (Md5Facts.md5_Sum_closed c4 asm d1 [] Hc1). cbn [bind].
    split; reflexivity.
  - cbv zeta. destruct (Sha256Facts.sha_fresh_consistent v224) as (Hf & _).
    destruct (Sha256Facts.sha_run_writes c8 before _ Hf) as (d & E & Hc & _).
    destruct (Sha256Facts.sha_run_writes c8 more d Hc) as (d1 & E1 & Hc1 & _).
    exists d. eexists. eexists. split; [exact E|].
    split; [apply Sha256Facts.sha_Sum_closed, Hc|].
    unfold Sha256.digest_of_writes.
    rewrite map_app, !Sha256Facts.sha_run_app, E. cbn [bind Sha256.run Sha256.exec].
    rewrite (Sha256Facts.sha_Sum_closed c8 d i Hc). cbn [bind].
    rewrite E1. cbn [bind].
    rewrite (Sha256Facts.sha_Sum_closed c8 d1 [] Hc1). cbn [bind].
    split; reflexivity.
Qed.

(** C3 -- finalization padding and length encoding.  For an instance
    holding any total length, the bytes that [checkSum] pushes through
    [Write] are one 0x80 byte, then [k] zero bytes with [k] the least
    count that brings the length to 56 mod 64, then an 8-byte field whose
    value is the bit length [total_len * 8] as a 64-bit number (eight
    times the low 61 bits of [total_len]), read little-endian for MD5 and
    big-endian for SHA-224/256; the padded length is a multiple of 64, and
    the final state vector is the compression of the buffered tail
    followed by exactly these bytes. *)
Theorem finalization_padding (d4 : Md5.digest) (d8 : Sha256.digest) :
  Md5.consistent d4 -> Sha256.consistent d8 ->
  (exists (k : nat) (L : list byte) (d' : Md5.digest),
      Md5.checkSum_padding d4 = Done (Byte.x80 :: zeros k ++ L) /\
      (k < 64)%nat /\ (Md5.len d4 + 1 + Z.of_nat k) mod 64 = 56 /\
      length L = 8%nat /\
      le_value L = uint64 (Md5.len d4 * 8) /\
      le_value L = 8 * (Md5.len d4 mod 2 ^ 61) /\
      (Md5.len d4 + lenZ (Byte.x80 :: zeros k ++ L)) mod 64 = 0 /\
      Md5.checkSum c4 asm d4 = Done (d', Md5.output (Md5.s d')) /\
      Md5.s d' = blocks c4 (Md5.s d4)
                   (Md5.pending d4 ++ Byte.x80 :: zeros k ++ L))
  /\ (exists (k : nat) (L sum : list byte) (d' : Sha256.digest),
      Sha256.checkSum_padding (Sha256.len d8) = Done (Byte.x80 :: zeros k) /\
      Sha256.checkSum_length (Sha256.len d8) = Done L /\
      (k < 64)%nat /\ (Sha256.len d8 + 1 + Z.of_nat k) mod 64 = 56 /\
      length L = 8%nat /\
      be_value L = uint64 (Sha256.len d8 * 8) /\
      be_value L = 8 * (Sha256.len d8 mod 2 ^ 61) /\
      (Sha256.len d8 + lenZ (Byte.x80 :: zeros k ++ L)) mod 64 = 0 /\
      Sha256.checkSum c8 d8 = Done (d', sum) /\
      Sha256.h d' = blocks c8 (Sha256.h d8)
                      (Sha256.pending d8 ++ Byte.x80 :: zeros k ++ L)).
Proof.
  intros H4 H8. split.
  - destruct (Md5Facts.md5_checkSum_closed c4 asm d4 H4) as (d' & E & _ & Hs).
    pose proof (Z.mod_pos_bound (55 - Md5.len d4) 64 ltac:(lia)) as Hk.
    exists (Z.to_nat ((55 - Md5.len d4) mod 64)),
      (le64 (uint64 (Md5.len d4 * 8))), d'.
    splits.
    + apply Md5Facts.md5_checkSum_padding_eq.
    + lia.
    + rewrite Z2Nat.id by lia. apply pad_reaches_56.
    + reflexivity.
    + rewrite le_value_le64. apply uint64_idem.
    + rewrite le_value_le64, uint64_idem. apply uint64_low61.
    + apply Md5Facts.md5_padding_total.
    + exact E.
    + exact Hs.
  - destruct (Sha256Facts.sha_checkSum_closed c8 d8 H8) as (d' & E & _ & Hs & _).
    pose proof (Z.mod_pos_bound (55 - Sha256.len d8) 64 ltac:(lia)) as Hk.
    exists (Z.to_nat ((55 - Sha256.len d8) mod 64)),
      (be64 (uint64 (Sha256.len d8 * 8))). eexists. exists d'.
    splits.
    + apply Sha256Facts.sha_checkSum_padding_eq.
    + apply Sha256Facts.sha_checkSum_length_eq.
    + lia.
    + rewrite Z2Nat.id by lia. apply pad_reaches_56.
    + reflexivity.
    + rewrite be_value_be64. apply uint64_idem.
    + rewrite be_value_be64, uint64_idem. apply uint64_low61.
    + apply Sha256Facts.sha_padding_total.
    + exact E.
    + exact Hs.
Qed.

(** C4 -- checkpoint round trip.  For an instance in mid-stream, the
    exported state imports into a fresh instance of the same algorithm
    and variant without error, the imported fill count is the total
    length mod 64, and identical further writes on the original and on
    the restored instance yield the same checksum. *)
Theorem checkpoint_roundtrip
    (v224 : bool) (prior4 : list Md5.call) (prior8 : list Sha256.call)
    (later : list (list byte)) :
  (forall w b, Md5.u32_words w -> Md5.u32_words (c4 w b)) ->
  (forall w b, Sha256.u32_words w -> Sha256.u32_words (c8 w b)) ->
  (exists d blob d' sum,
      Md5.run c4 asm Md5.New prior4 = Done d /\
      Md5.MarshalBinary d = Done (blob, None) /\
      Md5.UnmarshalBinary Md5.New blob = Done (d', None) /\
      Md5.nx d' = Md5.len d' mod 64 /\
      Md5.digest_of_writes c4 asm d later = Done sum /\
      Md5.digest_of_writes c4 asm d' later = Done sum)
  /\ (let fresh := if v224 then Sha256.New224 else Sha256.New in
      exists d blob d' sum,
      Sha256.run c8 fresh prior8 = Done d /\
      Sha256.MarshalBinary d = Done (blob, None) /\
      Sha256.UnmarshalBinary fresh blob = Done (d', None) /\
      Sha256.nx d' = Sha256.len d' mod 64 /\
      Sha256.digest_of_writes c8 d later = Done sum /\
      Sha256.digest_of_writes c8 d' later = Done sum).
Proof.
  intros Hu4 Hu8. split.
  - destruct (Md5Facts.md5_run_consistent c4 asm prior4 Md5.New
                Md5Facts.md5_New_consistent) as (d & E & Hc).
    pose proof (Md5Facts.md5_run_u32 c4 asm Hu4 prior4 Md5.New d
                  Md5Facts.md5_New_consistent Md5Facts.md5_New_u32 E) as Hu.
    destruct (Md5Facts.md5_roundtrip d Md5.New Hc Hu)
      as (blob & d' & EM & EU & Hc' & Hs & Hp & Hl & Hn);
      [apply Md5Facts.md5_New_consistent|].
    exists d, blob, d'. eexists. splits; try eassumption.
    + rewrite Hl. exact Hn.
    + apply Md5Facts.md5_digest_of_writes_closed, Hc.
    + rewrite Md5Facts.md5_digest_of_writes_closed by exact Hc'.
      rewrite Hs, Hp, Hl. reflexivity.
  - cbv zeta. destruct (Sha256Facts.sha_fresh_consistent v224) as (Hf & Hv & Huf).
    destruct (Sha256Facts.sha_run_consistent c8 prior8 _ Hf) as (d & E & Hc & Hvd).
    pose proof (Sha256Facts.sha_run_u32 c8 Hu8 prior8 _ d Hf Huf E) as Hu.
    destruct (Sha256Facts.sha_roundtrip d (if v224 then Sha256.New224 else Sha256.New)
                Hc Hu)
      as (blob & d' & EM & EU & Hc' & Hs & Hp & Hl & Hn & Hv');
      [apply Hf | congruence |].
    exists d, blob, d'. eexists. splits; try eassumption.
    + rewrite Hl. exact Hn.
    + apply Sha256Facts.sha_digest_of_writes_closed, Hc.
    + rewrite Sha256Facts.sha_digest_of_writes_closed by exact Hc'.
      rewrite Hs, Hp, Hl, Hv'. reflexivity.
Qed.

(** C5 -- import error taxonomy.  On every reachable instance and for
    every input: [UnmarshalBinary] returns the invalid-identifier error
    exactly when the first four bytes are not the magic tag of the
    receiver's algorithm and variant, the (different) invalid-size error
    exactly when the tag matches and the length is not [marshaledSize],
    and [nil] exactly when both match; one of the three always happens.
    A checkpoint of the other SHA variant is rejected with the identifier
    error.  [Write] returns a [nil] error and [Sum] returns. *)
Theorem import_error_taxonomy
    (v224 : bool) (calls4 : list Md5.call) (calls8 other8 : list Sha256.call)
    (b p i : list byte) :
  (exists d,
      Md5.run c4 asm Md5.New calls4 = Done d /\
      (Md5.UnmarshalBinary d b = Done (d, Some Md5.errIdentifier)
         <-> firstn 4 b <> Md5.magic) /\
      (Md5.UnmarshalBinary d b = Done (d, Some Md5.errSize)
         <-> firstn 4 b = Md5.magic /\ lenZ b <> Md5.marshaledSize) /\
      ((exists d', Md5.UnmarshalBinary d b = Done (d', None))
         <-> firstn 4 b = Md5.magic /\ lenZ b = Md5.marshaledSize) /\
      (exists d' e, Md5.UnmarshalBinary d b = Done (d', e) /\
         (e = None \/ e = Some Md5.errIdentifier \/ e = Some Md5.errSize)) /\
      Md5.errIdentifier <> Md5.errSize /\
      (exists d', Md5.Write c4 asm d p = Done (d', (lenZ p, None))) /\
      (exists out, Md5.Sum c4 asm d i = Done (d, out)))
  /\ (let fresh := if v224 then Sha256.New224 else Sha256.New in
      let other := if v224 then Sha256.New else Sha256.New224 in
      let magic := if v224 then Sha256.magic224 else Sha256.magic256 in
      exists d,
      Sha256.run c8 fresh calls8 = Done d /\
      (Sha256.UnmarshalBinary d b = Done (d, Some Sha256.errIdentifier)
         <-> firstn 4 b <> magic) /\
      (Sha256.UnmarshalBinary d b = Done (d, Some Sha256.errSize)
         <-> firstn 4 b = magic /\ lenZ b <> Sha256.marshaledSize) /\
      ((exists d', Sha256.UnmarshalBinary d b = Done (d', None))
         <-> firstn 4 b = magic /\ lenZ b = Sha256.marshaledSize) /\
      (exists d' e, Sha256.UnmarshalBinary d b = Done (d', e) /\
         (e = None \/ e = Some Sha256.errIdentifier
          \/ e = Some Sha256.errSize)) /\
      Sha256.errIdentifier <> Sha256.errSize /\
      (exists d2 blob2,
         Sha256.run c8 other other8 = Done d2 /\
         Sha256.MarshalBinary d2 = Done (blob2, None) /\
         Sha256.UnmarshalBinary d blob2
           = Done (d, Some Sha256.errIdentifier)) /\
      (exists d', Sha256.Write c8 d p = Done (d', (lenZ p, None))) /\
      (exists out, Sha256.Sum c8 d i = Done (d, out))).
Proof.
  split.
  - destruct (Md5Facts.md5_run_consistent c4 asm calls4 Md5.New
                Md5Facts.md5_New_consistent) as (d & E & Hc).
    pose proof Hc as ((Hx & _) & _).
    destruct (Md5Facts.md5_taxonomy d b Hx) as (T1 & T2 & T3 & T4).
    destruct (Md5Facts.md5_Write_consistent c4 asm d p Hc) as (d1 & E1 & _).
    exists d. splits; try assumption.
    + apply Md5Facts.md5_errors_distinct.
    + exists d1. exact E1.
    + eexists. apply Md5Facts.md5_Sum_closed, Hc.
  - cbv zeta.
    destruct (Sha256Facts.sha_fresh_consistent v224) as (Hf & Hv & _).
    destruct (Sha256Facts.sha_run_consistent c8 calls8 _ Hf)
      as (d & E & Hc & Hvd).
    pose proof Hc as ((Hx & _) & _).
    assert (Hm : Sha256.magic_of d
                 = if v224 then Sha256.magic224 else Sha256.magic256).
    { unfold Sha256.magic_of. rewrite Hvd, Hv. reflexivity. }
    destruct (Sha256Facts.sha_taxonomy d b Hx) as (T1 & T2 & T3 & T4).
    rewrite Hm in T1, T2, T3.
    destruct (Sha256Facts.sha_Write_consistent c8 d p Hc) as (d1 & E1 & _).
    exists d. splits; try assumption.
    + apply Sha256Facts.sha_errors_distinct.
    + (* a checkpoint of the other variant *)
      destruct (Sha256Facts.sha_fresh_consistent (negb v224))
        as (Hf2 & Hv2 & _).
      replace (if negb v224 then Sha256.New224 else Sha256.New)
        with (if v224 then Sha256.New else Sha256.New224) in *
        by (destruct v224; reflexivity).
      destruct (Sha256Facts.sha_run_consistent c8 other8 _ Hf2)
        as (d2 & E2 & Hc2 & Hvd2).
      pose proof Hc2 as ((Hx2 & Hn2) & _). unfold Sha256.chunk in Hn2.
      exists d2. eexists. split; [exact E2|].
      split; [apply Sha256Facts.sha_MarshalBinary_eq; [exact Hx2 | lia]|].
      apply Sha256Facts.sha_UnmarshalBinary_identifier.
      rewrite Hm. unfold Sha256.magic_of. rewrite Hvd2, Hv2.
      destruct v224; cbn [negb app firstn]; discriminate.
    + exists d1. exact E1.
    + eexists. apply Sha256Facts.sha_Sum_closed, Hc.
Qed.

(** C6 (amended) -- serialized-state layout.  [MarshalBinary] returns a
    blob of 92 bytes for MD5 and of 108 bytes for SHA-256/SHA-224: the
    4-byte magic tag, each state word as 4 big-endian bytes, the 64-byte
    buffer holding the buffered tail followed by zeros, and the total
    length as 8 big-endian bytes. *)
Theorem marshaled_layout (d4 : Md5.digest) (d8 : Sha256.digest) :
  Md5.wf d4 -> Sha256.wf d8 ->
  (exists blob,
      Md5.MarshalBinary d4 = Done (blob, None) /\
      lenZ blob = 92 /\ Md5.marshaledSize = 92 /\
      firstn 4 blob = Md5.magic /\
      (let '(w0, w1, w2, w3) := Md5.s d4 in
       be_value (firstn 4 (skipn 4 blob)) = uint32 w0 /\
       be_value (firstn 4 (skipn 8 blob)) = uint32 w1 /\
       be_value (firstn 4 (skipn 12 blob)) = uint32 w2 /\
       be_value (firstn 4 (skipn 16 blob)) = uint32 w3) /\
      firstn 64 (skipn 20 blob)
        = Md5.pending d4 ++ zeros (64 - Z.to_nat (Md5.nx d4)) /\
      be_value (skipn 84 blob) = uint64 (Md5.len d4))
  /\ (exists blob,
      Sha256.MarshalBinary d8 = Done (blob, None) /\
      lenZ blob = 108 /\ Sha256.marshaledSize = 108 /\
      firstn 4 blob
        = (if Sha256.is224 d8 then Sha256.magic224 else Sha256.magic256) /\
      (let '(h0, h1, h2, h3, h4, h5, h6, h7) := Sha256.h d8 in
       be_value (firstn 4 (skipn 4 blob)) = uint32 h0 /\
       be_value (firstn 4 (skipn 8 blob)) = uint32 h1 /\
       be_value (firstn 4 (skipn 12 blob)) = uint32 h2 /\
       be_value (firstn 4 (skipn 16 blob)) = uint32 h3 /\
       be_value (firstn 4 (skipn 20 blob)) = uint32 h4 /\
       be_value (firstn 4 (skipn 24 blob)) = uint32 h5 /\
       be_value (firstn 4 (skipn 28 blob)) = uint32 h6 /\
       be_value (firstn 4 (skipn 32 blob)) = uint32 h7) /\
      firstn 64 (skipn 36 blob)
        = Sha256.pending d8 ++ zeros (64 - Z.to_nat (Sha256.nx d8)) /\
      be_value (skipn 100 blob) = uint64 (Sha256.len d8)).
Proof.
  intros Hw4 Hw8. split.
  - pose proof Hw4 as [Hx Hn]. unfold Md5.BlockSize in Hn.
    pose proof (Md5Facts.md5_pending_length d4 Hw4) as Hpl.
    eexists. split; [apply Md5Facts.md5_MarshalBinary_eq; [exact Hx | lia]|].
    unfold Md5.state_bytes. destruct (Md5.s d4) as [[[w0 w1] w2] w3].
    set (B := Md5.pending d4 ++ zeros (64 - Z.to_nat (Md5.nx d4))).
    assert (HB : length B = 64%nat)
      by (unfold B; rewrite length_app, length_zeros; lia).
    replace (Md5.pending d4 ++ zeros (64 - Z.to_nat (Md5.nx d4))
               ++ be64 (Md5.len d4))
      with (B ++ be64 (Md5.len d4)) by (unfold B; rewrite app_assoc; reflexivity).
    change (skipn 20 (Md5.magic ++ (be32 w0 ++ be32 w1 ++ be32 w2 ++ be32 w3)
                        ++ B ++ be64 (Md5.len d4)))
      with (B ++ be64 (Md5.len d4)).
    change 84%nat with (64 + 20)%nat. rewrite <- (skipn_skipn 64 20).
    change (skipn 20 (Md5.magic ++ (be32 w0 ++ be32 w1 ++ be32 w2 ++ be32 w3)
                        ++ B ++ be64 (Md5.len d4)))
      with (B ++ be64 (Md5.len d4)).
    rewrite (firstn_app_exact 64 B), (skipn_app_exact 64 B) by exact HB.
    splits; try reflexivity; try apply be_value_be32; try apply be_value_be64.
    unfold lenZ. rewrite !length_app, HB. reflexivity.
  - pose proof Hw8 as [Hx Hn]. unfold Sha256.chunk in Hn.
    pose proof (Sha256Facts.sha_pending_length d8 Hw8) as Hpl.
    eexists. split; [apply Sha256Facts.sha_MarshalBinary_eq; [exact Hx | lia]|].
    unfold Sha256.state_bytes.
    destruct (Sha256.h d8) as [[[[[[[h0 h1] h2] h3] h4] h5] h6] h7].
    set (B := Sha256.pending d8 ++ zeros (64 - Z.to_nat (Sha256.nx d8))).
    assert (HB : length B = 64%nat)
      by (unfold B; rewrite length_app, length_zeros; lia).
    replace (Sha256.pending d8 ++ zeros (64 - Z.to_nat (Sha256.nx d8))
               ++ be64 (Sha256.len d8))
      with (B ++ be64 (Sha256.len d8))
      by (unfold B; rewrite app_assoc; reflexivity).
    unfold Sha256.magic_of.
    set (m := if Sha256.is224 d8 then Sha256.magic224 else Sha256.magic256).
    assert (Hm : exists m0 m1 m2 m3, m = [m0; m1; m2; m3])
      by (unfold m; destruct (Sha256.is224 d8); do 4 eexists; reflexivity).
    destruct Hm as (m0 & m1 & m2 & m3 & Hm). rewrite Hm.
    change (skipn 36 ([m0; m1; m2; m3]
                        ++ (be32 h0 ++ be32 h1 ++ be32 h2 ++ be32 h3 ++ be32 h4
                              ++ be32 h5 ++ be32 h6 ++ be32 h7)
                        ++ B ++ be64 (Sha256.len d8)))
      with (B ++ be64 (Sha256.len d8)).
    change 100%nat with (64 + 36)%nat. rewrite <- (skipn_skipn 64 36).
    change (skipn 36 ([m0; m1; m2; m3]
                        ++ (be32 h0 ++ be32 h1 ++ be32 h2 ++ be32 h3 ++ be32 h4
                              ++ be32 h5 ++ be32 h6 ++ be32 h7)
                        ++ B ++ be64 (Sha256.len d8)))
      with (B ++ be64 (Sha256.len d8)).
    rewrite (firstn_app_exact 64 B), (skipn_app_exact 64 B) by exact HB.
    splits; try reflexivity; try apply be_value_be32; try apply be_value_be64.
    unfold lenZ. rewrite !length_app, HB. reflexivity.
Qed.

(** C7 -- buffer-fill invariant.  After any sequence of calls on a fresh
    instance, the fill count is the total length mod the block size, and
    it lies in [0, 64). *)
Theorem buffer_fill_invariant
    (v224 : bool) (calls4 : list Md5.call) (calls8 : list Sha256.call) :
  (exists d,
      Md5.run c4 asm Md5.New calls4 = Done d /\
      Md5.nx d = Md5.len d mod Md5.BlockSize /\
      0 <= Md5.nx d < Md5.BlockSize)
  /\ (exists d,
      Sha256.run c8 (if v224 then Sha256.New224 else Sha256.New) calls8
        = Done d /\
      Sha256.nx d = Sha256.len d mod Sha256.BlockSize /\
      0 <= Sha256.nx d < Sha256.BlockSize).
Proof.
  split.
  - destruct (Md5Facts.md5_run_consistent c4 asm calls4 Md5.New
                Md5Facts.md5_New_consistent) as (d & E & (_ & Hn) & Hnx & _).
    exists d. auto.
  - destruct (Sha256Facts.sha_fresh_consistent v224) as (Hf & _).
    destruct (Sha256Facts.sha_run_consistent c8 calls8 _ Hf)
      as (d & E & ((_ & Hn) & Hnx & _) & _).
    exists d. auto.
Qed.

(** C8 -- the fatal check of [checkSum] is unreachable.  After any
    sequence of calls on a fresh instance, [checkSum] returns (it does not
    panic), and the fill count of the finalized copy is 0. *)
Theorem finalization_never_panics
    (v224 : bool) (calls4 : list Md5.call) (calls8 : list Sha256.call) :
  (exists d d' sum,
      Md5.run c4 asm Md5.New calls4 = Done d /\
      Md5.checkSum c4 asm d = Done (d', sum) /\ Md5.nx d' = 0)
  /\ (exists d d' sum,
      Sha256.run c8 (if v224 then Sha256.New224 else Sha256.New) calls8
        = Done d /\
      Sha256.checkSum c8 d = Done (d', sum) /\ Sha256.nx d' = 0).
Proof.
  split.
  - destruct (Md5Facts.md5_run_consistent c4 asm calls4 Md5.New
                Md5Facts.md5_New_consistent) as (d & E & Hc).
    destruct (Md5Facts.md5_checkSum_closed c4 asm d Hc) as (d' & E' & Hz & _).
    exists d, d'. eexists. eauto.
  - destruct (Sha256Facts.sha_fresh_consistent v224) as (Hf & _).
    destruct (Sha256Facts.sha_run_consistent c8 calls8 _ Hf) as (d & E & Hc & _).
    destruct (Sha256Facts.sha_checkSum_closed c8 d Hc) as (d' & E' & Hz & _).
    exists d, d'. eexists. eauto.
Qed.

End SpecProperties.

(** C9 -- import totality.  For every receiver (with its 64-byte buffer
    array) and every input, the empty and the short ones included,
    [UnmarshalBinary] returns: it yields [nil] or an error, never a
    panic. *)
Theorem import_total (d4 : Md5.digest) (d8 : Sha256.digest) (b : list byte) :
  length (Md5.x d4) = 64%nat -> length (Sha256.x d8) = 64%nat ->
  (exists d' e, Md5.UnmarshalBinary d4 b = Done (d', e))
  /\ (exists d' e, Sha256.UnmarshalBinary d8 b = Done (d', e)).
Proof.
  intros H4 H8. split.
  - destruct (Md5Facts.md5_UnmarshalBinary_cases d4 b H4)
      as [(_ & E) | [(_ & _ & E) | (_ & _ & d' & E & _)]];
      rewrite E; eauto.
  - destruct (Sha256Facts.sha_UnmarshalBinary_cases d8 b H8)
      as [(_ & E) | [(_ & _ & E) | (_ & _ & d' & E & _)]];
      rewrite E; eauto.
Qed.

(** C10 -- import atomicity.  Whenever [UnmarshalBinary] returns an
    error, it is one of the two documented errors and the receiver (state
    vector, buffer, fill count, total length) is exactly as it was before
    the call. *)
Theorem import_atomic
    (d4 d4' : Md5.digest) (d8 d8' : Sha256.digest) (b : list byte)
    (e : error) :
  (Md5.UnmarshalBinary d4 b = Done (d4', Some e) ->
     d4' = d4 /\ (e = Md5.errIdentifier \/ e = Md5.errSize))
  /\ (Sha256.UnmarshalBinary d8 b = Done (d8', Some e) ->
     d8' = d8 /\ (e = Sha256.errIdentifier \/ e = Sha256.errSize)).
Proof.
  split.
  - apply Md5Facts.md5_UnmarshalBinary_error.
  - apply Sha256Facts.sha_UnmarshalBinary_error.
Qed.

(** ** Closed instances *)

(** C6 as stated fails: the SHA-256 checkpoint of a fresh instance has
    108 bytes, not 136. *)
Lemma marshaled_size_sha256_counterexample :
  exists blob,
    Sha256.MarshalBinary Sha256.New = Done (blob, None) /\
    lenZ blob = 108 /\ lenZ blob <> 136.
Proof.
  eexists. split; [vm_compute; reflexivity|].
  split; [reflexivity | discriminate].
Qed.

(** [finalization_padding] at fresh MD5 and SHA-224 instances. *)
Lemma finalization_padding_witness :
  Md5.consistent Md5.New /\ Sha256.consistent Sha256.New224 /\
  ((exists (k : nat) (L : list byte) (d' : Md5.digest),
      Md5.checkSum_padding Md5.New = Done (Byte.x80 :: zeros k ++ L) /\
      (k < 64)%nat /\ (Md5.len Md5.New + 1 + Z.of_nat k) mod 64 = 56 /\
      length L = 8%nat /\
      le_value L = uint64 (Md5.len Md5.New * 8) /\
      le_value L = 8 * (Md5.len Md5.New mod 2 ^ 61) /\
      (Md5.len Md5.New + lenZ (Byte.x80 :: zeros k ++ L)) mod 64 = 0 /\
      Md5.checkSum Md5.sample_compress true Md5.New
        = Done (d', Md5.output (Md5.s d')) /\
      Md5.s d' = blocks Md5.sample_compress (Md5.s Md5.New)
                   (Md5.pending Md5.New ++ Byte.x80 :: zeros k ++ L))
   /\ (exists (k : nat) (L sum : list byte) (d' : Sha256.digest),
      Sha256.checkSum_padding (Sha256.len Sha256.New224)
        = Done (Byte.x80 :: zeros k) /\
      Sha256.checkSum_length (Sha256.len Sha256.New224) = Done L /\
      (k < 64)%nat /\ (Sha256.len Sha256.New224 + 1 + Z.of_nat k) mod 64 = 56 /\
      length L = 8%nat /\
      be_value L = uint64 (Sha256.len Sha256.New224 * 8) /\
      be_value L = 8 * (Sha256.len Sha256.New224 mod 2 ^ 61) /\
      (Sha256.len Sha256.New224 + lenZ (Byte.x80 :: zeros k ++ L)) mod 64 = 0 /\
      Sha256.checkSum Sha256.sample_compress Sha256.New224 = Done (d', sum) /\
      Sha256.h d' = blocks Sha256.sample_compress (Sha256.h Sha256.New224)
                      (Sha256.pending Sha256.New224
                         ++ Byte.x80 :: zeros k ++ L))).
Proof.
  assert (H4 : Md5.consistent Md5.New)
    by (vm_compute; repeat split; (reflexivity || discriminate)).
  assert (H8 : Sha256.consistent Sha256.New224)
    by (vm_compute; repeat split; (reflexivity || discriminate)).
  split; [exact H4|]. split; [exact H8|].
  exact (finalization_padding Md5.sample_compress true Sha256.sample_compress
           Md5.New Sha256.New224 H4 H8).
Defined.

(** [checkpoint_roundtrip] with the stand-in compression functions, after
    a two-byte write, for MD5 and SHA-224. *)
Lemma checkpoint_roundtrip_witness :
  (forall w b, Md5.u32_words w -> Md5.u32_words (Md5.sample_compress w b)) /\
  (forall w b, Sha256.u32_words w -> Sha256.u32_words (Sha256.sample_compress w b)) /\
  ((exists d blob d' sum,
      Md5.run Md5.sample_compress false Md5.New
        [Md5.CallWrite [Byte.x61; Byte.x62]] = Done d /\
      Md5.MarshalBinary d = Done (blob, None) /\
      Md5.UnmarshalBinary Md5.New blob = Done (d', None) /\
      Md5.nx d' = Md5.len d' mod 64 /\
      Md5.digest_of_writes Md5.sample_compress false d [[Byte.x63]] = Done sum /\
      Md5.digest_of_writes Md5.sample_compress false d' [[Byte.x63]] = Done sum)
   /\ (let fresh := if true then Sha256.New224 else Sha256.New in
      exists d blob d' sum,
      Sha256.run Sha256.sample_compress fresh
        [Sha256.CallWrite [Byte.x61; Byte.x62]] = Done d /\
      Sha256.MarshalBinary d = Done (blob, None) /\
      Sha256.UnmarshalBinary fresh blob = Done (d', None) /\
      Sha256.nx d' = Sha256.len d' mod 64 /\
      Sha256.digest_of_writes Sha256.sample_compress d [[Byte.x63]] = Done sum /\
      Sha256.digest_of_writes Sha256.sample_compress d' [[Byte.x63]] = Done sum)).
Proof.
  split; [exact Md5Facts.md5_sample_u32|]. split; [exact Sha256Facts.sha_sample_u32|].
  exact (checkpoint_roundtrip Md5.sample_compress false Sha256.sample_compress
           true [Md5.CallWrite [Byte.x61; Byte.x62]]
           [Sha256.CallWrite [Byte.x61; Byte.x62]] [[Byte.x63]]
           Md5Facts.md5_sample_u32 Sha256Facts.sha_sample_u32).
Defined.

(** [marshaled_layout] at fresh MD5 and SHA-256 instances. *)
Lemma marshaled_layout_witness :
  Md5.wf Md5.New /\ Sha256.wf Sha256.New /\
  ((exists blob,
      Md5.MarshalBinary Md5.New = Done (blob, None) /\
      lenZ blob = 92 /\ Md5.marshaledSize = 92 /\
      firstn 4 blob = Md5.magic /\
      (let '(w0, w1, w2, w3) := Md5.s Md5.New in
       be_value (firstn 4 (skipn 4 blob)) = uint32 w0 /\
       be_value (firstn 4 (skipn 8 blob)) = uint32 w1 /\
       be_value (firstn 4 (skipn 12 blob)) = uint32 w2 /\
       be_value (firstn 4 (skipn 16 blob)) = uint32 w3) /\
      firstn 64 (skipn 20 blob)
        = Md5.pending Md5.New ++ zeros (64 - Z.to_nat (Md5.nx Md5.New)) /\
      be_value (skipn 84 blob) = uint64 (Md5.len Md5.New))
   /\ (exists blob,
      Sha256.MarshalBinary Sha256.New = Done (blob, None) /\
      lenZ blob = 108 /\ Sha256.marshaledSize = 108 /\
      firstn 4 blob
        = (if Sha256.is224 Sha256.New then Sha256.magic224
           else Sha256.magic256) /\
      (let '(h0, h1, h2, h3, h4, h5, h6, h7) := Sha256.h Sha256.New in
       be_value (firstn 4 (skipn 4 blob)) = uint32 h0 /\
       be_value (firstn 4 (skipn 8 blob)) = uint32 h1 /\
       be_value (firstn 4 (skipn 12 blob)) = uint32 h2 /\
       be_value (firstn 4 (skipn 16 blob)) = uint32 h3 /\
       be_value (firstn 4 (skipn 20 blob)) = uint32 h4 /\
       be_value (firstn 4 (skipn 24 blob)) = uint32 h5 /\
       be_value (firstn 4 (skipn 28 blob)) = uint32 h6 /\
       be_value (firstn 4 (skipn 32 blob)) = uint32 h7) /\
      firstn 64 (skipn 36 blob)
        = Sha256.pending Sha256.New
            ++ zeros (64 - Z.to_nat (Sha256.nx Sha256.New)) /\
      be_value (skipn 100 blob) = uint64 (Sha256.len Sha256.New))).
Proof.
  assert (H4 : Md5.wf Md5.New) by (vm_compute; repeat split; (reflexivity || discriminate)).
  assert (H8 : Sha256.wf Sha256.New) by (vm_compute; repeat split; (reflexivity || discriminate)).
  split; [exact H4|]. split; [exact H8|].
  exact (marshaled_layout Md5.New Sha256.New H4 H8).
Defined.

(** [import_total] at a two-byte input. *)
Lemma import_total_witness :
  length (Md5.x Md5.New) = 64%nat /\ length (Sha256.x Sha256.New) = 64%nat /\
  ((exists d' e, Md5.UnmarshalBinary Md5.New [Byte.x6d; Byte.x64] = Done (d', e))
   /\ (exists d' e,
         Sha256.UnmarshalBinary Sha256.New [Byte.x6d; Byte.x64] = Done (d', e))).
Proof.
  split; [reflexivity|]. split; [reflexivity|].
  apply (import_total Md5.New Sha256.New [Byte.x6d; Byte.x64]); reflexivity.
Defined.

(** [import_atomic] at an import that fails on the tag. *)
Lemma import_atomic_witness :
  Md5.UnmarshalBinary Md5.New [Byte.x6d; Byte.x64]
    = Done (Md5.New, Some Md5.errIdentifier) /\
  (Md5.New = Md5.New /\
   (Md5.errIdentifier = Md5.errIdentifier
    \/ Md5.errIdentifier = Md5.errSize)).
Proof.
  split; [reflexivity|].
  apply (proj1 (import_atomic Md5.New Md5.New Sha256.New Sha256.New
                  [Byte.x6d; Byte.x64] Md5.errIdentifier)).
  reflexivity.
Defined.

(* ================================================================== *)
(** * Further properties of the code *)

Section FurtherProperties.

Variable c4 : Md5.words -> list byte -> Md5.words.
Variable asm : bool.
Variable c8 : Sha256.words -> list byte -> Sha256.words.

(** X1 -- [Reset] makes an instance reusable.  After any sequence of
    calls, [Reset] leaves the initial constants of the instance's variant,
    a fill count and a total length of 0, and the checksum of whatever is
    written next is the one a fresh instance of that variant gives; the
    stale bytes left in the buffer play no part. *)
Theorem reset_reuses_instance
    (v224 : bool) (calls4 : list Md5.call) (calls8 : list Sha256.call)
    (chunks : list (list byte)) :
  (exists d,
      Md5.run c4 asm Md5.New calls4 = Done d /\
      Md5.s (Md5.Reset d)
        = (Md5.init0, Md5.init1, Md5.init2, Md5.init3) /\
      Md5.nx (Md5.Reset d) = 0 /\ Md5.len (Md5.Reset d) = 0 /\
      Md5.x (Md5.Reset d) = Md5.x d /\
      Md5.digest_of_writes c4 asm (Md5.Reset d) chunks
        = Md5.digest_of_writes c4 asm Md5.New chunks)
  /\ (let fresh := if v224 then Sha256.New224 else Sha256.New in
      exists d,
      Sha256.run c8 fresh calls8 = Done d /\
      Sha256.h (Sha256.Reset d) = Sha256.h fresh /\
      Sha256.is224 (Sha256.Reset d) = v224 /\
      Sha256.nx (Sha256.Reset d) = 0 /\ Sha256.len (Sha256.Reset d) = 0 /\
      Sha256.x (Sha256.Reset d) = Sha256.x d /\
      Sha256.digest_of_writes c8 (Sha256.Reset d) chunks
        = Sha256.digest_of_writes c8 fresh chunks).
Proof.
  split.
  - destruct (Md5Facts.md5_run_consistent c4 asm calls4 Md5.New
                Md5Facts.md5_New_consistent) as (d & E & (Hx & _) & _).
    exists d. splits; try reflexivity; [exact E|].
    rewrite !Md5Facts.md5_digest_of_writes_closed
      by (apply Md5Extra.md5_Reset_consistent, Hx
          || apply Md5Facts.md5_New_consistent).
    reflexivity.
  - cbv zeta.
    destruct (Sha256Facts.sha_fresh_consistent v224) as (Hf & Hv & _).
    destruct (Sha256Facts.sha_run_consistent c8 calls8 _ Hf)
      as (d & E & ((Hx & _) & _) & Hvd).
    destruct (Sha256Extra.sha_Reset_variant d) as (Hh & Hr).
    assert (Hh' : Sha256.h (Sha256.Reset d)
                  = Sha256.h (if v224 then Sha256.New224 else Sha256.New)).
    { rewrite Hh, Hvd, Hv. destruct v224; reflexivity. }
    assert (Hn : Sha256.nx (Sha256.Reset d) = 0
                 /\ Sha256.len (Sha256.Reset d) = 0
                 /\ Sha256.x (Sha256.Reset d) = Sha256.x d)
      by (unfold Sha256.Reset; destruct (Sha256.is224 d); auto).
    destruct Hn as (Hn & Hl & Hxx).
    exists d. splits; try assumption; [congruence|].
    rewrite (Sha256Facts.sha_digest_of_writes_closed c8 (Sha256.Reset d))
      by (apply Sha256Extra.sha_Reset_consistent, Hx).
    rewrite (Sha256Facts.sha_digest_of_writes_closed c8 _ chunks Hf).
    unfold Sha256.pending. rewrite Hh', Hr, Hvd, Hn, Hl.
    replace (Sha256.nx (if v224 then Sha256.New224 else Sha256.New)) with 0
      by (destruct v224; reflexivity).
    replace (Sha256.len (if v224 then Sha256.New224 else Sha256.New)) with 0
      by (destruct v224; reflexivity).
    rewrite Hv. reflexivity.
Qed.

(** X2 -- encode then decode.  The bytes [appendUint32] / [appendUint64]
    add to a slice are 4 / 8 in number, leave the slice's content in
    front, and [consumeUint32] / [consumeUint64] read from them the value
    that was appended (as a 32-bit / 64-bit number) and return the bytes
    that follow. *)
Theorem append_consume_roundtrip (l r : list byte) (v : Z) :
  (exists bs,
      Md5.appendUint32 l v = Done (l ++ bs) /\ length bs = 4%nat /\
      Md5.consumeUint32 (bs ++ r) = Done (r, uint32 v))
  /\ (exists bs,
      Md5.appendUint64 l v = Done (l ++ bs) /\ length bs = 8%nat /\
      Md5.consumeUint64 (bs ++ r) = Done (r, uint64 v))
  /\ (exists bs,
      Sha256.appendUint32 l v = Done (l ++ bs) /\ length bs = 4%nat /\
      Sha256.consumeUint32 (bs ++ r) = Done (r, uint32 v))
  /\ (exists bs,
      Sha256.appendUint64 l v = Done (l ++ bs) /\ length bs = 8%nat /\
      Sha256.consumeUint64 (bs ++ r) = Done (r, uint64 v)).
Proof.
  splits.
  - exists (be32 v). split; [apply Md5Facts.md5_appendUint32_eq|].
    split; [reflexivity|].
    rewrite Md5Facts.md5_consumeUint32_eq
      by (rewrite length_app; cbn [length be32]; lia).
    change (skipn 4 (be32 v ++ r)) with r.
    change (firstn 4 (be32 v ++ r)) with (be32 v).
    rewrite be_value_be32. reflexivity.
  - exists (be64 v). split; [apply Md5Facts.md5_appendUint64_eq|].
    split; [reflexivity|].
    rewrite Md5Facts.md5_consumeUint64_eq
      by (rewrite length_app; cbn [length be64]; lia).
    change (skipn 8 (be64 v ++ r)) with r.
    change (firstn 8 (be64 v ++ r)) with (be64 v).
    rewrite be_value_be64. reflexivity.
  - exists (be32 v). split; [apply Sha256Facts.sha_appendUint32_eq|].
    split; [reflexivity|].
    rewrite Sha256Facts.sha_consumeUint32_eq
      by (rewrite length_app; cbn [length be32]; lia).
    change (skipn 4 (be32 v ++ r)) with r.
    change (firstn 4 (be32 v ++ r)) with (be32 v).
    rewrite be_value_be32. reflexivity.
  - exists (be64 v). split; [apply Sha256Facts.sha_appendUint64_eq|].
    split; [reflexivity|].
    rewrite Sha256Facts.sha_consumeUint64_eq
      by (rewrite length_app; cbn [length be64]; lia).
    change (skipn 8 (be64 v ++ r)) with r.
    change (firstn 8 (be64 v ++ r)) with (be64 v).
    rewrite be_value_be64. reflexivity.
Qed.

(** X3 -- decode then encode.  The value [consumeUint32] reads from four
    bytes is a 32-bit number, and appending it with [appendUint32] writes
    the same four bytes; likewise for eight bytes and 64 bits. *)
Theorem consume_append_roundtrip
    (b0 b1 b2 b3 b4 b5 b6 b7 : byte) (l r : list byte) :
  (exists v,
      Md5.consumeUint32 (b0 :: b1 :: b2 :: b3 :: r) = Done (r, v) /\
      0 <= v < 2 ^ 32 /\
      Md5.appendUint32 l v = Done (l ++ [b0; b1; b2; b3]))
  /\ (exists v,
      Md5.consumeUint64 (b0 :: b1 :: b2 :: b3 :: b4 :: b5 :: b6 :: b7 :: r)
        = Done (r, v) /\
      0 <= v < 2 ^ 64 /\
      Md5.appendUint64 l v = Done (l ++ [b0; b1; b2; b3; b4; b5; b6; b7]))
  /\ (exists v,
      Sha256.consumeUint32 (b0 :: b1 :: b2 :: b3 :: r) = Done (r, v) /\
      0 <= v < 2 ^ 32 /\
      Sha256.appendUint32 l v = Done (l ++ [b0; b1; b2; b3]))
  /\ (exists v,
      Sha256.consumeUint64 (b0 :: b1 :: b2 :: b3 :: b4 :: b5 :: b6 :: b7 :: r)
        = Done (r, v) /\
      0 <= v < 2 ^ 64 /\
      Sha256.appendUint64 l v = Done (l ++ [b0; b1; b2; b3; b4; b5; b6; b7])).
Proof.
  splits.
  - exists (be_value [b0; b1; b2; b3]).
    split; [apply Md5Facts.md5_consumeUint32_eq; cbn [length]; lia|].
    split; [apply be_value_range4|].
    rewrite Md5Facts.md5_appendUint32_eq, CodecFacts.be32_be_value.
    reflexivity.
  - exists (be_value [b0; b1; b2; b3; b4; b5; b6; b7]).
    split; [apply Md5Facts.md5_consumeUint64_eq; cbn [length]; lia|].
    split; [apply be_value_range8|].
    rewrite Md5Facts.md5_appendUint64_eq, CodecFacts.be64_be_value.
    reflexivity.
  - exists (be_value [b0; b1; b2; b3]).
    split; [apply Sha256Facts.sha_consumeUint32_eq; cbn [length]; lia|].
    split; [apply be_value_range4|].
    rewrite Sha256Facts.sha_appendUint32_eq, CodecFacts.be32_be_value.
    reflexivity.
  - exists (be_value [b0; b1; b2; b3; b4; b5; b6; b7]).
    split; [apply Sha256Facts.sha_consumeUint64_eq; cbn [length]; lia|].
    split; [apply be_value_range8|].
    rewrite Sha256Facts.sha_appendUint64_eq, CodecFacts.be64_be_value.
    reflexivity.
Qed.

(** X4 -- bounds of the decoders.  [consumeUint32] panics exactly on
    inputs of fewer than 4 bytes and [consumeUint64] exactly on inputs of
    fewer than 8 bytes; on longer inputs they return the input without
    its first 4 / 8 bytes. *)
Theorem consume_bounds (b : list byte) :
  ((exists m, Md5.consumeUint32 b = Panic m) <-> (length b < 4)%nat)
  /\ ((exists v, Md5.consumeUint32 b = Done (skipn 4 b, v))
      <-> (4 <= length b)%nat)
  /\ ((exists m, Md5.consumeUint64 b = Panic m) <-> (length b < 8)%nat)
  /\ ((exists v, Md5.consumeUint64 b = Done (skipn 8 b, v))
      <-> (8 <= length b)%nat)
  /\ ((exists m, Sha256.consumeUint32 b = Panic m) <-> (length b < 4)%nat)
  /\ ((exists v, Sha256.consumeUint32 b = Done (skipn 4 b, v))
      <-> (4 <= length b)%nat)
  /\ ((exists m, Sha256.consumeUint64 b = Panic m) <-> (length b < 8)%nat)
  /\ ((exists v, Sha256.consumeUint64 b = Done (skipn 8 b, v))
      <-> (8 <= length b)%nat).
Proof.
  assert (D : forall (A : Type) (a : A) (m : string),
             Done a <> Panic m) by (intros; discriminate).
  destruct (Nat.lt_ge_cases (length b) 4) as [H4|H4];
    destruct (Nat.lt_ge_cases (length b) 8) as [H8|H8]; try lia.
  - destruct (Md5Extra.md5_consumeUint32_short b H4) as (m1 & E1).
    destruct (Md5Extra.md5_consumeUint64_short b H8) as (m2 & E2).
    destruct (Sha256Extra.sha_consumeUint32_short b H4) as (m3 & E3).
    destruct (Sha256Extra.sha_consumeUint64_short b H8) as (m4 & E4).
    rewrite E1, E2, E3, E4.
    splits; split; intros H; try lia; try (destruct H as [? H]; discriminate H);
      eexists; reflexivity.
  - pose proof (Md5Facts.md5_consumeUint32_eq b H4) as E1.
    destruct (Md5Extra.md5_consumeUint64_short b H8) as (m2 & E2).
    pose proof (Sha256Facts.sha_consumeUint32_eq b H4) as E3.
    destruct (Sha256Extra.sha_consumeUint64_short b H8) as (m4 & E4).
    rewrite E1, E2, E3, E4.
    splits; split; intros H; try lia; try (destruct H as [? H]; discriminate H);
      eexists; reflexivity.
  - pose proof (Md5Facts.md5_consumeUint32_eq b H4) as E1.
    pose proof (Md5Facts.md5_consumeUint64_eq b H8) as E2.
    pose proof (Sha256Facts.sha_consumeUint32_eq b H4) as E3.
    pose proof (Sha256Facts.sha_consumeUint64_eq b H8) as E4.
    rewrite E1, E2, E3, E4.
    splits; split; intros H; try lia; try (destruct H as [? H]; discriminate H);
      eexists; reflexivity.
Qed.

(** X5 -- [Sum] appends.  After any sequence of calls, [Sum(in)] returns
    [in] followed by the checksum that [Sum(nil)] returns, and that
    checksum has [d.Size()] bytes: 16 for MD5, 32 for SHA-256, 28 for
    SHA-224. *)
Theorem sum_appends_checksum
    (v224 : bool) (calls4 : list Md5.call) (calls8 : list Sha256.call)
    (i : list byte) :
  (exists d sum,
      Md5.run c4 asm Md5.New calls4 = Done d /\
      Md5.Sum c4 asm d [] = Done (d, sum) /\
      Md5.Sum c4 asm d i = Done (d, i ++ sum) /\
      lenZ sum = Md5.digest_Size d /\ Md5.digest_Size d = 16)
  /\ (exists d sum,
      Sha256.run c8 (if v224 then Sha256.New224 else Sha256.New) calls8
        = Done d /\
      Sha256.Sum c8 d [] = Done (d, sum) /\
      Sha256.Sum c8 d i = Done (d, i ++ sum) /\
      lenZ sum = Sha256.digest_Size d /\
      Sha256.digest_Size d = if v224 then 28 else 32).
Proof.
  split.
  - destruct (Md5Facts.md5_run_consistent c4 asm calls4 Md5.New
                Md5Facts.md5_New_consistent) as (d & E & Hc).
    exists d. eexists. split; [exact E|].
    rewrite !Md5Facts.md5_Sum_closed by exact Hc. cbn [app].
    splits; try reflexivity. apply Md5Extra.md5_output_length.
  - destruct (Sha256Facts.sha_fresh_consistent v224) as (Hf & Hv & _).
    destruct (Sha256Facts.sha_run_consistent c8 calls8 _ Hf)
      as (d & E & Hc & Hvd).
    exists d. eexists. split; [exact E|].
    rewrite !Sha256Facts.sha_Sum_closed by exact Hc. cbn [app].
    splits; try reflexivity.
    + rewrite Sha256Facts.sha_output_length. unfold Sha256.digest_Size.
      destruct (Sha256.is224 d); reflexivity.
    + unfold Sha256.digest_Size. rewrite Hvd, Hv. destruct v224; reflexivity.
Qed.

(** X6 -- byte order of the checksum.  The bytes [checkSum] returns are
    the words of the state vector it ends with, in order: each word
    little-endian for MD5 and big-endian for SHA-256/224.  For SHA-224 the
    last four bytes of the array stay zero and [Sum] returns the first 28
    bytes only. *)
Theorem checksum_word_order
    (v224 : bool) (calls4 : list Md5.call) (calls8 : list Sha256.call) :
  (exists d d' sum,
      Md5.run c4 asm Md5.New calls4 = Done d /\
      Md5.checkSum c4 asm d = Done (d', sum) /\
      Md5.Sum c4 asm d [] = Done (d, sum) /\
      lenZ sum = 16 /\
      (let '(w0, w1, w2, w3) := Md5.s d' in
       le_value (firstn 4 sum) = uint32 w0 /\
       le_value (firstn 4 (skipn 4 sum)) = uint32 w1 /\
       le_value (firstn 4 (skipn 8 sum)) = uint32 w2 /\
       le_value (firstn 4 (skipn 12 sum)) = uint32 w3))
  /\ (exists d d' sum,
      Sha256.run c8 (if v224 then Sha256.New224 else Sha256.New) calls8
        = Done d /\
      Sha256.checkSum c8 d = Done (d', sum) /\
      Sha256.Sum c8 d [] = Done (d, firstn (if v224 then 28 else 32) sum) /\
      lenZ sum = 32 /\
      (let '(h0, h1, h2, h3, h4, h5, h6, h7) := Sha256.h d' in
       be_value (firstn 4 sum) = uint32 h0 /\
       be_value (firstn 4 (skipn 4 sum)) = uint32 h1 /\
       be_value (firstn 4 (skipn 8 sum)) = uint32 h2 /\
       be_value (firstn 4 (skipn 12 sum)) = uint32 h3 /\
       be_value (firstn 4 (skipn 16 sum)) = uint32 h4 /\
       be_value (firstn 4 (skipn 20 sum)) = uint32 h5 /\
       be_value (firstn 4 (skipn 24 sum)) = uint32 h6 /\
       be_value (skipn 28 sum) = if v224 then 0 else uint32 h7)).
Proof.
  split.
  - destruct (Md5Facts.md5_run_consistent c4 asm calls4 Md5.New
                Md5Facts.md5_New_consistent) as (d & E & Hc).
    destruct (Md5Facts.md5_checkSum_closed c4 asm d Hc) as (d' & E' & _ & Hs).
    exists d, d'. eexists. split; [exact E|]. split; [exact E'|].
    rewrite (Md5Facts.md5_Sum_closed c4 asm d [] Hc), <- Hs. cbn [app].
    split; [reflexivity|]. split; [apply Md5Extra.md5_output_length|].
    unfold Md5.output. destruct (Md5.s d') as [[[w0 w1] w2] w3].
    splits; apply le_value_le32.
  - destruct (Sha256Facts.sha_fresh_consistent v224) as (Hf & Hv & _).
    destruct (Sha256Facts.sha_run_consistent c8 calls8 _ Hf)
      as (d & E & Hc & Hvd).
    destruct (Sha256Facts.sha_checkSum_closed c8 d Hc)
      as (d' & E' & _ & Hs & _).
    exists d, d'. eexists. split; [exact E|]. split; [exact E'|].
    rewrite (Sha256Facts.sha_Sum_closed c8 d [] Hc), <- Hs. cbn [app].
    rewrite Hvd, Hv. unfold Sha256.output.
    destruct (Sha256.h d') as [[[[[[[h0 h1] h2] h3] h4] h5] h6] h7].
    destruct v224; (split; [reflexivity|]); (split; [reflexivity|]);
      splits; try apply be_value_be32; reflexivity.
Qed.

(** X7 -- an empty write changes nothing.  After any sequence of calls,
    [Write] of an empty slice returns [(0, nil)] and leaves every field of
    the instance, the buffer included, as it was. *)
Theorem write_empty_is_noop
    (v224 : bool) (calls4 : list Md5.call) (calls8 : list Sha256.call) :
  (exists d,
      Md5.run c4 asm Md5.New calls4 = Done d /\
      Md5.Write c4 asm d [] = Done (d, (0, None)))
  /\ (exists d,
      Sha256.run c8 (if v224 then Sha256.New224 else Sha256.New) calls8
        = Done d /\
      Sha256.Write c8 d [] = Done (d, (0, None))).
Proof.
  split.
  - destruct (Md5Facts.md5_run_consistent c4 asm calls4 Md5.New
                Md5Facts.md5_New_consistent) as (d & E & Hc).
    exists d. split; [exact E | apply Md5Extra.md5_Write_nil, Hc].
  - destruct (Sha256Facts.sha_fresh_consistent v224) as (Hf & _).
    destruct (Sha256Facts.sha_run_consistent c8 calls8 _ Hf)
      as (d & E & Hc & _).
    exists d. split; [exact E | apply Sha256Extra.sha_Write_nil, Hc].
Qed.

(** X8 -- whole blocks bypass the buffer.  On an instance with an empty
    buffer, writing a whole number of 64-byte blocks compresses them
    straight from the input: the buffer array is untouched, the fill
    count stays 0, the state vector absorbs every block and the length
    grows by the input's length (mod 2^64). *)
Theorem whole_blocks_bypass_buffer
    (d4 : Md5.digest) (d8 : Sha256.digest) (p : list byte) (k : nat) :
  Md5.wf d4 -> Md5.nx d4 = 0 -> Sha256.wf d8 -> Sha256.nx d8 = 0 ->
  length p = (64 * k)%nat ->
  Md5.Write c4 asm d4 p
    = Done (Md5.mkDigest (blocks c4 (Md5.s d4) p) (Md5.x d4) 0
                         (uint64 (Md5.len d4 + lenZ p)), (lenZ p, None))
  /\ Sha256.Write c8 d8 p
    = Done (Sha256.mkDigest (blocks c8 (Sha256.h d8) p) (Sha256.x d8) 0
                            (uint64 (Sha256.len d8 + lenZ p))
                            (Sha256.is224 d8), (lenZ p, None)).
Proof.
  intros H4 Z4 H8 Z8 Hp. split.
  - apply (Md5Extra.md5_Write_whole_blocks c4 asm d4 p k H4 Z4 Hp).
  - apply (Sha256Extra.sha_Write_whole_blocks c8 d8 p k H8 Z8 Hp).
Qed.

(** X9 -- the checkpoint does not depend on the chunking.  Exporting
    after the input was written in any number of pieces gives, byte for
    byte, the blob exported after one write of the whole input. *)
Theorem checkpoint_independent_of_chunking
    (v224 : bool) (chunks : list (list byte)) :
  (exists blob,
      (d <- Md5.run c4 asm Md5.New (map Md5.CallWrite chunks);;
       Md5.MarshalBinary d) = Done (blob, None) /\
      (d <- Md5.run c4 asm Md5.New [Md5.CallWrite (concat chunks)];;
       Md5.MarshalBinary d) = Done (blob, None))
  /\ (let fresh := if v224 then Sha256.New224 else Sha256.New in
      exists blob,
      (d <- Sha256.run c8 fresh (map Sha256.CallWrite chunks);;
       Sha256.MarshalBinary d) = Done (blob, None) /\
      (d <- Sha256.run c8 fresh [Sha256.CallWrite (concat chunks)];;
       Sha256.MarshalBinary d) = Done (blob, None)).
Proof.
  split.
  - destruct (Md5Facts.md5_run_writes c4 asm chunks Md5.New
                Md5Facts.md5_New_consistent)
      as (d1 & E1 & Hc1 & Hs1 & Hp1 & Hl1).
    destruct (Md5Facts.md5_run_writes c4 asm [concat chunks] Md5.New
                Md5Facts.md5_New_consistent)
      as (d2 & E2 & Hc2 & Hs2 & Hp2 & Hl2).
    cbn [concat map] in E2, Hs2, Hp2, Hl2. rewrite app_nil_r in Hs2, Hp2, Hl2.
    rewrite E1, E2. cbn [bind].
    rewrite (Md5Extra.md5_MarshalBinary_view d2 d1) by congruence.
    pose proof Hc1 as ((Hx & Hn) & _). unfold Md5.BlockSize in Hn.
    eexists. split; apply Md5Facts.md5_MarshalBinary_eq; (exact Hx || lia).
  - cbv zeta. destruct (Sha256Facts.sha_fresh_consistent v224) as (Hf & _).
    destruct (Sha256Facts.sha_run_writes c8 chunks _ Hf)
      as (d1 & E1 & Hc1 & Hs1 & Hp1 & Hl1 & Hv1).
    destruct (Sha256Facts.sha_run_writes c8 [concat chunks] _ Hf)
      as (d2 & E2 & Hc2 & Hs2 & Hp2 & Hl2 & Hv2).
    cbn [concat map] in E2, Hs2, Hp2, Hl2. rewrite app_nil_r in Hs2, Hp2, Hl2.
    rewrite E1, E2. cbn [bind].
    rewrite (Sha256Extra.sha_MarshalBinary_view d2 d1) by congruence.
    pose proof Hc1 as ((Hx & Hn) & _). unfold Sha256.chunk in Hn.
    eexists. split; apply Sha256Facts.sha_MarshalBinary_eq; (exact Hx || lia).
Qed.

(** X10 -- what a written instance holds.  After the input was written
    to a fresh instance in any number of pieces, the state vector is the
    compression of the initial constants over the complete 64-byte blocks
    of the input, the buffer holds the bytes after the last complete
    block, the fill count is their number, and the length is the input's
    length mod 2^64. *)
Theorem written_state (v224 : bool) (chunks : list (list byte)) :
  (exists d,
      Md5.run c4 asm Md5.New (map Md5.CallWrite chunks) = Done d /\
      Md5.s d = blocks c4 (Md5.init0, Md5.init1, Md5.init2, Md5.init3)
                  (concat chunks) /\
      Md5.pending d
        = skipn (length (concat chunks) - length (concat chunks) mod 64)
            (concat chunks) /\
      Md5.nx d = lenZ (concat chunks) mod 64 /\
      Md5.len d = uint64 (lenZ (concat chunks)))
  /\ (let fresh := if v224 then Sha256.New224 else Sha256.New in
      exists d,
      Sha256.run c8 fresh (map Sha256.CallWrite chunks) = Done d /\
      Sha256.h d = blocks c8 (Sha256.h fresh) (concat chunks) /\
      Sha256.pending d
        = skipn (length (concat chunks) - length (concat chunks) mod 64)
            (concat chunks) /\
      Sha256.nx d = lenZ (concat chunks) mod 64 /\
      Sha256.len d = uint64 (lenZ (concat chunks))).
Proof.
  assert (R : forall m : list byte,
             rest m = skipn (length m - length m mod 64) m).
  { intros m. unfold rest. f_equal.
    pose proof (Nat.div_mod_eq (length m) 64). lia. }
  split.
  - destruct (Md5Facts.md5_run_writes c4 asm chunks Md5.New
                Md5Facts.md5_New_consistent)
      as (d & E & (_ & Hn & _) & Hs & Hp & Hl).
    exists d. split; [exact E|].
    change (Md5.pending Md5.New) with (@nil byte) in *.
    change (Md5.len Md5.New) with 0 in *. cbn [app] in *.
    rewrite <- R, Hn, Hl, uint64_mod64. auto.
  - cbv zeta. destruct (Sha256Facts.sha_fresh_consistent v224) as (Hf & _).
    destruct (Sha256Facts.sha_run_writes c8 chunks _ Hf)
      as (d & E & (_ & Hn & _) & Hs & Hp & Hl & _).
    exists d. split; [exact E|].
    replace (Sha256.pending (if v224 then Sha256.New224 else Sha256.New))
      with (@nil byte) in * by (destruct v224; reflexivity).
    replace (Sha256.len (if v224 then Sha256.New224 else Sha256.New))
      with 0 in * by (destruct v224; reflexivity).
    cbn [app] in *. unfold Sha256.chunk in Hn.
    rewrite <- R, Hn, Hl, uint64_mod64. auto.
Qed.

(** X11 -- a successful import overwrites the receiver completely.
    The instance left by a successful [UnmarshalBinary] is determined by
    the blob (and, for SHA, the receiver's variant): importing the same
    blob into any other receiver gives the same instance, so nothing of
    the receiver's previous state vector, buffer, fill count or length
    survives. *)
Theorem import_overwrites_receiver
    (d4 e4 r4 : Md5.digest) (d8 e8 r8 : Sha256.digest) (b : list byte) :
  (length (Md5.x d4) = 64%nat -> length (Md5.x e4) = 64%nat ->
   Md5.UnmarshalBinary d4 b = Done (r4, None) ->
   Md5.UnmarshalBinary e4 b = Done (r4, None))
  /\ (length (Sha256.x d8) = 64%nat -> length (Sha256.x e8) = 64%nat ->
      Sha256.is224 d8 = Sha256.is224 e8 ->
      Sha256.UnmarshalBinary d8 b = Done (r8, None) ->
      Sha256.UnmarshalBinary e8 b = Done (r8, None)).
Proof.
  split.
  - intros Hd He HU.
    destruct (Md5Facts.md5_UnmarshalBinary_cases d4 b Hd)
      as [(_ & E) | [(_ & _ & E) | (Ht & Hl & _)]];
      [rewrite E in HU; discriminate HU | rewrite E in HU; discriminate HU |].
    rewrite (Md5Facts.md5_UnmarshalBinary_ok d4 b Hd Ht Hl) in HU.
    rewrite (Md5Facts.md5_UnmarshalBinary_ok e4 b He Ht Hl). exact HU.
  - intros Hd He Hv HU.
    destruct (Sha256Facts.sha_UnmarshalBinary_cases d8 b Hd)
      as [(_ & E) | [(_ & _ & E) | (Ht & Hl & _)]];
      [rewrite E in HU; discriminate HU | rewrite E in HU; discriminate HU |].
    rewrite (Sha256Facts.sha_UnmarshalBinary_ok d8 b Hd Ht Hl) in HU.
    assert (Ht' : firstn 4 b = Sha256.magic_of e8)
      by (rewrite Ht; unfold Sha256.magic_of; rewrite Hv; reflexivity).
    rewrite (Sha256Facts.sha_UnmarshalBinary_ok e8 b He Ht' Hl), <- Hv.
    exact HU.
Qed.

(** X12 -- import then export.  Exporting the instance that a successful
    import produced returns the imported blob with the buffer bytes past
    the fill count (the total length mod 64) replaced by zeros; tag,
    state words, buffered bytes and length field come back unchanged. *)
Theorem import_then_export
    (d4 r4 : Md5.digest) (d8 r8 : Sha256.digest) (b : list byte) :
  (length (Md5.x d4) = 64%nat ->
   Md5.UnmarshalBinary d4 b = Done (r4, None) ->
   Md5.MarshalBinary r4
   = Done (firstn 20 b
             ++ firstn (Z.to_nat (be_value (skipn 84 b) mod 64)) (skipn 20 b)
             ++ zeros (64 - Z.to_nat (be_value (skipn 84 b) mod 64))
             ++ skipn 84 b, None))
  /\ (length (Sha256.x d8) = 64%nat ->
      Sha256.UnmarshalBinary d8 b = Done (r8, None) ->
      Sha256.MarshalBinary r8
      = Done (firstn 36 b
                ++ firstn (Z.to_nat (be_value (skipn 100 b) mod 64))
                     (skipn 36 b)
                ++ zeros (64 - Z.to_nat (be_value (skipn 100 b) mod 64))
                ++ skipn 100 b, None)).
Proof.
  split.
  - apply Md5Extra.md5_import_export.
  - apply Sha256Extra.sha_import_export.
Qed.

(** X13 -- the block count of [Write].  The length [len(p) &^ 63] of the
    complete blocks that [Write] compresses from the input is, as the
    comments in the two files say, [(len(p) / BlockSize) * BlockSize] and
    [len(p) ^ (len(p) % chunk)]: the second statement group behaves the
    same with either expression. *)
Theorem block_count_forms
    (d4 : Md5.digest) (d8 : Sha256.digest) (p : list byte) :
  Md5.Write_blocks_by_division c4 asm d4 p = Md5.Write_blocks c4 asm d4 p
  /\ Sha256.Write_blocks_by_xor c8 d8 p = Sha256.Write_blocks c8 d8 p
  /\ Md5.Write_blocks c4 asm d4 p
     = Done (Md5.mkDigest
               (blocks c4 (Md5.s d4) (firstn (64 * (length p / 64)) p))
               (Md5.x d4) (Md5.nx d4) (Md5.len d4),
             skipn (64 * (length p / 64)) p)
  /\ Sha256.Write_blocks c8 d8 p
     = Done (Sha256.mkDigest
               (blocks c8 (Sha256.h d8) (firstn (64 * (length p / 64)) p))
               (Sha256.x d8) (Sha256.nx d8) (Sha256.len d8)
               (Sha256.is224 d8),
             skipn (64 * (length p / 64)) p).
Proof.
  splits.
  - apply Md5Extra.md5_Write_blocks_division.
  - apply Sha256Extra.sha_Write_blocks_xor.
  - rewrite Md5Facts.md5_Write_blocks_eq, blocks_full. reflexivity.
  - rewrite Sha256Facts.sha_Write_blocks_eq, blocks_full. reflexivity.
Qed.

(** X14 -- the one-shot functions agree with the streaming interface.
    For every input and every way of cutting it into pieces, [Sum] of
    md5, [Sum256] and [Sum224] return the checksum that [New] / [New224],
    one [Write] per piece and [Sum(nil)] return; it has 16, 32 and 28
    bytes, and no call panics. *)
Theorem oneshot_agrees_with_streaming (chunks : list (list byte)) :
  (exists sum,
      Md5.SumData c4 asm (concat chunks) = Done sum /\
      Md5.digest_of_writes c4 asm Md5.New chunks = Done sum /\
      lenZ sum = 16)
  /\ (exists sum,
      Sha256.Sum256 c8 (concat chunks) = Done sum /\
      Sha256.digest_of_writes c8 Sha256.New chunks = Done sum /\
      lenZ sum = 32)
  /\ (exists sum,
      Sha256.Sum224 c8 (concat chunks) = Done sum /\
      Sha256.digest_of_writes c8 Sha256.New224 chunks = Done sum /\
      lenZ sum = 28).
Proof.
  rewrite Md5Facts.md5_SumData_eq, Sha256Facts.sha_Sum256_eq,
    Sha256Facts.sha_Sum224_eq.
  rewrite !Md5Facts.md5_digest_of_writes_closed
    by apply Md5Facts.md5_New_consistent.
  rewrite !(Sha256Facts.sha_digest_of_writes_closed c8 Sha256.New)
    by apply Sha256Facts.sha_New_consistent.
  rewrite !(Sha256Facts.sha_digest_of_writes_closed c8 Sha256.New224)
    by apply Sha256Facts.sha_New224_consistent.
  cbn [concat]. rewrite !app_nil_r.
  splits; eexists; (split; [reflexivity|]); (split; [reflexivity|]).
  - apply Md5Extra.md5_output_length.
  - apply (Sha256Facts.sha_output_length false).
  - apply (Sha256Facts.sha_output_length true).
Qed.

(** X15 -- the variant of a SHA instance never changes.  Whatever is
    called on an instance made by [New] or [New224] (writes, resets,
    sums, exports, and imports of any bytes), it keeps its [is224] mark:
    its [Size()] stays 32 or 28, its exports carry its own magic tag, and
    [BlockSize()] is 64. *)
Theorem sha_variant_is_stable
    (v224 : bool) (calls8 : list Sha256.call) :
  exists d blob,
    Sha256.run c8 (if v224 then Sha256.New224 else Sha256.New) calls8
      = Done d /\
    Sha256.is224 d = v224 /\
    Sha256.digest_Size d = (if v224 then Sha256.Size224 else Sha256.Size) /\
    Sha256.digest_BlockSize d = 64 /\
    Sha256.MarshalBinary d = Done (blob, None) /\
    firstn 4 blob = (if v224 then Sha256.magic224 else Sha256.magic256).
Proof.
  destruct (Sha256Facts.sha_fresh_consistent v224) as (Hf & Hv & _).
  destruct (Sha256Facts.sha_run_consistent c8 calls8 _ Hf)
    as (d & E & ((Hx & Hn) & _) & Hvd).
  unfold Sha256.chunk in Hn.
  exists d. eexists. split; [exact E|].
  split; [congruence|].
  split; [unfold Sha256.digest_Size; rewrite Hvd, Hv; destruct v224;
          reflexivity|].
  split; [reflexivity|].
  split; [apply Sha256Facts.sha_MarshalBinary_eq; [exact Hx | lia]|].
  unfold Sha256.magic_of. rewrite Hvd, Hv. destruct v224; reflexivity.
Qed.

(** X16 -- a checkpoint taken after [Reset] is the checkpoint of a
    fresh instance.  [Reset] leaves the old bytes in the buffer array,
    but [MarshalBinary] writes only the first [nx] of them and zeros
    after, so none of the bytes written before the reset reach the
    exported blob. *)
Theorem reset_checkpoint_is_fresh
    (v224 : bool) (calls4 : list Md5.call) (calls8 : list Sha256.call) :
  (exists d blob,
      Md5.run c4 asm Md5.New calls4 = Done d /\
      Md5.MarshalBinary (Md5.Reset d) = Done (blob, None) /\
      Md5.MarshalBinary Md5.New = Done (blob, None))
  /\ (let fresh := if v224 then Sha256.New224 else Sha256.New in
      exists d blob,
      Sha256.run c8 fresh calls8 = Done d /\
      Sha256.MarshalBinary (Sha256.Reset d) = Done (blob, None) /\
      Sha256.MarshalBinary fresh = Done (blob, None)).
Proof.
  split.
  - destruct (Md5Facts.md5_run_consistent c4 asm calls4 Md5.New
                Md5Facts.md5_New_consistent) as (d & E & (Hx & _) & _).
    exists d. eexists. split; [exact E|].
    rewrite (Md5Extra.md5_MarshalBinary_view (Md5.Reset d) Md5.New);
      try reflexivity;
      [| apply Md5Extra.md5_Reset_consistent, Hx
       | apply Md5Facts.md5_New_consistent].
    pose proof Md5Facts.md5_New_consistent as ((HxN & HnN) & _).
    unfold Md5.BlockSize in HnN.
    split; apply Md5Facts.md5_MarshalBinary_eq; (exact HxN || lia).
  - cbv zeta.
    destruct (Sha256Facts.sha_fresh_consistent v224) as (Hf & Hv & _).
    destruct (Sha256Facts.sha_run_consistent c8 calls8 _ Hf)
      as (d & E & ((Hx & _) & _) & Hvd).
    destruct (Sha256Extra.sha_Reset_variant d) as (Hh & Hr).
    assert (Hn : Sha256.nx (Sha256.Reset d) = 0
                 /\ Sha256.len (Sha256.Reset d) = 0)
      by (unfold Sha256.Reset; destruct (Sha256.is224 d); auto).
    destruct Hn as (Hn & Hl).
    exists d. eexists. split; [exact E|].
    rewrite (Sha256Extra.sha_MarshalBinary_view (Sha256.Reset d)
               (if v224 then Sha256.New224 else Sha256.New)).
    + pose proof Hf as ((Hxf & Hnf) & _). unfold Sha256.chunk in Hnf.
      split; apply Sha256Facts.sha_MarshalBinary_eq; (exact Hxf || lia).
    + apply Sha256Extra.sha_Reset_consistent, Hx.
    + exact Hf.
    + rewrite Hh, Hvd, Hv. destruct v224; reflexivity.
    + unfold Sha256.pending. rewrite Hn. destruct v224; reflexivity.
    + rewrite Hl. destruct v224; reflexivity.
    + rewrite Hr, Hvd, Hv. reflexivity.
Qed.

(** X17 -- a short write only buffers.  A write that, together with the
    bytes already buffered, stays below one block never calls the
    compression function: the state vector is unchanged, the input is
    appended to the buffered bytes, the fill count grows by the input's
    length, and [Write] reports all of it written. *)
Theorem short_write_only_buffers
    (d4 : Md5.digest) (d8 : Sha256.digest) (p : list byte) :
  Md5.wf d4 -> Md5.nx d4 + lenZ p < 64 ->
  Sha256.wf d8 -> Sha256.nx d8 + lenZ p < 64 ->
  (exists d',
      Md5.Write c4 asm d4 p = Done (d', (lenZ p, None)) /\
      Md5.s d' = Md5.s d4 /\
      Md5.pending d' = Md5.pending d4 ++ p /\
      Md5.nx d' = Md5.nx d4 + lenZ p /\
      Md5.len d' = uint64 (Md5.len d4 + lenZ p))
  /\ (exists d',
      Sha256.Write c8 d8 p = Done (d', (lenZ p, None)) /\
      Sha256.h d' = Sha256.h d8 /\
      Sha256.pending d' = Sha256.pending d8 ++ p /\
      Sha256.nx d' = Sha256.nx d8 + lenZ p /\
      Sha256.len d' = uint64 (Sha256.len d8 + lenZ p) /\
      Sha256.is224 d' = Sha256.is224 d8).
Proof.
  intros H4 S4 H8 S8. split.
  - destruct (Md5Facts.md5_Write_spec c4 asm d4 p H4)
      as (d' & E & Hwf & Hs & Hp & Hl).
    pose proof (Md5Facts.md5_pending_length d4 H4) as L4.
    pose proof (Md5Facts.md5_pending_length d' Hwf) as L'.
    destruct H4 as (_ & Hn). destruct Hwf as (_ & Hn').
    unfold Md5.BlockSize in *. unfold lenZ in S4.
    assert (Hshort : (length (Md5.pending d4 ++ p) < 64)%nat)
      by (rewrite length_app, L4; lia).
    rewrite blocks_short in Hs by exact Hshort.
    rewrite rest_short in Hp by exact Hshort.
    exists d'. splits; auto.
    rewrite Hp, length_app, L4 in L'. unfold lenZ. lia.
  - destruct (Sha256Facts.sha_Write_spec c8 d8 p H8)
      as (d' & E & Hwf & Hs & Hp & Hl & Hv).
    pose proof (Sha256Facts.sha_pending_length d8 H8) as L8.
    pose proof (Sha256Facts.sha_pending_length d' Hwf) as L'.
    destruct H8 as (_ & Hn). destruct Hwf as (_ & Hn').
    unfold Sha256.chunk in *. unfold lenZ in S8.
    assert (Hshort : (length (Sha256.pending d8 ++ p) < 64)%nat)
      by (rewrite length_app, L8; lia).
    rewrite blocks_short in Hs by exact Hshort.
    rewrite rest_short in Hp by exact Hshort.
    exists d'. splits; auto.
    rewrite Hp, length_app, L8 in L'. unfold lenZ. lia.
Qed.

End FurtherProperties.

(** ** Closed instances of the further properties *)

(** [whole_blocks_bypass_buffer] at fresh MD5 and SHA-224 instances and a
    write of two blocks. *)
Lemma whole_blocks_bypass_buffer_witness :
  Md5.wf Md5.New /\ Md5.nx Md5.New = 0 /\
  Sha256.wf Sha256.New224 /\ Sha256.nx Sha256.New224 = 0 /\
  length (repeat Byte.x61 128) = (64 * 2)%nat /\
  (Md5.Write Md5.sample_compress false Md5.New (repeat Byte.x61 128)
    = Done (Md5.mkDigest
              (blocks Md5.sample_compress (Md5.s Md5.New)
                 (repeat Byte.x61 128))
              (Md5.x Md5.New) 0
              (uint64 (Md5.len Md5.New + lenZ (repeat Byte.x61 128))),
            (lenZ (repeat Byte.x61 128), None))
   /\ Sha256.Write Sha256.sample_compress Sha256.New224 (repeat Byte.x61 128)
    = Done (Sha256.mkDigest
              (blocks Sha256.sample_compress (Sha256.h Sha256.New224)
                 (repeat Byte.x61 128))
              (Sha256.x Sha256.New224) 0
              (uint64 (Sha256.len Sha256.New224
                       + lenZ (repeat Byte.x61 128)))
              (Sha256.is224 Sha256.New224),
            (lenZ (repeat Byte.x61 128), None))).
Proof.
  assert (H4 : Md5.wf Md5.New)
    by (vm_compute; repeat split; (reflexivity || discriminate)).
  assert (H8 : Sha256.wf Sha256.New224)
    by (vm_compute; repeat split; (reflexivity || discriminate)).
  split; [exact H4|]. split; [reflexivity|].
  split; [exact H8|]. split; [reflexivity|]. split; [reflexivity|].
  exact (whole_blocks_bypass_buffer Md5.sample_compress false
           Sha256.sample_compress Md5.New Sha256.New224
           (repeat Byte.x61 128) 2 H4 eq_refl H8 eq_refl eq_refl).
Defined.

(** [import_overwrites_receiver] at a blob of zero state words with two
    bytes recorded, imported into a fresh and into a used MD5 instance. *)
Lemma import_overwrites_receiver_witness :
  length (Md5.x Md5.New) = 64%nat /\
  length (Md5.x (Md5.mkDigest (1, 2, 3, 4) (repeat Byte.x62 64) 5 69))
    = 64%nat /\
  Md5.UnmarshalBinary Md5.New
    (Md5.magic ++ zeros 16 ++ repeat Byte.x61 64 ++ zeros 7 ++ [Byte.x02])
    = Done (Md5.mkDigest (0, 0, 0, 0) (repeat Byte.x61 64) 2 2, None) /\
  Md5.UnmarshalBinary
    (Md5.mkDigest (1, 2, 3, 4) (repeat Byte.x62 64) 5 69)
    (Md5.magic ++ zeros 16 ++ repeat Byte.x61 64 ++ zeros 7 ++ [Byte.x02])
    = Done (Md5.mkDigest (0, 0, 0, 0) (repeat Byte.x61 64) 2 2, None).
Proof.
  assert (HU : Md5.UnmarshalBinary Md5.New
                 (Md5.magic ++ zeros 16 ++ repeat Byte.x61 64
                    ++ zeros 7 ++ [Byte.x02])
               = Done (Md5.mkDigest (0, 0, 0, 0) (repeat Byte.x61 64) 2 2,
                       None))
    by (vm_compute; reflexivity).
  split; [reflexivity|]. split; [reflexivity|]. split; [exact HU|].
  exact (proj1 (import_overwrites_receiver Md5.New
                  (Md5.mkDigest (1, 2, 3, 4) (repeat Byte.x62 64) 5 69)
                  (Md5.mkDigest (0, 0, 0, 0) (repeat Byte.x61 64) 2 2)
                  Sha256.New Sha256.New Sha256.New
                  (Md5.magic ++ zeros 16 ++ repeat Byte.x61 64
                     ++ zeros 7 ++ [Byte.x02]))
           eq_refl eq_refl HU).
Defined.

(** [import_then_export] at a SHA-256 blob whose buffer field is full of
    bytes while its length field records two. *)
Lemma import_then_export_witness :
  length (Sha256.x Sha256.New) = 64%nat /\
  Sha256.UnmarshalBinary Sha256.New
    (Sha256.magic256 ++ zeros 32 ++ repeat Byte.x61 64
       ++ zeros 7 ++ [Byte.x02])
    = Done (Sha256.mkDigest (0, 0, 0, 0, 0, 0, 0, 0)
              (repeat Byte.x61 64) 2 2 false, None) /\
  Sha256.MarshalBinary
    (Sha256.mkDigest (0, 0, 0, 0, 0, 0, 0, 0) (repeat Byte.x61 64) 2 2 false)
    = Done (Sha256.magic256 ++ zeros 32 ++ repeat Byte.x61 2 ++ zeros 62
              ++ zeros 7 ++ [Byte.x02], None).
Proof.
  assert (HU : Sha256.UnmarshalBinary Sha256.New
                 (Sha256.magic256 ++ zeros 32 ++ repeat Byte.x61 64
                    ++ zeros 7 ++ [Byte.x02])
               = Done (Sha256.mkDigest (0, 0, 0, 0, 0, 0, 0, 0)
                         (repeat Byte.x61 64) 2 2 false, None))
    by (vm_compute; reflexivity).
  split; [reflexivity|]. split; [exact HU|].
  exact (proj2 (import_then_export Md5.New Md5.New Sha256.New
                  (Sha256.mkDigest (0, 0, 0, 0, 0, 0, 0, 0)
                     (repeat Byte.x61 64) 2 2 false)
                  (Sha256.magic256 ++ zeros 32 ++ repeat Byte.x61 64
                     ++ zeros 7 ++ [Byte.x02]))
           eq_refl HU).
Defined.

(** [short_write_only_buffers] at fresh MD5 and SHA-256 instances and a
    write of three bytes. *)
Lemma short_write_only_buffers_witness :
  Md5.wf Md5.New /\ Md5.nx Md5.New + lenZ [Byte.x61; Byte.x62; Byte.x63] < 64 /\
  Sha256.wf Sha256.New /\
  Sha256.nx Sha256.New + lenZ [Byte.x61; Byte.x62; Byte.x63] < 64 /\
  ((exists d',
      Md5.Write Md5.sample_compress true Md5.New [Byte.x61; Byte.x62; Byte.x63]
        = Done (d', (lenZ [Byte.x61; Byte.x62; Byte.x63], None)) /\
      Md5.s d' = Md5.s Md5.New /\
      Md5.pending d' = Md5.pending Md5.New ++ [Byte.x61; Byte.x62; Byte.x63] /\
      Md5.nx d' = Md5.nx Md5.New + lenZ [Byte.x61; Byte.x62; Byte.x63] /\
      Md5.len d'
        = uint64 (Md5.len Md5.New + lenZ [Byte.x61; Byte.x62; Byte.x63]))
   /\ (exists d',
      Sha256.Write Sha256.sample_compress Sha256.New
        [Byte.x61; Byte.x62; Byte.x63]
        = Done (d', (lenZ [Byte.x61; Byte.x62; Byte.x63], None)) /\
      Sha256.h d' = Sha256.h Sha256.New /\
      Sha256.pending d'
        = Sha256.pending Sha256.New ++ [Byte.x61; Byte.x62; Byte.x63] /\
      Sha256.nx d'
        = Sha256.nx Sha256.New + lenZ [Byte.x61; Byte.x62; Byte.x63] /\
      Sha256.len d'
        = uint64 (Sha256.len Sha256.New
                  + lenZ [Byte.x61; Byte.x62; Byte.x63]) /\
      Sha256.is224 d' = Sha256.is224 Sha256.New)).
Proof.
  assert (H4 : Md5.wf Md5.New)
    by (vm_compute; repeat split; (reflexivity || discriminate)).
  assert (H8 : Sha256.wf Sha256.New)
    by (vm_compute; repeat split; (reflexivity || discriminate)).
  split; [exact H4|]. split; [reflexivity|].
  split; [exact H8|]. split; [reflexivity|].
  exact (short_write_only_buffers Md5.sample_compress true
           Sha256.sample_compress Md5.New Sha256.New
           [Byte.x61; Byte.x62; Byte.x63] H4 eq_refl H8 eq_refl).
Defined.
